(** * Forest task scheduling in beiwe-backend: a shallow embedding

    The development follows the three source files that carry the logic:
    - [services/celery_forest.py]: admission scan, dispatch options, the
      execution coordinator [celery_run_forest] and its helpers;
    - [pages/forest_pages.py]: the status grid of [analysis_progress] and the
      cancel request of [task_log];
    - the Django models they use, of which only the fields read or written by
      that code are kept.

    Python objects become records, querysets become lists of rows, dicts
    become [gmap]s, and code that raises or mutates shared state lives in a
    small state-and-exception monad. *)

From Stdlib Require Import ZArith List Bool Lia Ascii String Sorted.
From stdpp Require Import base option gmap strings pretty.
Import ListNotations.

Open Scope Z_scope.
Open Scope string_scope.

(* ===================================================================== *)
(** ** Data model                                                         *)
(* ===================================================================== *)

(** [ForestTask.Status] *)
Module Status.
Inductive t := queued | running | success | error | cancelled.

Definition eqb (a b : t) : bool :=
    match a, b with
    | queued, queued | running, running | success, success
    | error, error | cancelled, cancelled => true
    | _, _ => false
    end.
End Status.

(** A Python exception: its class name and its message. *)
Record exn := Exn { exn_type : string; exn_msg : string }.

(** The built-in classes that do not derive from [Exception]: what the
    interpreter raises to leave a program, not to report an error.  An
    exception of a class that derives from one of them goes by the name of
    that class. *)
Definition exits : list string :=
  ["BaseException"; "SystemExit"; "KeyboardInterrupt"; "GeneratorExit"].

(** [isinstance(e, Exception)] *)
Definition is_Exception (e : exn) : bool :=
  negb (existsb (String.eqb (exn_type e)) exits).

(** The columns of a ForestTask row that the scheduler reads or writes.
    Dates are days since the epoch, datetimes microseconds since the epoch. *)
Module ForestTask.
Record t := Build {
    id : Z;
    external_id : string;
    participant : Z;
    forest_tree : string;
    data_date_start : Z;
    data_date_end : Z;
    created_on : Z;
    status : Status.t;
    forest_version : string;
    process_start_time : option Z;
    process_download_end_time : option Z;
    process_end_time : option Z;
    total_file_size : option Z;
    stacktrace : option string;
    params_dict_cache : string
  }.

Definition set_status (v : Status.t) (r : t) : t :=
    Build (id r) (external_id r) (participant r) (forest_tree r)
      (data_date_start r) (data_date_end r) (created_on r) v
      (forest_version r) (process_start_time r) (process_download_end_time r)
      (process_end_time r) (total_file_size r) (stacktrace r)
      (params_dict_cache r).

Definition set_forest_version (v : string) (r : t) : t :=
    Build (id r) (external_id r) (participant r) (forest_tree r)
      (data_date_start r) (data_date_end r) (created_on r) (status r)
      v (process_start_time r) (process_download_end_time r)
      (process_end_time r) (total_file_size r) (stacktrace r)
      (params_dict_cache r).

Definition set_process_start_time (v : option Z) (r : t) : t :=
    Build (id r) (external_id r) (participant r) (forest_tree r)
      (data_date_start r) (data_date_end r) (created_on r) (status r)
      (forest_version r) v (process_download_end_time r)
      (process_end_time r) (total_file_size r) (stacktrace r)
      (params_dict_cache r).

Definition set_process_download_end_time (v : option Z) (r : t) : t :=
    Build (id r) (external_id r) (participant r) (forest_tree r)
      (data_date_start r) (data_date_end r) (created_on r) (status r)
      (forest_version r) (process_start_time r) v
      (process_end_time r) (total_file_size r) (stacktrace r)
      (params_dict_cache r).

Definition set_process_end_time (v : option Z) (r : t) : t :=
    Build (id r) (external_id r) (participant r) (forest_tree r)
      (data_date_start r) (data_date_end r) (created_on r) (status r)
      (forest_version r) (process_start_time r) (process_download_end_time r)
      v (total_file_size r) (stacktrace r)
      (params_dict_cache r).

Definition set_total_file_size (v : option Z) (r : t) : t :=
    Build (id r) (external_id r) (participant r) (forest_tree r)
      (data_date_start r) (data_date_end r) (created_on r) (status r)
      (forest_version r) (process_start_time r) (process_download_end_time r)
      (process_end_time r) v (stacktrace r)
      (params_dict_cache r).

Definition set_stacktrace (v : option string) (r : t) : t :=
    Build (id r) (external_id r) (participant r) (forest_tree r)
      (data_date_start r) (data_date_end r) (created_on r) (status r)
      (forest_version r) (process_start_time r) (process_download_end_time r)
      (process_end_time r) (total_file_size r) v
      (params_dict_cache r).

Definition set_params_dict_cache (v : string) (r : t) : t :=
    Build (id r) (external_id r) (participant r) (forest_tree r)
      (data_date_start r) (data_date_end r) (created_on r) (status r)
      (forest_version r) (process_start_time r) (process_download_end_time r)
      (process_end_time r) (total_file_size r) (stacktrace r)
      v.

  (** The column names that appear in an [update_fields] list. *)
Inductive field :=
  | f_status | f_forest_version | f_process_start_time
  | f_total_file_size | f_process_download_end_time | f_params_dict_cache.

  (** [UPDATE ... SET col = value of col in src]: one column of [src] is
      written over the stored row [dst]. *)
Definition copy_field (src : t) (dst : t) (f : field) : t :=
    match f with
    | f_status => set_status (status src) dst
    | f_forest_version => set_forest_version (forest_version src) dst
    | f_process_start_time => set_process_start_time (process_start_time src) dst
    | f_total_file_size => set_total_file_size (total_file_size src) dst
    | f_process_download_end_time =>
        set_process_download_end_time (process_download_end_time src) dst
    | f_params_dict_cache => set_params_dict_cache (params_dict_cache src) dst
    end.

Definition has_status (s : Status.t) (r : t) : bool := Status.eqb (status r) s.

  (** [filter(participant=p, forest_tree=tr)] *)
Definition for_pair (p : Z) (tr : string) (r : t) : bool :=
    Z.eqb (participant r) p && String.eqb (forest_tree r) tr.
End ForestTask.

(** A ChunkRegistry row (read-only for the scheduler). *)
Module Chunk.
Record t := Build {
    participant : Z;
    study_object_id : string;
    chunk_path : string;
    file_size : option Z;
    time_bin : Z
  }.
End Chunk.

(** The two cached by-products of a run. *)
Inductive artifact := all_bv_set | all_memory_dict.

Global Instance artifact_eq_dec : EqDecision artifact.
Proof. solve_decision. Defined.

(** Values that occur in the keyword arguments of [apply_async]. *)
Inductive pyval :=
| PyInt (n : Z)
| PyBool (b : bool)
| PyDatetime (us : Z)
| PyList (l : list Z).

(** Everything the code can observe or change. *)
Record World := mkWorld {
  tasks : list ForestTask.t;                (* the ForestTask table *)
  chunk_registry : list Chunk.t;            (* the ChunkRegistry table *)
  files : gmap string string;               (* local files: path to contents *)
  broker : list (gmap string pyval);        (* apply_async calls, oldest first *)
  blobs : list (Z * artifact * string);     (* persisted artifacts, by task id *)
  ticks : nat                               (* clock readings taken so far *)
}.

Definition set_tasks (v : list ForestTask.t) (w : World) : World :=
  mkWorld v (chunk_registry w) (files w) (broker w) (blobs w) (ticks w).
Definition set_files (v : gmap string string) (w : World) : World :=
  mkWorld (tasks w) (chunk_registry w) v (broker w) (blobs w) (ticks w).
Definition set_broker (v : list (gmap string pyval)) (w : World) : World :=
  mkWorld (tasks w) (chunk_registry w) (files w) v (blobs w) (ticks w).
Definition set_blobs (v : list (Z * artifact * string)) (w : World) : World :=
  mkWorld (tasks w) (chunk_registry w) (files w) (broker w) v (ticks w).
Definition set_ticks (v : nat) (w : World) : World :=
  mkWorld (tasks w) (chunk_registry w) (files w) (broker w) (blobs w) v.

(* ===================================================================== *)
(** ** A state-and-exception monad                                        *)
(* ===================================================================== *)

Inductive res (A : Type) :=
| Ok (a : A)
| Raise (e : exn).
Arguments Ok {A} a.
Arguments Raise {A} e.

(** A computation over a mutable state [S] that returns or raises.  State
    changes made before a [Raise] stay, as side effects do in Python. *)
Definition M (S A : Type) : Type := S -> res A * S.

Definition ret {S A} (a : A) : M S A := fun s => (Ok a, s).
Definition raise {S A} (e : exn) : M S A := fun s => (Raise e, s).
Definition bind {S A B} (m : M S A) (k : A -> M S B) : M S B :=
  fun s => match m s with
           | (Ok a, s') => k a s'
           | (Raise e, s') => (Raise e, s')
           end.
Definition gets {S A} (f : S -> A) : M S A := fun s => (Ok (f s), s).
Definition modify {S} (f : S -> S) : M S unit := fun s => (Ok tt, f s).

Declare Scope py_scope.
Delimit Scope py_scope with py.
Notation "x <- m ;; k" := (bind m (fun x => k))
  (at level 100, m at next level, right associativity) : py_scope.
Notation "m ;;; k" := (bind m (fun _ => k))
  (at level 100, right associativity) : py_scope.
Open Scope py_scope.

(** [try: body / except Exception: handler / else: orelse]: the clause
    takes the exceptions that derive from [Exception]; any other leaves the
    statement as it came. *)
Definition try_except_else {S A} (body : M S A) (handler : exn -> M S unit)
    (orelse : M S unit) : M S unit :=
  fun s => match body s with
           | (Ok _, s') => orelse s'
           | (Raise e, s') =>
               if is_Exception e then handler e s' else (Raise e, s')
           end.

(** [for x in xs: body x], stopping at the first exception. *)
Fixpoint for_each {S A} (xs : list A) (body : A -> M S unit) : M S unit :=
  match xs with
  | [] => ret tt
  | x :: xs' => body x ;;; for_each xs' body
  end.

(** [with transaction.atomic(): body]: the table is restored when the block
    is left by an exception. *)
Definition atomic {A} (body : M World A) : M World A :=
  fun w => match body w with
           | (Raise e, w') => (Raise e, set_tasks (tasks w) w')
           | r => r
           end.

(* ===================================================================== *)
(** ** Queryset operations                                                *)
(* ===================================================================== *)

(** [order_by]: a stable insertion sort; rows with equal keys keep the order
    of the table. *)
Fixpoint insert_by {A} (le : A -> A -> bool) (x : A) (l : list A) : list A :=
  match l with
  | [] => [x]
  | y :: l' => if le x y then x :: l else y :: insert_by le x l'
  end.

Definition sort_by {A} (le : A -> A -> bool) (l : list A) : list A :=
  fold_right (insert_by le) [] l.

(** [order_by("col")] and [order_by("-col")] *)
Definition order_by {A} (key : A -> Z) (l : list A) : list A :=
  sort_by (fun a b => Z.leb (key a) (key b)) l.
Definition order_by_desc {A} (key : A -> Z) (l : list A) : list A :=
  sort_by (fun a b => Z.leb (key b) (key a)) l.

(** [.first()] *)
Definition first {A} (l : list A) : option A := hd_error l.

(** [UPDATE ... WHERE id = pk] *)
Definition update_row (pk : Z) (f : ForestTask.t -> ForestTask.t)
    (rows : list ForestTask.t) : list ForestTask.t :=
  map (fun r => if Z.eqb (ForestTask.id r) pk then f r else r) rows.

Definition row_exists (pk : Z) (rows : list ForestTask.t) : bool :=
  existsb (fun r => Z.eqb (ForestTask.id r) pk) rows.

(** [aggregate(Sum('file_size')).get('file_size__sum')]: SQL SUM skips NULLs
    and is NULL (Python [None]) when there is nothing to add. *)
Definition sum_file_size (chunks : list Chunk.t) : option Z :=
  match omap Chunk.file_size chunks with
  | [] => None
  | n :: ns => Some (fold_left Z.add ns n)
  end.

(* ===================================================================== *)
(** ** The world outside the repository                                   *)
(* ===================================================================== *)

(** The two entry points of the forest package that
    [TREE_TO_FOREST_FUNCTION] names. *)
Inductive forest_function := gps_stats_main | log_stats_main.

(** The calls at which a collaborator (database, broker, object store,
    package metadata, file system) may answer with an exception instead of
    doing its work. *)
Inductive site :=
| at_get_distribution            (* get_distribution("forest") *)
| at_save_running                (* save(update_fields=["status", ...]) *)
| at_apply_async                 (* safe_apply_async(...) *)
| at_sum_file_size               (* chunks.aggregate(Sum('file_size')) *)
| at_save_total_file_size        (* save(update_fields=["total_file_size"]) *)
| at_construct_summary_statistics
| at_upload (a : artifact)       (* save_all_..._bytes(...) *)
| at_final_save                  (* save() *)
| at_clean_up_files.

Definition params := list (string * string).

(** The behaviour of everything the repository calls but does not define,
    and the constants of [ForestTree], whose module is not among the sources.
    [clock n] is the n-th reading of the wall clock (UTC, microseconds). *)
Record Env := mkEnv {
  fault : site -> option exn;
  clock : nat -> Z;
  ForestTree_jasmine : string;
  ForestTree_willow : string;
  ForestTree_values : list string;
  dist_version : string;
  s3_retrieve : string -> string -> res string;
  decode_utf8 : string -> res string;
  determine_file_name : Chunk.t -> string;
  data_base_path : ForestTask.t -> string;
  data_input_path : ForestTask.t -> string;
  all_bv_set_path : ForestTask.t -> string;
  all_memory_dict_path : ForestTask.t -> string;
  params_dict : ForestTask.t -> res params;
  json_dumps : params -> string;
  forest_main : forest_function -> params -> gmap string string ->
                res unit * gmap string string;
  isoformat : Z -> string
}.

Definition newline : string := String (Ascii.ascii_of_nat 10) EmptyString.

(** [traceback.format_exc()]: the header line, the frames (left out) and the
    exception's own line. *)
Definition format_exc (e : exn) : string :=
  "Traceback (most recent call last):" +:+ newline +:+
  exn_type e +:+ ": " +:+ exn_msg e +:+ newline.

(** [os.path.join] of two components. *)
Definition ends_with_slash (a : string) : bool :=
  match String.get (String.length a - 1) a with
  | Some c => Ascii.eqb c "/"%char
  | None => false
  end.

Definition path_join (a b : string) : string :=
  if String.prefix "/" b then b
  else if String.eqb a "" || ends_with_slash a then a +:+ b
  else a +:+ "/" +:+ b.

(** [p] lies in the directory tree rooted at [dir]. *)
Definition is_under (dir p : string) : bool :=
  String.eqb dir p || String.prefix (dir +:+ "/") p.

Definition microseconds_per_day : Z := 86400 * 1000000.

(** [datetime.date()] *)
Definition date_of (us : Z) : Z := us / microseconds_per_day.

(** Modelled from the spec: [daterange] is a helper of the repository that
    is not among the sources; with [inclusive=True] it yields the dates of
    the inclusive range, first to last, and none when the range is empty. *)
Definition daterange (start stop : Z) : list Z :=
  map (fun i => start + Z.of_nat i) (seq 0 (Z.to_nat (stop - start + 1))).

(** The dict literal [TREE_TO_FOREST_FUNCTION]: the entries are stored in the
    order written. *)
Definition TREE_TO_FOREST_FUNCTION (E : Env) : gmap string forest_function :=
  <[ForestTree_willow E := log_stats_main]>
    (<[ForestTree_jasmine E := gps_stats_main]> ∅).

Section Scheduler.

Context (E : Env).

(** [timezone.now()], [datetime.utcnow()] *)
Definition now : M World Z :=
  fun w => (Ok (clock E (ticks w)), set_ticks (S (ticks w)) w).

(** A call that does nothing visible unless the environment faults it. *)
Definition call (s : site) : M World unit :=
  fun w => match fault E s with
           | Some e => (Raise e, w)
           | None => (Ok tt, w)
           end.

(** [Model.save]: with [update_fields] only those columns of the row with the
    object's primary key are written, and a missing row is an error; without,
    every column is written, and a missing row is inserted. *)
Definition save (s : site) (update_fields : option (list ForestTask.field))
    (tracker : ForestTask.t) : M World unit :=
  call s ;;;
  present <- gets (fun w => row_exists (ForestTask.id tracker) (tasks w)) ;;
  match update_fields with
  | Some fs =>
      if present then
        modify (fun w => set_tasks
          (update_row (ForestTask.id tracker)
             (fun r => fold_left (ForestTask.copy_field tracker) fs r) (tasks w)) w)
      else
        raise (Exn "DatabaseError" "Save with update_fields did not affect any rows.")
  | None =>
      if present then
        modify (fun w => set_tasks
          (update_row (ForestTask.id tracker) (fun _ => tracker) (tasks w)) w)
      else
        modify (fun w => set_tasks (tasks w ++ [tracker]) w)
  end.

(** What Python raises for a call of [save] with the keyword
    [update_field]. *)
Definition update_field_TypeError : exn :=
  Exn "TypeError" "save() got an unexpected keyword argument 'update_field'".

(** [tracker.save(update_field=[...])]: the keywords of [Model.save] are
    [force_insert], [force_update], [using] and [update_fields].
    [update_field] is none of them, so the call raises before anything is
    written, whatever the list. *)
Definition save_update_field (update_field : list ForestTask.field)
    (tracker : ForestTask.t) : M World unit :=
  raise update_field_TypeError.

(** Modelled from the spec: [safe_apply_async] is a helper of the repository
    that is not among the sources; it submits the call to the dispatch
    backend, which accepts the task id with its options. *)
Definition safe_apply_async (kwargs : gmap string pyval) : M World unit :=
  call at_apply_async ;;;
  modify (fun w => set_broker (broker w ++ [kwargs]) w).

(** [(datetime.utcnow() + timedelta(minutes=5)).replace(second=30, microsecond=0)] *)
Definition expires_at (utcnow : Z) : Z :=
  let t := utcnow + 5 * 60 * 1000000 in
  t - t mod (60 * 1000000) + 30 * 1000000.

(** [enqueue_forest_task]: in the merged dict the defaults come first, so the caller's
    keys win. *)
Definition enqueue_forest_task (kwargs : gmap string pyval) : M World unit :=
  utcnow <- now ;;
  let updated_kwargs : gmap string pyval :=
    kwargs ∪
    (<["expires" := PyDatetime (expires_at utcnow)]>
     (<["max_retries" := PyInt 0]>
      (<["retry" := PyBool false]>
       (<["task_publish_retry" := PyBool false]>
        (<["task_track_started" := PyBool true]> ∅))))) in
  safe_apply_async updated_kwargs.

Definition args_of (pk : Z) : gmap string pyval := {["args" := PyList [pk]]}.

(** [create_forest_celery_tasks()] *)
Definition create_forest_celery_tasks : M World unit :=
  pending_trackers <- gets (fun w =>
    List.filter (ForestTask.has_status Status.queued) (tasks w)) ;;
  for_each pending_trackers (fun tracker =>
    enqueue_forest_task (args_of (ForestTask.id tracker))).

(** *** The execution coordinator *)

(** The coordinator's local variable [tracker] is a Python object that the
    code mutates and saves; it is carried next to the world. *)
Record Frame := mkFrame { world : World; tracker : ForestTask.t }.

Definition lift {A} (m : M World A) : M Frame A :=
  fun fr => let (r, w') := m (world fr) in (r, mkFrame w' (tracker fr)).

(** [tracker.attr = value] *)
Definition assign (f : ForestTask.t -> ForestTask.t) : M Frame unit :=
  modify (fun fr => mkFrame (world fr) (f (tracker fr))).

(** A call that receives the current [tracker] object. *)
Definition with_tracker {A} (k : ForestTask.t -> M World A) : M Frame A :=
  fun fr => lift (k (tracker fr)) fr.

Definition of_res {S A} (r : res A) : M S A := fun s => (r, s).

Definition run_frame {A} (m : M Frame A) (t : ForestTask.t) : M World A :=
  fun w => let (r, fr) := m (mkFrame w t) in (r, world fr).

(** [open(file_name, "x")]: exclusive creation. *)
Definition open_x (file_name : string) : M World unit :=
  existing <- gets (fun w => files w !! file_name) ;;
  match existing with
  | Some _ => raise (Exn "FileExistsError" file_name)
  | None => modify (fun w => set_files (<[file_name := ""]> (files w)) w)
  end.

(** [f.write(text)] on the file just created. *)
Definition write (file_name text : string) : M World unit :=
  modify (fun w => set_files (<[file_name := text]> (files w)) w).

(** [create_local_data_files(tracker, chunks)]; [os.makedirs] has no effect
    here because only files are recorded. *)
Definition create_local_data_files (tracker : ForestTask.t)
    (chunks : list Chunk.t) : M World unit :=
  for_each chunks (fun chunk =>
    contents <- of_res (s3_retrieve E (Chunk.chunk_path chunk)
                          (Chunk.study_object_id chunk)) ;;
    let file_name :=
      path_join (data_input_path E tracker) (determine_file_name E chunk) in
    open_x file_name ;;;
    text <- of_res (decode_utf8 E contents) ;;
    write file_name text).

(** Modelled from the spec: [save_all_bv_set_bytes] and
    [save_all_memory_dict_bytes] are methods of the model, which is not among
    the sources; they persist one named blob for the task, out of line from
    its row. *)
Definition save_artifact_bytes (a : artifact) (tracker : ForestTask.t)
    (content : string) : M World unit :=
  call (at_upload a) ;;;
  modify (fun w => set_blobs (blobs w ++ [(ForestTask.id tracker, a, content)]) w).

(** [if os.path.exists(path): with open(path, "rb") as f: save(f.read())] *)
Definition save_if_exists (a : artifact) (path : string)
    (tracker : ForestTask.t) : M World unit :=
  found <- gets (fun w => files w !! path) ;;
  match found with
  | Some content => save_artifact_bytes a tracker content
  | None => ret tt
  end.

(** [save_cached_files(tracker)] *)
Definition save_cached_files (tracker : ForestTask.t) : M World unit :=
  save_if_exists all_bv_set (all_bv_set_path E tracker) tracker ;;;
  save_if_exists all_memory_dict (all_memory_dict_path E tracker) tracker.

(** Modelled from the spec: [clean_up_files] is a method of the model, which
    is not among the sources; it deletes the task's scratch files, that is
    every file under its base path. *)
Definition clean_up_files (tracker : ForestTask.t) : M World unit :=
  call at_clean_up_files ;;;
  modify (fun w => set_files
    (filter (fun kv => is_under (data_base_path E tracker) kv.1 = false)
       (files w)) w).

(** [TREE_TO_FOREST_FUNCTION[tracker.forest_tree]] *)
Definition forest_function_for (tree : string) : res forest_function :=
  match TREE_TO_FOREST_FUNCTION E !! tree with
  | Some f => Ok f
  | None => Raise (Exn "KeyError" ("'" +:+ tree +:+ "'"))
  end.

(** The call of the tree's entry point with the parameters as keywords. *)
Definition run_forest_function (f : forest_function) (ps : params) : M World unit :=
  fun w => let (r, fs) := forest_main E f ps (files w) in (r, set_files fs w).

(** The body of the [try] statement, statement by statement.  The two saves
    in it spell the keyword [update_field], where those before the [try]
    statement spell it [update_fields]. *)
Definition try_body (chunks : list Chunk.t) : M Frame unit :=
  with_tracker (fun tracker => create_local_data_files tracker chunks) ;;;
  t <- lift now ;;
  assign (ForestTask.set_process_download_end_time (Some t)) ;;;
  with_tracker (save_update_field [ForestTask.f_process_download_end_time]) ;;;
  params_dict <- with_tracker (fun tracker => of_res (params_dict E tracker)) ;;
  assign (ForestTask.set_params_dict_cache (json_dumps E params_dict)) ;;;
  with_tracker (save_update_field [ForestTask.f_params_dict_cache]) ;;;
  f <- with_tracker (fun tracker =>
         of_res (forest_function_for (ForestTask.forest_tree tracker))) ;;
  lift (run_forest_function f params_dict) ;;;
  lift (call at_construct_summary_statistics) ;;;
  with_tracker save_cached_files.

(** Everything [celery_run_forest] does after the transaction. *)
Definition after_transaction (participant : Z) : M Frame unit :=
  chunks <- lift (gets (fun w =>
    List.filter (fun c => Z.eqb (Chunk.participant c) participant)
      (chunk_registry w))) ;;
  lift (call at_sum_file_size) ;;;
  assign (ForestTask.set_total_file_size (sum_file_size chunks)) ;;;
  with_tracker (save at_save_total_file_size (Some [ForestTask.f_total_file_size])) ;;;
  try_except_else (try_body chunks)
    (fun e =>
       assign (ForestTask.set_status Status.error) ;;;
       assign (ForestTask.set_stacktrace (Some (format_exc e))))
    (assign (ForestTask.set_status Status.success)) ;;;
  t <- lift now ;;
  assign (ForestTask.set_process_end_time (Some t)) ;;;
  with_tracker (save at_final_save None) ;;;
  with_tracker clean_up_files.

(** The [with transaction.atomic()] block has two queries.  The queryset
    [trackers] is built with [select_for_update()] but never evaluated
    itself: what reaches the database is [.exists()] on its running rows and
    [.first()] on its queued rows, and each locks the rows it returns.

    The first part of the block, up to the [return] after the re-dispatch:
    the candidate is loaded and its pair is looked up for a running task.
    It yields the candidate when there is none, and [None] when the function
    returned. *)
Definition check_running (forest_task_id : Z) : M World (option ForestTask.t) :=
  found <- gets (fun w => first
    (List.filter (fun r => Z.eqb (ForestTask.id r) forest_task_id) (tasks w))) ;;
  match found with
  | None =>
      raise (Exn "AttributeError"
               "'NoneType' object has no attribute 'participant'")
  | Some tracker =>
      let participant := ForestTask.participant tracker in
      let forest_tree := ForestTask.forest_tree tracker in
      let trackers := fun w =>
        List.filter (ForestTask.for_pair participant forest_tree) (tasks w) in
      busy <- gets (fun w =>
        existsb (ForestTask.has_status Status.running) (trackers w)) ;;
      if busy then
        enqueue_forest_task (args_of (ForestTask.id tracker)) ;;;
        ret None
      else
        ret (Some tracker)
  end.

(** The second part of the block: the queued task of the candidate's pair
    with the latest start date is selected and marked running.  It yields
    [None] when the function returned for want of a queued task, and the
    selected tracker with the candidate's participant otherwise. *)
Definition select_queued (candidate : ForestTask.t)
    : M World (option (ForestTask.t * Z)) :=
  let participant := ForestTask.participant candidate in
  let forest_tree := ForestTask.forest_tree candidate in
  let trackers := fun w =>
    List.filter (ForestTask.for_pair participant forest_tree) (tasks w) in
  next <- gets (fun w => first
    (order_by_desc ForestTask.data_date_start
       (List.filter (ForestTask.has_status Status.queued) (trackers w)))) ;;
  match next with
  | None => ret None
  | Some tracker =>
      call at_get_distribution ;;;
      t <- now ;;
      let tracker :=
        ForestTask.set_process_start_time (Some t)
          (ForestTask.set_forest_version (dist_version E)
             (ForestTask.set_status Status.running tracker)) in
      save at_save_running
        (Some [ForestTask.f_status; ForestTask.f_forest_version;
               ForestTask.f_process_start_time]) tracker ;;;
      ret (Some (tracker, participant))
  end.

(** The [with transaction.atomic()] block as one worker runs it. *)
Definition transaction (forest_task_id : Z) : M World (option (ForestTask.t * Z)) :=
  atomic (
    candidate <- check_running forest_task_id ;;
    match candidate with
    | None => ret None
    | Some candidate => select_queued candidate
    end).

(** [celery_run_forest(forest_task_id)] *)
Definition celery_run_forest (forest_task_id : Z) : M World unit :=
  picked <- transaction forest_task_id ;;
  match picked with
  | None => ret tt
  | Some (tracker, participant) =>
      run_frame (after_transaction participant) tracker
  end.

End Scheduler.

(* ===================================================================== *)
(** ** The reporting pages                                                *)
(* ===================================================================== *)

(** What a Flask view hands back. *)
Inductive response :=
| Abort (code : Z)
| Render (template : string)
| Redirect (flash_message flash_category : string).

Record request := mkRequest {
  method : string;
  session_username : string;       (* get_session_researcher().username *)
  session_site_admin : bool;       (* get_session_researcher().site_admin *)
  task_id : option string          (* request.values.get("task_id") *)
}.

(** A Study row with the participants that belong to it. *)
Record Study := mkStudy {
  study_created_on : Z;
  study_participants : list Z
}.

(** A cell of the progress chart: a status, or the default of the
    [defaultdict], the text of two dashes. *)
Inductive cell :=
| dashes
| shown (s : Status.t).

(** One row of the chart: [participant.id], [tree], then a cell per date. *)
Record chart_row := mkRow {
  row_participant : Z;
  row_tree : string;
  row_cells : list cell
}.

(** What the view hands to the template; [chart_columns] holds the dates
    that follow the two fixed headings. *)
Record progress_page := mkPage {
  chart_columns : list Z;
  chart : list chart_row;
  start_date : Z;
  end_date : Z
}.

Section Pages.

Context (E : Env).

(** The row filter of the cancel request. *)
Definition cancellable (forest_task_id : string) (r : ForestTask.t) : bool :=
  String.eqb (ForestTask.external_id r) forest_task_id
  && ForestTask.has_status Status.queued r.

(** [filter(...).update(status=..., stacktrace=...)]: the new table and the
    number of rows matched. *)
Definition update_cancelled (forest_task_id note : string)
    (rows : list ForestTask.t) : list ForestTask.t * nat :=
  (map (fun r => if cancellable forest_task_id r
                 then ForestTask.set_stacktrace (Some note)
                        (ForestTask.set_status Status.cancelled r)
                 else r) rows,
   length (List.filter (cancellable forest_task_id) rows)).

(** [task_log(study_id)] *)
Definition task_log (req : request) : M World response :=
  if String.eqb (method req) "GET" then ret (Render "forest/task_log.html")
  else if negb (session_site_admin req) then ret (Abort 403)
  else
    match task_id req with
    | None => ret (Abort 404)
    | Some forest_task_id =>
        t <- now E ;;
        let note := "Canceled by " +:+ session_username req +:+ " on "
                    +:+ isoformat E (date_of t) in
        number_updated <- (fun w =>
          let (rows, n) := update_cancelled forest_task_id note (tasks w) in
          (Ok n, set_tasks rows w)) ;;
        if (0 <? number_updated)%nat
        then ret (Redirect "Forest task successfully cancelled." "success")
        else ret (Redirect "Sorry, we were unable to find or cancel this Forest task."
                    "warning")
    end.

(** The loop that fills [results]: every tracker, oldest first, writes its
    status at each date of its range, over whatever was there. *)
Definition record_tracker (results : gmap (Z * string * Z) Status.t)
    (tracker : ForestTask.t) : gmap (Z * string * Z) Status.t :=
  fold_left (fun results date =>
      <[(ForestTask.participant tracker, ForestTask.forest_tree tracker, date)
        := ForestTask.status tracker]> results)
    (daterange (ForestTask.data_date_start tracker)
               (ForestTask.data_date_end tracker))
    results.

Definition build_results (trackers : list ForestTask.t)
    : gmap (Z * string * Z) Status.t :=
  fold_left record_tracker trackers ∅.

(** [results[key]] on the [defaultdict]. *)
Definition results_get (results : gmap (Z * string * Z) Status.t)
    (key : Z * string * Z) : cell :=
  match results !! key with
  | Some s => shown s
  | None => dashes
  end.

Definition is_member (x : Z) (l : list Z) : bool := existsb (Z.eqb x) l.

(** [analysis_progress(study_id)], up to the values handed to the template;
    the bookkeeping of [metadata] is left out. *)
Definition analysis_progress (study : Study) : M World progress_page :=
  let participants := study_participants study in
  trackers <- gets (fun w =>
    order_by ForestTask.created_on
      (List.filter (fun r => is_member (ForestTask.participant r) participants)
         (tasks w))) ;;
  chunks <- gets (fun w =>
    List.filter (fun c => is_member (Chunk.participant c) participants)
      (chunk_registry w)) ;;
  range <- match first (order_by Chunk.time_bin chunks),
                 first (order_by_desc Chunk.time_bin chunks) with
           | Some earliest, Some latest =>
               ret (date_of (Chunk.time_bin earliest), date_of (Chunk.time_bin latest))
           | _, _ =>
               t <- now E ;;
               ret (date_of (study_created_on study), date_of t)
           end ;;
  let results := build_results trackers in
  let dates := daterange range.1 range.2 in
  let chart :=
    flat_map (fun participant =>
      map (fun tree =>
             mkRow participant tree
               (map (fun date => results_get results (participant, tree, date)) dates))
          (ForestTree_values E))
      participants in
  ret (mkPage dates chart range.1 range.2).

End Pages.

(* ===================================================================== *)
(** ** Vocabulary of the statements                                       *)
(* ===================================================================== *)

(** The row the coordinator first loads for a dispatched id. *)
Definition candidate (forest_task_id : Z) (w : World) : option ForestTask.t :=
  first (List.filter (fun r => Z.eqb (ForestTask.id r) forest_task_id) (tasks w)).

(** The rows that share the (participant, tree) pair of [c]. *)
Definition siblings (c : ForestTask.t) (w : World) : list ForestTask.t :=
  List.filter
    (ForestTask.for_pair (ForestTask.participant c) (ForestTask.forest_tree c))
    (tasks w).

Definition busy (c : ForestTask.t) (w : World) : bool :=
  existsb (ForestTask.has_status Status.running) (siblings c w).

Definition queued_siblings (c : ForestTask.t) (w : World) : list ForestTask.t :=
  List.filter (ForestTask.has_status Status.queued) (siblings c w).

(** The rows of one (participant, tree) pair that are running. *)
Definition running_for (p : Z) (tr : string) (rows : list ForestTask.t)
    : list ForestTask.t :=
  List.filter
    (fun r => ForestTask.for_pair p tr r && ForestTask.has_status Status.running r)
    rows.

(** The mutual-exclusion invariant of the table. *)
Definition at_most_one_running (rows : list ForestTask.t) : Prop :=
  forall p tr, (length (running_for p tr rows) <= 1)%nat.

(** Primary keys are unique. *)
Definition unique_ids (rows : list ForestTask.t) : Prop :=
  List.NoDup (map ForestTask.id rows).

(** The row stored under a primary key. *)
Definition row_of (pk : Z) (w : World) : option ForestTask.t :=
  List.find (fun r => Z.eqb (ForestTask.id r) pk) (tasks w).

(** The content persisted for an artifact of a task, if any. *)
Definition persisted (pk : Z) (a : artifact) (w : World) : list string :=
  map snd (List.filter (fun b => Z.eqb b.1.1 pk && bool_decide (b.1.2 = a)) (blobs w)).

(** The options every dispatch carries: the task id as the only argument, an
    expiry computed from a reading of the clock, and no retry of any kind. *)
Definition dispatch_of (E : Env) (pk : Z) (n : nat) (msg : gmap string pyval) : Prop :=
  msg !! "args" = Some (PyList [pk]) /\
  msg !! "expires" = Some (PyDatetime (expires_at (clock E n))) /\
  msg !! "max_retries" = Some (PyInt 0) /\
  msg !! "retry" = Some (PyBool false) /\
  msg !! "task_publish_retry" = Some (PyBool false).

(** The dict [enqueue_forest_task] hands to [safe_apply_async]. *)
Definition dispatch_message (pk utcnow : Z) : gmap string pyval :=
  args_of pk ∪
    (<["expires" := PyDatetime (expires_at utcnow)]>
     (<["max_retries" := PyInt 0]>
      (<["retry" := PyBool false]>
       (<["task_publish_retry" := PyBool false]>
        (<["task_track_started" := PyBool true]> ∅))))).

(** The object the coordinator holds after marking the selected row. *)
Definition mark_running (E : Env) (n : nat) (t : ForestTask.t) : ForestTask.t :=
  ForestTask.set_process_start_time (Some (clock E n))
    (ForestTask.set_forest_version (dist_version E)
       (ForestTask.set_status Status.running t)).

(** A property of the state that a computation keeps, however it ends. *)
Definition preserves {S A} (I : S -> Prop) (m : M S A) : Prop :=
  forall s, I s -> I (m s).2.

(** A computation that leaves one observation [f] of the state as it was. *)
Definition keeps {S A B} (f : S -> B) (m : M S A) : Prop :=
  forall s, f (m s).2 = f s.

(** Observations of the world that do not look at one of its components. *)
Definition files_blind {B} (f : World -> B) : Prop :=
  forall v w, f (set_files v w) = f w.
Definition blobs_blind {B} (f : World -> B) : Prop :=
  forall v w, f (set_blobs v w) = f w.
Definition ticks_blind {B} (f : World -> B) : Prop :=
  forall v w, f (set_ticks v w) = f w.
Definition broker_blind {B} (f : World -> B) : Prop :=
  forall v w, f (set_broker v w) = f w.
Definition tasks_blind {B} (f : World -> B) : Prop :=
  forall v w, f (set_tasks v w) = f w.

(** What links the table to the object [t] a coordinator holds after its
    transaction: the table is well formed, the row of [t] is there, it has
    the pair of [t], and it is running as long as [t] is. *)
Definition in_flight (rows : list ForestTask.t) (t : ForestTask.t) : Prop :=
  unique_ids rows /\
  at_most_one_running rows /\
  row_exists (ForestTask.id t) rows = true /\
  forall r, In r rows -> ForestTask.id r = ForestTask.id t ->
    ForestTask.participant r = ForestTask.participant t /\
    ForestTask.forest_tree r = ForestTask.forest_tree t /\
    (ForestTask.status t = Status.running -> ForestTask.status r = Status.running).

Definition frame_ok (fr : Frame) : Prop :=
  in_flight (tasks (world fr)) (tracker fr).

(** The chunks of one participant. *)
Definition chunks_of (p : Z) (w : World) : list Chunk.t :=
  List.filter (fun c => Z.eqb (Chunk.participant c) p) (chunk_registry w).

(** The artifacts [save_cached_files] finds among the files [fs]. *)
Definition cached_in (E : Env) (fs : gmap string string) (t : ForestTask.t)
    : list (Z * artifact * string) :=
  match fs !! all_bv_set_path E t with
  | Some c => [(ForestTask.id t, all_bv_set, c)]
  | None => []
  end ++
  match fs !! all_memory_dict_path E t with
  | Some c => [(ForestTask.id t, all_memory_dict, c)]
  | None => []
  end.

(** What the [except] and [else] clauses leave in the object. *)
Definition settle (r : res unit) (t : ForestTask.t) : ForestTask.t :=
  match r with
  | Ok _ => ForestTask.set_status Status.success t
  | Raise e =>
      ForestTask.set_stacktrace (Some (format_exc e))
        (ForestTask.set_status Status.error t)
  end.

(** The coordinator's frame once the file size has been computed and saved. *)
Definition sized (p : Z) (w : World) (t : ForestTask.t) : Frame :=
  let t1 := ForestTask.set_total_file_size (sum_file_size (chunks_of p w)) t in
  mkFrame
    (set_tasks
       (update_row (ForestTask.id t)
          (fun r => fold_left (ForestTask.copy_field t1)
                      [ForestTask.f_total_file_size] r) (tasks w)) w)
    t1.

(** The final write of the whole object. *)
Definition write_object (t : ForestTask.t) (rows : list ForestTask.t)
    : list ForestTask.t :=
  if row_exists (ForestTask.id t) rows
  then update_row (ForestTask.id t) (fun _ => t) rows
  else rows ++ [t].

(** The files left after the scratch directory of [t] was deleted. *)
Definition without_workspace (E : Env) (t : ForestTask.t)
    (fs : gmap string string) : gmap string string :=
  filter (fun kv => is_under (data_base_path E t) kv.1 = false) fs.

(** The exception that passes the [except Exception] clause, if the body
    ended with one. *)
Definition escapes (r : res unit) : option exn :=
  match r with
  | Ok _ => None
  | Raise e => if is_Exception e then None else Some e
  end.

(** The [except] and [else] clauses and everything after the [try]
    statement, given how its body ended. *)
Definition conclude (E : Env) (body : res unit * Frame) : res unit * Frame :=
  match escapes body.1 with
  | Some e => (Raise e, body.2)
  | None =>
      let fr := body.2 in
      let t5 :=
        ForestTask.set_process_end_time (Some (clock E (ticks (world fr))))
          (settle body.1 (tracker fr)) in
      let w4 := set_ticks (S (ticks (world fr))) (world fr) in
      match fault E at_final_save with
      | Some e => (Raise e, mkFrame w4 t5)
      | None =>
          let w5 := set_tasks (write_object t5 (tasks w4)) w4 in
          match fault E at_clean_up_files with
          | Some e => (Raise e, mkFrame w5 t5)
          | None =>
              (Ok tt, mkFrame (set_files (without_workspace E t5 (files w5)) w5) t5)
          end
      end
  end.

(** [t'] is [t] up to the two attributes the [try] body assigns. *)
Definition touched (t t' : ForestTask.t) : Prop :=
  t' = ForestTask.set_params_dict_cache (ForestTask.params_dict_cache t')
         (ForestTask.set_process_download_end_time
            (ForestTask.process_download_end_time t') t).

(** The row the transaction picks for a dispatched id, when it picks one. *)
Definition selected (forest_task_id : Z) (w : World) : option ForestTask.t :=
  match candidate forest_task_id w with
  | None => None
  | Some c =>
      if busy c w then None
      else first (order_by_desc ForestTask.data_date_start (queued_siblings c w))
  end.

(** The world when the transaction that marked [t] has committed. *)
Definition started (E : Env) (w : World) (t : ForestTask.t) : World :=
  set_tasks
    (update_row (ForestTask.id t)
       (fun r => fold_left (ForestTask.copy_field (mark_running E (ticks w) t))
                   [ForestTask.f_status; ForestTask.f_forest_version;
                    ForestTask.f_process_start_time] r)
       (tasks w))
    (set_ticks (S (ticks w)) w).

(** The coordinator's frame on entry to the [try] statement. *)
Definition entry (E : Env) (w : World) (t : ForestTask.t) : Frame :=
  sized (ForestTask.participant t) (started E w t) (mark_running E (ticks w) t).

(** No collaborator fails before the [try] statement. *)
Definition reaches_try (E : Env) : Prop :=
  fault E at_get_distribution = None /\
  fault E at_save_running = None /\
  fault E at_sum_file_size = None /\
  fault E at_save_total_file_size = None.

(** No collaborator fails after the [try] statement. *)
Definition settles (E : Env) : Prop :=
  fault E at_final_save = None /\
  fault E at_clean_up_files = None.

(** What the object store and the decoder raise derives from [Exception]. *)
Definition catchable (E : Env) : Prop :=
  (forall path study e, s3_retrieve E path study = Raise e -> is_Exception e = true) /\
  (forall contents e, decode_utf8 E contents = Raise e -> is_Exception e = true).

(** The object the coordinator saves last, given how the body ended. *)
Definition final_object (E : Env) (body : res unit * Frame) : ForestTask.t :=
  ForestTask.set_process_end_time (Some (clock E (ticks (world body.2))))
    (settle body.1 (tracker body.2)).

(** The messages of one admission scan over [rows], the first of them
    stamped with the [n]-th reading of the clock. *)
Fixpoint scan_messages (E : Env) (n : nat) (rows : list ForestTask.t)
    : list (gmap string pyval) :=
  match rows with
  | [] => []
  | r :: rows' =>
      dispatch_message (ForestTask.id r) (clock E n) :: scan_messages E (S n) rows'
  end.

(** The task [t] is about participant [p] and tree [tr], and its inclusive
    date range contains [d]. *)
Definition covers (p : Z) (tr : string) (d : Z) (t : ForestTask.t) : bool :=
  Z.eqb (ForestTask.participant t) p && String.eqb (ForestTask.forest_tree t) tr
  && Z.leb (ForestTask.data_date_start t) d && Z.leb d (ForestTask.data_date_end t).

(** The last task of a list that covers a cell. *)
Definition last_covering (p : Z) (tr : string) (d : Z) (ts : list ForestTask.t)
    : option ForestTask.t :=
  fold_left (fun acc t => if covers p tr d t then Some t else acc) ts None.

(** What a cell of the grid must show, given the rows of the table: the
    dashes when no row covers the cell, else the status of a covering row
    that no covering row is more recent than. *)
Definition grid_cell_ok (rows : list ForestTask.t) (p : Z) (tr : string) (d : Z)
    (c : cell) : Prop :=
  ((forall t, In t rows -> covers p tr d t = false) /\ c = dashes) \/
  (exists t, In t rows /\ covers p tr d t = true /\
     (forall u, In u rows -> covers p tr d u = true ->
        ForestTask.created_on u <= ForestTask.created_on t) /\
     c = shown (ForestTask.status t)).

(** *** Coordinators side by side *)

(** Several workers may run [celery_run_forest] at once.  No lock covers
    the look-up for a running task: when it finds none it returns no row, so
    it locks none, and other workers may take steps before the worker goes
    on.  The selection locks the row it returns until the block is left, so
    selecting and marking are one step.  The rest of the run comes later,
    while other workers, the admission scan and the pages take their own
    steps.  A system is the world together with the workers inside the
    block that have found no running task and not selected yet, each with
    its candidate, and the coordinators that have left the block and not
    ended yet: the object each holds, and the participant of its
    candidate. *)
Record System := mkSystem {
  sys_world : World;
  sys_checked : list ForestTask.t;
  sys_runs : list (ForestTask.t * Z)
}.

Inductive step : System -> System -> Prop :=
| step_scan E sys :
    step sys
      (mkSystem (create_forest_celery_tasks E (sys_world sys)).2
         (sys_checked sys) (sys_runs sys))
| step_task_log E req sys :
    step sys
      (mkSystem (task_log E req (sys_world sys)).2 (sys_checked sys) (sys_runs sys))
| step_analysis_progress E study sys :
    step sys
      (mkSystem (analysis_progress E study (sys_world sys)).2
         (sys_checked sys) (sys_runs sys))
| step_create r sys :
    (* [create_tasks]: a new queued row under an unused primary key *)
    ForestTask.status r = Status.queued ->
    ~ In (ForestTask.id r) (map ForestTask.id (tasks (sys_world sys))) ->
    step sys
      (mkSystem (set_tasks (tasks (sys_world sys) ++ [r]) (sys_world sys))
         (sys_checked sys) (sys_runs sys))
| step_check_running E forest_task_id sys :
    step sys
      (mkSystem (check_running E forest_task_id (sys_world sys)).2
         (match (check_running E forest_task_id (sys_world sys)).1 with
          | Ok (Some candidate) => candidate :: sys_checked sys
          | _ => sys_checked sys
          end)
         (sys_runs sys))
| step_select_queued E candidate before after sys :
    sys_checked sys = (before ++ candidate :: after)%list ->
    step sys
      (mkSystem (select_queued E candidate (sys_world sys)).2
         (before ++ after)
         (match (select_queued E candidate (sys_world sys)).1 with
          | Ok (Some run) => run :: sys_runs sys
          | _ => sys_runs sys
          end))
| step_after_transaction E t p before after sys :
    sys_runs sys = (before ++ (t, p) :: after)%list ->
    step sys
      (mkSystem (world (after_transaction E p (mkFrame (sys_world sys) t)).2)
         (sys_checked sys) (before ++ after)).

(** The row of a coordinator between its transaction and its end. *)
Definition holds_row (rows : list ForestTask.t) (t : ForestTask.t) : Prop :=
  ForestTask.status t = Status.running /\
  row_exists (ForestTask.id t) rows = true /\
  forall r, In r rows -> ForestTask.id r = ForestTask.id t ->
    ForestTask.participant r = ForestTask.participant t /\
    ForestTask.forest_tree r = ForestTask.forest_tree t /\
    ForestTask.status r = Status.running.

Definition system_ok (sys : System) : Prop :=
  unique_ids (tasks (sys_world sys)) /\
  at_most_one_running (tasks (sys_world sys)) /\
  List.NoDup (map (fun run => ForestTask.id run.1) (sys_runs sys)) /\
  forall run, In run (sys_runs sys) -> holds_row (tasks (sys_world sys)) run.1.

(** What every step keeps of a well-formed system: the keys stay unique,
    and every coordinator in flight holds a row of its own. *)
Definition system_wf (sys : System) : Prop :=
  unique_ids (tasks (sys_world sys)) /\
  List.NoDup (map (fun run => ForestTask.id run.1) (sys_runs sys)) /\
  forall run, In run (sys_runs sys) -> holds_row (tasks (sys_world sys)) run.1.

(** An assignment that leaves key and pair alone and does not make the
    object a running one. *)
Definition benign (f : ForestTask.t -> ForestTask.t) : Prop :=
  forall t,
    ForestTask.id (f t) = ForestTask.id t /\
    ForestTask.participant (f t) = ForestTask.participant t /\
    ForestTask.forest_tree (f t) = ForestTask.forest_tree t /\
    (ForestTask.status (f t) = Status.running -> ForestTask.status t = Status.running).

(** The rows under other keys than [pk] are those of [rows0], and the
    coordinator's object has key [pk]. *)
Definition elsewhere (pk : Z) (rows0 : list ForestTask.t) (fr : Frame) : Prop :=
  ForestTask.id (tracker fr) = pk /\
  forall r, ForestTask.id r <> pk -> (In r (tasks (world fr)) <-> In r rows0).

(* ===================================================================== *)
(** ** Further vocabulary                                                 *)
(* ===================================================================== *)


(** The local file of a chunk. *)
Definition local_file (E : Env) (t : ForestTask.t) (chunk : Chunk.t) : string :=
  path_join (data_input_path E t) (determine_file_name E chunk).

(** The columns that say which task a row is: its keys, its pair, its date
    range and its creation time. *)
Definition same_task (a b : ForestTask.t) : Prop :=
  ForestTask.id a = ForestTask.id b /\
  ForestTask.external_id a = ForestTask.external_id b /\
  ForestTask.participant a = ForestTask.participant b /\
  ForestTask.forest_tree a = ForestTask.forest_tree b /\
  ForestTask.data_date_start a = ForestTask.data_date_start b /\
  ForestTask.data_date_end a = ForestTask.data_date_end b /\
  ForestTask.created_on a = ForestTask.created_on b.

(** The statuses of a task that a coordinator has taken. *)
Definition taken (s : Status.t) : Prop :=
  s = Status.running \/ s = Status.success \/ s = Status.error.

(** The order of the life cycle: a queued task may become anything, a
    running one may end in success or in error, and a task that has ended
    or was cancelled stays as it is. *)
Definition moves_forward (a b : Status.t) : Prop :=
  a = b \/ a = Status.queued \/ (a = Status.running /\ taken b).

(** An assignment that keeps the identifying columns and leaves the status
    or settles it. *)
Definition settling (f : ForestTask.t -> ForestTask.t) : Prop :=
  forall t,
    same_task t (f t) /\
    (ForestTask.status (f t) = ForestTask.status t \/
     ForestTask.status (f t) = Status.success \/
     ForestTask.status (f t) = Status.error).

(** The table of a coordinator's frame against the table [rows0] it started
    from: row by row the keys agree, the rows under other keys than [pk] are
    the same, and the rows under [pk], like the object held, satisfy [Q]. *)
Definition rewritten (Q : ForestTask.t -> Prop) (pk : Z)
    (rows0 : list ForestTask.t) (fr : Frame) : Prop :=
  ForestTask.id (tracker fr) = pk /\
  Q (tracker fr) /\
  Forall2 (fun r r' =>
             ForestTask.id r' = ForestTask.id r /\
             if Z.eqb (ForestTask.id r) pk then Q r' else r' = r)
    rows0 (tasks (world fr)).

(** The queued rows of one (participant, tree) pair. *)
Definition queued_for_pair (p : Z) (tr : string) (rows : list ForestTask.t)
    : list ForestTask.t :=
  List.filter
    (fun r => ForestTask.for_pair p tr r && ForestTask.has_status Status.queued r)
    rows.

(** The table after a run that took [t], against the table before: the
    row [t] is replaced by a row of the same task that is successful or in
    error, and the others are as they were. *)
Definition settled_from (t : ForestTask.t) (r r' : ForestTask.t) : Prop :=
  (r <> t /\ r' = r) \/
  (r = t /\ same_task t r' /\
   (ForestTask.status r' = Status.success \/ ForestTask.status r' = Status.error)).

(** The local files of the chunks lie in the scratch directory of the task,
    whatever the columns of the task that a run writes. *)
Definition input_in_workspace (E : Env) (t : ForestTask.t)
    (chunks : list Chunk.t) : Prop :=
  forall t1 t2 chunk,
    same_task t t1 -> same_task t t2 -> In chunk chunks ->
    is_under (data_base_path E t2) (local_file E t1 chunk) = true.

(** The chunks of the participants of a study. *)
Definition study_chunks (study : Study) (w : World) : list Chunk.t :=
  List.filter (fun c => is_member (Chunk.participant c) (study_participants study))
    (chunk_registry w).

(** The dates the progress page spans: from the earliest to the latest chunk
    of the study's participants, or, when they have none, from the creation
    of the study to the reading of the clock. *)
Definition spans_the_data (E : Env) (study : Study) (w : World)
    (first_date last_date : Z) : Prop :=
  (study_chunks study w = [] /\
   first_date = date_of (study_created_on study) /\
   last_date = date_of (clock E (ticks w))) \/
  (exists earliest latest,
     In earliest (study_chunks study w) /\ In latest (study_chunks study w) /\
     (forall c, In c (study_chunks study w) ->
        Chunk.time_bin earliest <= Chunk.time_bin c <= Chunk.time_bin latest) /\
     first_date = date_of (Chunk.time_bin earliest) /\
     last_date = date_of (Chunk.time_bin latest)).

(* ===================================================================== *)
(** ** The page that queues tasks                                         *)
(* ===================================================================== *)

(** The request to [create_tasks]: the method, the researcher of the session
    and the fields of the form. *)
Record create_request := mkCreate {
  create_method : string;
  create_site_admin : bool;          (* get_session_researcher().site_admin *)
  date_start : option string;        (* request.form.get("date_start") *)
  date_end : option string;          (* request.form.get("date_end") *)
  user_ids : list string;            (* request.form.getlist("user_ids") *)
  trees : list string                (* request.form.getlist("trees") *)
}.

(** [Participant.objects.get(patient_id=...)] over the Participant table,
    given as pairs of primary key and patient id: the one row that matches,
    or one of Django's two exceptions. *)
Definition get_participant (table : list (Z * string)) (patient_id : string)
    : res Z :=
  match List.filter (fun p => String.eqb p.2 patient_id) table with
  | [p] => Ok p.1
  | [] => Raise (Exn "DoesNotExist" "Participant matching query does not exist.")
  | _ => Raise (Exn "MultipleObjectsReturned"
                  "get() returned more than one Participant")
  end.

(** A primary key above every key of the table, as a sequence gives. *)
Definition next_id (rows : list ForestTask.t) : Z :=
  1 + fold_right Z.max 0 (map ForestTask.id rows).

Section Creation.

Context (E : Env).

(** [datetime.datetime.strptime(s, "%Y-%m-%d").date()] *)
Variable strptime_date : string -> res Z.

(** The default of the external id, drawn for the row with a given key. *)
Variable new_external_id : Z -> string.

(** The Participant table: primary key and patient id. *)
Variable participant_table : list (Z * string).

(** [strptime] of a form field that may be missing. *)
Definition parse_date (field : option string) : res Z :=
  match field with
  | Some s => strptime_date s
  | None => Raise (Exn "TypeError" "strptime() argument 1 must be str, not None")
  end.

(** Modelled from the spec: the model class is not among the sources;
    [ForestTracker(...).save()] on a new object inserts a row with the
    columns given, under a key of its own, with an external id of its own,
    the creation time read from the clock and nothing else filled in. *)
Definition insert_tracker (participant : Z) (tree : string) (start stop : Z)
    : M World unit :=
  t <- now E ;;
  modify (fun w =>
    let pk := next_id (tasks w) in
    set_tasks
      (tasks w ++ [ForestTask.Build pk (new_external_id pk) participant tree
                     start stop t Status.queued "" None None None None None ""])
      w).

(** [create_tasks(study_id)]; [study] is the row [Study.objects.get] finds,
    if any. *)
Definition create_tasks (study : option Study) (req : create_request)
    : M World response :=
  if negb (create_site_admin req) then ret (Abort 403)
  else
    match study with
    | None => ret (Abort 404)
    | Some study =>
        let participants := study_participants study in
        chunks <- gets (fun w =>
          List.filter (fun c => is_member (Chunk.participant c) participants)
            (chunk_registry w)) ;;
        range <- match first (order_by Chunk.time_bin chunks),
                       first (order_by_desc Chunk.time_bin chunks) with
                 | Some earliest, Some latest =>
                     ret (date_of (Chunk.time_bin earliest),
                          date_of (Chunk.time_bin latest))
                 | _, _ =>
                     t <- now E ;;
                     ret (date_of (study_created_on study), date_of t)
                 end ;;
        if String.eqb (create_method req) "GET"
        then ret (Render "forest/create_tasks.html")
        else
          start_date <- of_res (parse_date (date_start req)) ;;
          end_date <- of_res (parse_date (date_end req)) ;;
          for_each (user_ids req) (fun participant_id =>
            for_each (trees req) (fun tree =>
              participant <- of_res (get_participant participant_table
                                       participant_id) ;;
              insert_tracker participant tree start_date end_date)) ;;;
          ret (Redirect "Forest tasks successfully queued!" "success")
    end.

End Creation.

(** What [create_tasks] asks of a new row for a participant and a tree. *)
Definition queued_for (start stop : Z) (pt : Z * string) (r : ForestTask.t)
    : Prop :=
  ForestTask.participant r = pt.1 /\
  ForestTask.forest_tree r = pt.2 /\
  ForestTask.data_date_start r = start /\
  ForestTask.data_date_end r = stop /\
  ForestTask.status r = Status.queued.

(** The world after [new] rows were inserted one by one. *)
Definition with_new_rows (new : list ForestTask.t) (w : World) : World :=
  set_tasks (tasks w ++ new) (set_ticks (ticks w + length new) w).

(* ===================================================================== *)
(** ** The metadata of the progress page                                  *)
(* ===================================================================== *)

Section Metadata.

(** [tracker.metadata_id]: the column is not among those of [ForestTask.t];
    [None] is Python's [None]. *)
Variable metadata_id : ForestTask.t -> option Z.

(** What the loop stores for a tracker: its metadata when it succeeded,
    [None] otherwise. *)
Definition metadata_of (tracker : ForestTask.t) : option Z :=
  if Status.eqb (ForestTask.status tracker) Status.success
  then metadata_id tracker else None.

(** The loop that fills [metadata], next to [results]. *)
Definition record_metadata (metadata : gmap (Z * string * Z) (option Z))
    (tracker : ForestTask.t) : gmap (Z * string * Z) (option Z) :=
  fold_left (fun metadata date =>
      <[(ForestTask.participant tracker, ForestTask.forest_tree tracker, date)
        := metadata_of tracker]> metadata)
    (daterange (ForestTask.data_date_start tracker)
               (ForestTask.data_date_end tracker))
    metadata.

Definition build_metadata (trackers : list ForestTask.t)
    : gmap (Z * string * Z) (option Z) :=
  fold_left record_metadata trackers ∅.

(** [set([m for k, m in metadata.items() if m is not None and k[1] == tree])] *)
Definition metadata_values (metadata : gmap (Z * string * Z) (option Z))
    (tree : string) : list Z :=
  remove_dups
    (omap (fun km : Z * string * Z * option Z =>
             if String.eqb km.1.1.2 tree then km.2 else None)
       (map_to_list metadata)).

(** The loop that sets [metadata_conflict]: some tree among the keys has
    more than one value. *)
Definition metadata_conflict (metadata : gmap (Z * string * Z) (option Z))
    : bool :=
  existsb (fun tree => (1 <? length (metadata_values metadata tree))%nat)
    (remove_dups (map (fun km : Z * string * Z * option Z => km.1.1.2)
                    (map_to_list metadata))).

End Metadata.

(** The trackers of the progress page, in the order of its loop. *)
Definition progress_trackers (study : Study) (w : World) : list ForestTask.t :=
  order_by ForestTask.created_on
    (List.filter
       (fun r => is_member (ForestTask.participant r) (study_participants study))
       (tasks w)).

(** The [metadata_conflict] that [analysis_progress] hands to the template. *)
Definition analysis_progress_metadata_conflict
    (metadata_id : ForestTask.t -> option Z) (study : Study) (w : World) : bool :=
  metadata_conflict (build_metadata metadata_id (progress_trackers study w)).

(* ===================================================================== *)
(** ** The set-up script of the job queue                                 *)
(* ===================================================================== *)

(** The parts of [run] in [pipeline/job_queue_script.py] that decide
    something: the choice of the subnets, the wait for the compute
    environment and the loop that registers the job definition.  The answers
    of AWS are given from outside. *)
Module JobQueue.

(** [exit(1)] *)
Definition SystemExit_1 : exn := Exn "SystemExit" "1".

(** The block under [if "subnets" not in compute_environment_dict]: the
    value of the key afterwards.  [configured] is the value the file gave,
    if any; a subnet is a pair of its [SubnetId] and its [VpcId]. *)
Definition choose_subnets (configured : option (list string))
    (subnets : list (string * string)) : res (list string) :=
  match configured with
  | Some value => Ok value
  | None =>
      if negb (length (remove_dups (map snd subnets)) =? 1)%nat
      then Raise SystemExit_1
      else
        match subnets with
        | s :: _ => Ok [s.1]
        | [] => Raise (Exn "IndexError" "list index out of range")
        end
  end.

(** What the script prints in the loop over the job definition names. *)
Inductive line :=
| warning_exists (old_name job_definition_name : string)
| created (job_definition_name : string)
| not_created (job_definition_name : string).

(** The variables of the loop, the names passed to
    [register_job_definition] so far and the lines printed. *)
Record names := mkNames {
  job_definition_name : string;
  registered : list string;
  printed : list line
}.

Section Script.

(** [describe_compute_environments]: the status in the answer to the n-th
    call, [None] when the answer lists no environment. *)
Variable describe_status : nat -> option string.

(** [register_job_definition]: whether the n-th call, made with this name,
    returns (or raises). *)
Variable register_job_definition : nat -> string -> bool.

(** The [while True] loop after [polls] answers; it sleeps a second after
    every answer that makes it go round again.  [None] means that the loop
    is still going when [fuel] rounds are over; [Ok n] that it was left by
    [break] after [n] sleeps. *)
Fixpoint wait_for_compute_environment (fuel polls : nat) : option (res nat) :=
  match fuel with
  | O => None
  | S fuel' =>
      match describe_status polls with
      | None => Some (Raise (Exn "IndexError" "list index out of range"))
      | Some status =>
          if String.eqb status "VALID" then Some (Ok polls)
          else if String.eqb status "CREATING" || String.eqb status "UPDATING"
          then wait_for_compute_environment fuel' (S polls)
          else Some (Raise (Exn "RuntimeError" "Compute Environment is Invalid"))
      end
  end.

(** One round of [for i in range(100)], then the rounds left; the flag says
    whether the loop was left by [break]. *)
Fixpoint job_definition_loop (base_name : string) (rounds : list nat)
    (st : names) : names * bool :=
  match rounds with
  | [] => (st, false)
  | i :: rounds' =>
      let st :=
        if negb (i =? 1)%nat then
          let old_name := job_definition_name st in
          let job_definition_name := base_name +:+ "_" +:+ pretty i in
          mkNames job_definition_name (registered st)
            (printed st ++ [warning_exists old_name job_definition_name])
        else st in
      let name := job_definition_name st in
      if register_job_definition (length (registered st)) name
      then (mkNames name (registered st ++ [name]) (printed st ++ [created name]),
            true)
      else job_definition_loop base_name rounds'
             (mkNames name (registered st ++ [name])
                (printed st ++ [not_created name]))
  end.

(** The loop from [base_name = aws_object_names['job_defn_name']] on. *)
Definition register_job_definitions (base_name : string) : names * bool :=
  job_definition_loop base_name (seq 0 100) (mkNames base_name [] []).

End Script.

(** An answer that makes the wait go round again. *)
Definition pending (answer : option string) : Prop :=
  answer = Some "CREATING" \/ answer = Some "UPDATING".

(** What the wait does with an answer that ends it. *)
Definition verdict (answer : option string) (sleeps : nat) : res nat :=
  match answer with
  | None => Raise (Exn "IndexError" "list index out of range")
  | Some status =>
      if String.eqb status "VALID" then Ok sleeps
      else Raise (Exn "RuntimeError" "Compute Environment is Invalid")
  end.

(** The name the [i]-th round registers. *)
Definition attempt (base_name : string) (i : nat) : string :=
  base_name +:+ "_" +:+ pretty (if (i =? 1)%nat then 0%nat else i).

End JobQueue.

(* ===================================================================== *)
(** ** A concrete installation                                            *)
(* ===================================================================== *)

Global Instance site_eq_dec : EqDecision site.
Proof. solve_decision. Defined.

Module Demo.

Definition quiet : site -> option exn := fun _ => None.

(** Exactly one call site fails. *)
Definition failing (s0 : site) (e : exn) : site -> option exn :=
  fun s => if decide (s = s0) then Some e else None.

Definition base (t : ForestTask.t) : string := "/tmp/" +:+ ForestTask.external_id t.

Definition s3_ok (path study : string) : res string := Ok ("data of " +:+ path).


(** The worker is interrupted while it waits for the object at [key]. *)
Definition s3_interrupted_at (key : string) (path study : string) : res string :=
  if String.eqb path key then Raise (Exn "KeyboardInterrupt" "")
  else Ok ("data of " +:+ path).

(** An analysis that writes both by-products of the task with external id b. *)
Definition main_both (f : forest_function) (ps : params)
    (fs : gmap string string) : res unit * gmap string string :=
  (Ok tt, <["/tmp/b/output/all_BV_set.pkl" := "bv"]>
            (<["/tmp/b/output/all_memory_dict.pkl" := "mem"]> fs)).

(** An analysis that writes nothing. *)
Definition main_none (f : forest_function) (ps : params)
    (fs : gmap string string) : res unit * gmap string string :=
  (Ok tt, fs).

(** The clock starts on 2021-02-05 08:00:00 UTC and advances a second per
    reading. *)
Definition env (flt : site -> option exn) (s3 : string -> string -> res string)
    (main : forest_function -> params -> gmap string string ->
            res unit * gmap string string) : Env :=
  mkEnv flt (fun n => 1612512000000000 + Z.of_nat n * 1000000)
    "jasmine" "willow" ["jasmine"; "willow"] "1.0"
    s3 (fun b => Ok b) Chunk.chunk_path base
    (fun t => path_join (base t) "data")
    (fun t => path_join (base t) "output/all_BV_set.pkl")
    (fun t => path_join (base t) "output/all_memory_dict.pkl")
    (fun _ => Ok [("study_folder", "data")]) (fun _ => "{}")
    main (fun _ => "2021-02-05").

(** A task of participant 7 on the jasmine tree, created on 2021-02-01. *)
Definition task (pk : Z) (ext : string) (start : Z) (st : Status.t) : ForestTask.t :=
  ForestTask.Build pk ext 7 "jasmine" start (start + 4) 1612137600000000 st
    "" None None None None None "".

(** 2021-01-01, 2021-01-10 and 2021-01-05 as days since the epoch. *)
Definition jan1 : Z := 18628.
Definition jan10 : Z := 18637.
Definition jan5 : Z := 18632.

Definition chunk : Chunk.t :=
  Chunk.Build 7 "study" "7/gps/1.csv" (Some 2048) 1609459200000000.

Definition chunk2 : Chunk.t :=
  Chunk.Build 7 "study" "7/gps/2.csv" (Some 1024) 1609462800000000.

Definition world_of (rows : list ForestTask.t) (chunks : list Chunk.t)
    (fs : gmap string string) : World :=
  mkWorld rows chunks fs [] [] 0.

(** Three queued tasks of one pair. *)
Definition three_queued : World :=
  world_of [task 1 "a" jan1 Status.queued; task 2 "b" jan10 Status.queued;
            task 3 "c" jan5 Status.queued] [chunk] ∅.

(** A running task and a queued one of the same pair. *)
Definition one_running : World :=
  world_of [task 1 "a" jan1 Status.running; task 2 "b" jan10 Status.queued]
    [chunk] ∅.

(** A cancelled task with a queued sibling. *)
Definition cancelled_and_queued : World :=
  world_of [task 1 "a" jan1 Status.cancelled; task 2 "b" jan10 Status.queued]
    [chunk] ∅.

(** A cancelled task and a finished one: nothing is left to run. *)
Definition nothing_queued : World :=
  world_of [task 1 "a" jan1 Status.cancelled; task 2 "b" jan10 Status.success]
    [chunk] ∅.


(** One queued task of a participant with two chunks. *)
Definition two_chunks : World :=
  world_of [task 2 "b" jan10 Status.queued] [chunk; chunk2] ∅.

(** One queued task whose scratch directory holds a file of an earlier
    attempt. *)
Definition leftover : World :=
  world_of [task 2 "b" jan10 Status.queued] [chunk]
    {["/tmp/b/data/7/gps/1.csv" := "old"]}.

(** Participant 7 has one successful jasmine task over 2021-01-01 to
    2021-01-05 and chunks from 2020-12-31 to 2021-01-07; participant 8 has
    no task. *)
Definition one_success : World :=
  world_of [task 1 "a" jan1 Status.success]
    [Chunk.Build 7 "study" "7/gps/0.csv" (Some 1) 1609372800000000;
     Chunk.Build 8 "study" "8/gps/1.csv" (Some 1) 1609977600000000] ∅.

End Demo.

Module DemoForm.

(** Two dates that parse, as days since the epoch. *)
Definition strptime_date (s : string) : res Z :=
  if String.eqb s "2021-01-01" then Ok 18628
  else if String.eqb s "2021-01-10" then Ok 18637
  else Raise (Exn "ValueError" "time data does not match format '%Y-%m-%d'").

Definition new_external_id (pk : Z) : string :=
  if Z.eqb pk 1 then "e1" else if Z.eqb pk 2 then "e2" else "e".

Definition participant_table : list (Z * string) := [(7, "p7"); (8, "p8")].

(** A site admin queues both trees for patients p7 and p8. *)
Definition both : create_request :=
  mkCreate "POST" true (Some "2021-01-01") (Some "2021-01-10")
    ["p7"; "p8"] ["jasmine"; "willow"].

(** The same for p7 and a patient id that does not exist. *)
Definition unknown_second : create_request :=
  mkCreate "POST" true (Some "2021-01-01") (Some "2021-01-10")
    ["p7"; "nobody"] ["jasmine"; "willow"].

Definition empty : World := Demo.world_of [] [] ∅.

End DemoForm.

Module DemoBinary.

(** An installation whose chunks do not decode. *)
Definition env : Env :=
  mkEnv Demo.quiet (fun _ => 0) "jasmine" "willow" ["jasmine"; "willow"] "1.0"
    Demo.s3_ok (fun _ => Raise (Exn "UnicodeDecodeError" "invalid start byte"))
    Chunk.chunk_path Demo.base (fun t => path_join (Demo.base t) "data")
    (fun _ => "") (fun _ => "") (fun _ => Ok []) (fun _ => "")
    Demo.main_none (fun _ => "").

End DemoBinary.

(* ===================================================================== *)
(** ** Facts about the building blocks                                    *)
(* ===================================================================== *)

Lemma Status_eqb_eq a b : Status.eqb a b = true <-> a = b.
Proof. destruct a, b; simpl; split; intro H; congruence. Qed.

Lemma Status_eqb_refl a : Status.eqb a a = true.
Proof. now destruct a. Qed.

Lemma Status_eqb_neq a b : Status.eqb a b = false <-> a <> b.
Proof. destruct a, b; simpl; split; intro H; congruence. Qed.

(** *** The expiry window *)

Lemma expires_at_window utcnow :
  270 * 1000000 < expires_at utcnow - utcnow <= 330 * 1000000.
Proof.
  unfold expires_at.
  pose proof (Z.mod_pos_bound (utcnow + 5 * 60 * 1000000) (60 * 1000000)).
  lia.
Qed.

Lemma dispatch_message_ok E pk n :
  dispatch_of E pk n (dispatch_message pk (clock E n)).
Proof.
  unfold dispatch_of, dispatch_message, args_of.
  split; [apply lookup_union_Some_l, lookup_singleton_eq|].
  rewrite !lookup_union_r by (apply lookup_singleton_ne; discriminate).
  split; [apply lookup_insert_eq|].
  rewrite !(lookup_insert_ne _ "expires") by discriminate.
  split; [apply lookup_insert_eq|].
  rewrite !(lookup_insert_ne _ "max_retries") by discriminate.
  split; [apply lookup_insert_eq|].
  rewrite !(lookup_insert_ne _ "retry") by discriminate.
  apply lookup_insert_eq.
Qed.

Lemma enqueue_forest_task_run E pk w :
  enqueue_forest_task E (args_of pk) w =
  match fault E at_apply_async with
  | Some e => (Raise e, set_ticks (S (ticks w)) w)
  | None =>
      (Ok tt,
       set_broker (broker w ++ [dispatch_message pk (clock E (ticks w))])
         (set_ticks (S (ticks w)) w))
  end.
Proof.
  unfold enqueue_forest_task, safe_apply_async, call, bind, now, modify.
  destruct (fault E at_apply_async); reflexivity.
Qed.

(** *** Sorting *)

Lemma insert_by_In {A} (le : A -> A -> bool) x y l :
  In y (insert_by le x l) <-> y = x \/ In y l.
Proof.
  induction l as [|z l IH]; simpl.
  - intuition.
  - destruct (le x z); simpl; [intuition|]. rewrite IH. intuition.
Qed.

Lemma sort_by_In {A} (le : A -> A -> bool) y l :
  In y (sort_by le l) <-> In y l.
Proof.
  induction l as [|x l IH]; simpl; [tauto|].
  rewrite insert_by_In, IH. intuition.
Qed.

Lemma sort_by_length {A} (le : A -> A -> bool) l :
  length (sort_by le l) = length l.
Proof.
  induction l as [|x l IH]; simpl; [reflexivity|].
  rewrite <- IH. generalize (sort_by le l) as s.
  induction s as [|z s IHs]; simpl; [reflexivity|].
  destruct (le x z); simpl; congruence.
Qed.

(** The head of a descending sort carries a greatest key. *)
Lemma first_order_by_desc_max {A} (key : A -> Z) l t :
  first (order_by_desc key l) = Some t ->
  In t l /\ forall u, In u l -> key u <= key t.
Proof.
  unfold order_by_desc, first. revert t.
  induction l as [|x l IH]; simpl; intros t; [discriminate|].
  destruct (sort_by _ l) as [|y s] eqn:Hs; simpl.
  - intros [= <-]. split; [now left|].
    intros u [<-|Hu]; [lia|].
    apply (sort_by_In (fun a b => Z.leb (key b) (key a))) in Hu.
    rewrite Hs in Hu. destruct Hu.
  - destruct (IH y eq_refl) as [Hy Hmax].
    destruct (Z.leb (key y) (key x)) eqn:Hle; simpl; intros [= <-].
    + apply Z.leb_le in Hle. split; [now left|].
      intros u [<-|Hu]; [lia|]. specialize (Hmax u Hu). lia.
    + apply Z.leb_gt in Hle. split; [now right|].
      intros u [<-|Hu]; [lia|]. now apply Hmax.
Qed.

Lemma first_order_by_desc_None {A} (key : A -> Z) l :
  first (order_by_desc key l) = None <-> l = [].
Proof.
  split; [|intros ->; reflexivity].
  intros H. destruct l as [|x l]; [reflexivity|].
  assert (Hlen := sort_by_length (fun a b => Z.leb (key b) (key a)) (x :: l)).
  unfold order_by_desc, first in H.
  destruct (sort_by _ (x :: l)); [discriminate Hlen|discriminate H].
Qed.

(** An ascending sort is sorted. *)
Lemma order_by_sorted {A} (key : A -> Z) l :
  StronglySorted (fun a b => key a <= key b) (order_by key l).
Proof.
  unfold order_by.
  induction l as [|x l IH]; simpl; [constructor|].
  revert IH. generalize (sort_by (fun a b => Z.leb (key a) (key b)) l) as s.
  induction s as [|z s IHs]; simpl; intros Hs.
  - constructor; [constructor|constructor].
  - inversion Hs as [|? ? Hs' Hz]; subst.
    destruct (Z.leb (key x) (key z)) eqn:Hle.
    + apply Z.leb_le in Hle. constructor; [assumption|].
      constructor; [assumption|].
      rewrite List.Forall_forall in Hz |- *. intros u Hu.
      specialize (Hz u Hu). simpl in Hz. lia.
    + apply Z.leb_gt in Hle. constructor; [now apply IHs|].
      rewrite List.Forall_forall in Hz |- *. intros u Hu.
      apply insert_by_In in Hu as [->|Hu]; [lia|now apply Hz].
Qed.

Lemma first_order_by_min {A} (key : A -> Z) l t :
  first (order_by key l) = Some t ->
  In t l /\ forall u, In u l -> key t <= key u.
Proof.
  intros H. assert (Hs := order_by_sorted key l).
  assert (Hin : forall u, In u (order_by key l) <-> In u l)
    by (intros u; apply sort_by_In).
  destruct (order_by key l) as [|x s]; [discriminate|].
  injection H as ->. split; [apply Hin; now left|].
  intros u Hu. apply Hin in Hu as [<-|Hu]; [lia|].
  inversion Hs as [|? ? _ Hall]; subst.
  rewrite List.Forall_forall in Hall. now apply Hall.
Qed.

Lemma first_order_by_None {A} (key : A -> Z) l :
  first (order_by key l) = None <-> l = [].
Proof.
  split; [|intros ->; reflexivity].
  intros H. destruct l as [|x l]; [reflexivity|].
  assert (Hlen := sort_by_length (fun a b => Z.leb (key a) (key b)) (x :: l)).
  unfold order_by, first in H.
  destruct (sort_by _ (x :: l)); [discriminate Hlen|discriminate H].
Qed.

(** *** The transaction, case by case *)

Lemma set_tasks_same w : set_tasks (tasks w) w = w.
Proof. now destruct w. Qed.

Lemma check_running_run E forest_task_id w :
  check_running E forest_task_id w =
  match candidate forest_task_id w with
  | None =>
      (Raise (Exn "AttributeError"
                "'NoneType' object has no attribute 'participant'"), w)
  | Some c =>
      if busy c w then
        match fault E at_apply_async with
        | Some e => (Raise e, set_ticks (S (ticks w)) w)
        | None =>
            (Ok None,
             set_broker
               (broker w ++ [dispatch_message (ForestTask.id c) (clock E (ticks w))])
               (set_ticks (S (ticks w)) w))
        end
      else (Ok (Some c), w)
  end.
Proof.
  unfold check_running, bind, gets, candidate, busy, siblings.
  destruct w as [ts cr fs br bl tk]; simpl.
  destruct (first (List.filter _ ts)) as [c|]; [|reflexivity].
  destruct (existsb _ _); [|reflexivity].
  rewrite enqueue_forest_task_run. simpl.
  destruct (fault E at_apply_async); reflexivity.
Qed.

Lemma select_queued_run E c w :
  select_queued E c w =
  match first (order_by_desc ForestTask.data_date_start (queued_siblings c w)) with
  | None => (Ok None, w)
  | Some t =>
      match fault E at_get_distribution with
      | Some e => (Raise e, w)
      | None =>
          match fault E at_save_running with
          | Some e => (Raise e, set_ticks (S (ticks w)) w)
          | None =>
              if row_exists (ForestTask.id t) (tasks w) then
                (Ok (Some (mark_running E (ticks w) t, ForestTask.participant c)),
                 set_tasks
                   (update_row (ForestTask.id t)
                      (fun r => fold_left
                         (ForestTask.copy_field (mark_running E (ticks w) t))
                         [ForestTask.f_status; ForestTask.f_forest_version;
                          ForestTask.f_process_start_time] r)
                      (tasks w))
                   (set_ticks (S (ticks w)) w))
              else
                (Raise (Exn "DatabaseError"
                          "Save with update_fields did not affect any rows."),
                 set_ticks (S (ticks w)) w)
          end
      end
  end.
Proof.
  unfold select_queued, bind, gets, queued_siblings, siblings.
  destruct w as [ts cr fs br bl tk]; simpl.
  destruct (first (order_by_desc _ _)) as [t|]; [|reflexivity].
  unfold call, save, bind, gets, now, modify, raise, ret, call. simpl.
  destruct (fault E at_get_distribution); [reflexivity|]. simpl.
  destruct (fault E at_save_running); [reflexivity|]. simpl.
  destruct (row_exists _ ts); reflexivity.
Qed.

Lemma transaction_run E forest_task_id w :
  transaction E forest_task_id w =
  match candidate forest_task_id w with
  | None =>
      (Raise (Exn "AttributeError"
                "'NoneType' object has no attribute 'participant'"), w)
  | Some c =>
      if busy c w then
        match fault E at_apply_async with
        | Some e => (Raise e, set_ticks (S (ticks w)) w)
        | None =>
            (Ok None,
             set_broker
               (broker w ++ [dispatch_message (ForestTask.id c) (clock E (ticks w))])
               (set_ticks (S (ticks w)) w))
        end
      else
        match first (order_by_desc ForestTask.data_date_start (queued_siblings c w)) with
        | None => (Ok None, w)
        | Some t =>
            match fault E at_get_distribution with
            | Some e => (Raise e, w)
            | None =>
                match fault E at_save_running with
                | Some e => (Raise e, set_ticks (S (ticks w)) w)
                | None =>
                    if row_exists (ForestTask.id t) (tasks w) then
                      (Ok (Some (mark_running E (ticks w) t, ForestTask.participant c)),
                       set_tasks
                         (update_row (ForestTask.id t)
                            (fun r => fold_left
                               (ForestTask.copy_field (mark_running E (ticks w) t))
                               [ForestTask.f_status; ForestTask.f_forest_version;
                                ForestTask.f_process_start_time] r)
                            (tasks w))
                         (set_ticks (S (ticks w)) w))
                    else
                      (Raise (Exn "DatabaseError"
                                "Save with update_fields did not affect any rows."),
                       set_ticks (S (ticks w)) w)
                end
            end
        end
  end.
Proof.
  unfold transaction, atomic, bind. rewrite check_running_run.
  destruct (candidate forest_task_id w) as [c|]; [|now destruct w].
  destruct (busy c w).
  { destruct (fault E at_apply_async); now destruct w. }
  rewrite select_queued_run.
  destruct (first (order_by_desc _ _)) as [t|]; [|reflexivity].
  destruct (fault E at_get_distribution); [now destruct w|].
  destruct (fault E at_save_running); [now destruct w|].
  destruct (row_exists _ _); [reflexivity|now destruct w].
Qed.

(** *** Rows, filters and updates *)

Lemma filter_map_length_le {A} (g g' : A -> bool) (h : A -> A) l :
  (forall x, In x l -> g (h x) = true -> g' x = true) ->
  (length (List.filter g (map h l)) <= length (List.filter g' l))%nat.
Proof.
  induction l as [|x l IH]; simpl; intros H; [lia|].
  assert (IH' := IH (fun y Hy => H y (or_intror Hy))).
  destruct (g (h x)) eqn:Hg.
  - rewrite (H x (or_introl eq_refl) Hg). simpl. lia.
  - destruct (g' x); simpl; lia.
Qed.

Lemma unique_ids_count pk rows :
  unique_ids rows ->
  (length (List.filter (fun r => Z.eqb (ForestTask.id r) pk) rows) <= 1)%nat.
Proof.
  unfold unique_ids. induction rows as [|r rows IH]; simpl; intros Hnd; [lia|].
  inversion Hnd as [|? ? Hnotin Hnd']; subst.
  destruct (Z.eqb_spec (ForestTask.id r) pk) as [Heq|Hne]; [|now apply IH].
  simpl. enough (List.filter (fun r0 => Z.eqb (ForestTask.id r0) pk) rows = []) as ->
    by (simpl; lia).
  destruct (List.filter _ rows) as [|x xs] eqn:Hf; [reflexivity|].
  assert (Hx : In x (List.filter (fun r0 => Z.eqb (ForestTask.id r0) pk) rows))
    by (rewrite Hf; now left).
  apply filter_In in Hx as [Hx Hid]. apply Z.eqb_eq in Hid.
  exfalso. apply Hnotin. rewrite Heq, <- Hid. now apply in_map.
Qed.

Lemma unique_ids_eq rows r1 r2 :
  unique_ids rows -> In r1 rows -> In r2 rows ->
  ForestTask.id r1 = ForestTask.id r2 -> r1 = r2.
Proof.
  unfold unique_ids. induction rows as [|r rows IH]; simpl; [tauto|].
  intros Hnd H1 H2 Hid. inversion Hnd as [|? ? Hnotin Hnd']; subst.
  destruct H1 as [->|H1], H2 as [->|H2]; try reflexivity.
  - exfalso. apply Hnotin. rewrite Hid. now apply in_map.
  - exfalso. apply Hnotin. rewrite <- Hid. now apply in_map.
  - now apply IH.
Qed.

Lemma update_row_ids pk f rows :
  (forall r, ForestTask.id r = pk -> ForestTask.id (f r) = pk) ->
  map ForestTask.id (update_row pk f rows) = map ForestTask.id rows.
Proof.
  intros Hf. unfold update_row. rewrite map_map. apply map_ext. intros r.
  destruct (Z.eqb_spec (ForestTask.id r) pk) as [Heq|]; [|reflexivity].
  rewrite Hf; congruence.
Qed.

Lemma update_row_In pk f rows r' :
  In r' (update_row pk f rows) <->
  exists r, In r rows /\
            r' = if Z.eqb (ForestTask.id r) pk then f r else r.
Proof.
  unfold update_row. rewrite in_map_iff. split; intros (r & H1 & H2); eauto.
Qed.

Lemma row_exists_true pk rows :
  row_exists pk rows = true <-> exists r, In r rows /\ ForestTask.id r = pk.
Proof.
  unfold row_exists. rewrite existsb_exists.
  split; intros (r & Hr & Hid); exists r; (split; [assumption|]);
    now apply Z.eqb_eq.
Qed.

Lemma row_exists_update_row pk pk' f rows :
  (forall r, ForestTask.id r = pk' -> ForestTask.id (f r) = pk') ->
  row_exists pk (update_row pk' f rows) = row_exists pk rows.
Proof.
  intros Hf. unfold row_exists, update_row.
  induction rows as [|r rows IH]; simpl; [reflexivity|].
  rewrite IH. f_equal.
  destruct (Z.eqb_spec (ForestTask.id r) pk') as [Heq|]; [|reflexivity].
  rewrite (Hf r Heq). now rewrite Heq.
Qed.

Lemma for_pair_true p tr r :
  ForestTask.for_pair p tr r = true <->
  ForestTask.participant r = p /\ ForestTask.forest_tree r = tr.
Proof.
  unfold ForestTask.for_pair. rewrite andb_true_iff, Z.eqb_eq, String.eqb_eq.
  tauto.
Qed.

Lemma has_status_true s r :
  ForestTask.has_status s r = true <-> ForestTask.status r = s.
Proof. apply Status_eqb_eq. Qed.

Lemma busy_false c w :
  busy c w = false <->
  forall r, In r (tasks w) ->
    ForestTask.participant r = ForestTask.participant c ->
    ForestTask.forest_tree r = ForestTask.forest_tree c ->
    ForestTask.status r <> Status.running.
Proof.
  unfold busy, siblings. split.
  - intros Hb r Hr Hp Ht Hs.
    assert (existsb (ForestTask.has_status Status.running)
              (List.filter (ForestTask.for_pair (ForestTask.participant c)
                              (ForestTask.forest_tree c)) (tasks w)) = true);
      [|congruence].
    apply existsb_exists. exists r. split; [|now apply has_status_true].
    apply filter_In. split; [assumption|]. now apply for_pair_true.
  - intros H. apply not_true_is_false. intros Hb.
    apply existsb_exists in Hb as (r & Hr & Hs).
    apply filter_In in Hr as [Hr Hp]. apply for_pair_true in Hp as [Hp Ht].
    apply has_status_true in Hs. now apply (H r).
Qed.

Lemma candidate_Some forest_task_id w c :
  candidate forest_task_id w = Some c ->
  In c (tasks w) /\ ForestTask.id c = forest_task_id.
Proof.
  unfold candidate, first. intros H.
  destruct (List.filter _ (tasks w)) as [|x xs] eqn:Hf; [discriminate|].
  injection H as ->.
  assert (Hc : In c (List.filter (fun r => Z.eqb (ForestTask.id r) forest_task_id)
                       (tasks w))) by (rewrite Hf; now left).
  apply filter_In in Hc as [Hc Hid]. now apply Z.eqb_eq in Hid.
Qed.

Lemma candidate_None forest_task_id w :
  candidate forest_task_id w = None <->
  forall r, In r (tasks w) -> ForestTask.id r <> forest_task_id.
Proof.
  unfold candidate, first. split.
  - intros H r Hr Hid.
    destruct (List.filter _ (tasks w)) as [|x xs] eqn:Hf; [|discriminate].
    assert (Hin : In r (List.filter (fun r => Z.eqb (ForestTask.id r) forest_task_id)
                          (tasks w))).
    { apply filter_In. split; [assumption|now apply Z.eqb_eq]. }
    rewrite Hf in Hin. destruct Hin.
  - intros H.
    destruct (List.filter _ (tasks w)) as [|x xs] eqn:Hf; [reflexivity|].
    assert (Hx : In x (List.filter (fun r => Z.eqb (ForestTask.id r) forest_task_id)
                         (tasks w))) by (rewrite Hf; now left).
    apply filter_In in Hx as [Hx Hid]. apply Z.eqb_eq in Hid.
    now destruct (H x Hx).
Qed.

(** *** Mutual exclusion under the writes of the coordinator *)

Lemma update_row_at_most_one pk f rows :
  at_most_one_running rows ->
  (forall r p tr, In r rows -> ForestTask.id r = pk ->
     ForestTask.for_pair p tr (f r) && ForestTask.has_status Status.running (f r) = true ->
     ForestTask.for_pair p tr r && ForestTask.has_status Status.running r = true) ->
  at_most_one_running (update_row pk f rows).
Proof.
  intros Hone Hf p tr. unfold running_for, update_row.
  etransitivity; [|apply (Hone p tr)].
  apply filter_map_length_le. intros r Hr.
  destruct (Z.eqb_spec (ForestTask.id r) pk) as [Heq|]; [|trivial].
  now apply Hf.
Qed.

Lemma mark_running_fields E n t :
  ForestTask.id (mark_running E n t) = ForestTask.id t /\
  ForestTask.participant (mark_running E n t) = ForestTask.participant t /\
  ForestTask.forest_tree (mark_running E n t) = ForestTask.forest_tree t /\
  ForestTask.status (mark_running E n t) = Status.running /\
  ForestTask.process_start_time (mark_running E n t) = Some (clock E n) /\
  ForestTask.created_on (mark_running E n t) = ForestTask.created_on t /\
  ForestTask.data_date_start (mark_running E n t) = ForestTask.data_date_start t.
Proof. repeat split. Qed.

(** Copying the three columns of the marked object onto the row it was read
    from yields the marked object. *)
Lemma mark_running_saved E n t :
  fold_left (ForestTask.copy_field (mark_running E n t))
    [ForestTask.f_status; ForestTask.f_forest_version;
     ForestTask.f_process_start_time] t
  = mark_running E n t.
Proof. reflexivity. Qed.

Lemma selected_is_queued_sibling c w t :
  first (order_by_desc ForestTask.data_date_start (queued_siblings c w)) = Some t ->
  In t (tasks w) /\
  ForestTask.participant t = ForestTask.participant c /\
  ForestTask.forest_tree t = ForestTask.forest_tree c /\
  ForestTask.status t = Status.queued /\
  forall u, In u (queued_siblings c w) ->
    ForestTask.data_date_start u <= ForestTask.data_date_start t.
Proof.
  intros H. apply first_order_by_desc_max in H as [Hin Hmax].
  unfold queued_siblings, siblings in Hin.
  apply filter_In in Hin as [Hin Hq]. apply filter_In in Hin as [Hin Hp].
  apply for_pair_true in Hp as [Hp Ht]. apply has_status_true in Hq.
  auto.
Qed.

(** The write that marks the selected row keeps the invariant and puts the
    coordinator in flight. *)
Lemma mark_running_in_flight E n c w t :
  unique_ids (tasks w) ->
  at_most_one_running (tasks w) ->
  busy c w = false ->
  first (order_by_desc ForestTask.data_date_start (queued_siblings c w)) = Some t ->
  in_flight
    (update_row (ForestTask.id t)
       (fun r => fold_left (ForestTask.copy_field (mark_running E n t))
                   [ForestTask.f_status; ForestTask.f_forest_version;
                    ForestTask.f_process_start_time] r)
       (tasks w))
    (mark_running E n t).
Proof.
  intros Hu Hone Hbusy Hsel.
  destruct (selected_is_queued_sibling _ _ _ Hsel) as (Hin & Hp & Ht & Hq & _).
  rewrite busy_false in Hbusy.
  set (F := fun r => fold_left _ _ r).
  assert (HFid : forall r, ForestTask.id (F r) = ForestTask.id r) by reflexivity.
  assert (HFp : forall r, ForestTask.participant (F r) = ForestTask.participant r)
    by reflexivity.
  assert (HFt : forall r, ForestTask.forest_tree (F r) = ForestTask.forest_tree r)
    by reflexivity.
  assert (HFs : forall r, ForestTask.status (F r) = Status.running) by reflexivity.
  repeat split.
  - unfold unique_ids. rewrite update_row_ids; [assumption|].
    intros r Hr. now rewrite HFid.
  - intros p tr. unfold running_for, update_row.
    destruct (ForestTask.for_pair p tr t) eqn:Hpair.
    + (* the pair of the selected row: nothing was running there *)
      etransitivity; [|apply (unique_ids_count (ForestTask.id t) _ Hu)].
      apply filter_map_length_le. intros r Hr Hg.
      destruct (Z.eqb_spec (ForestTask.id r) (ForestTask.id t)) as [Heq|Hne];
        [reflexivity|].
      exfalso. apply andb_true_iff in Hg as [Hg1 Hg2].
      apply for_pair_true in Hg1 as [Hg1 Hg3], Hpair as [Hp1 Hp2].
      apply has_status_true in Hg2.
      apply (Hbusy r Hr); congruence.
    + (* another pair: the only row written is not in it *)
      etransitivity; [|apply (Hone p tr)].
      apply filter_map_length_le. intros r Hr Hg.
      destruct (Z.eqb_spec (ForestTask.id r) (ForestTask.id t)) as [Heq|Hne];
        [|assumption].
      exfalso. assert (r = t) by (now apply (unique_ids_eq (tasks w))). subst r.
      apply andb_true_iff in Hg as [Hg1 _].
      unfold ForestTask.for_pair in Hg1, Hpair.
      rewrite HFp, HFt in Hg1. congruence.
  - rewrite row_exists_update_row by (intros r Hr; now rewrite HFid).
    apply row_exists_true. now exists t.
  - apply update_row_In in H as (r0 & Hr0 & ->).
    destruct (Z.eqb_spec (ForestTask.id r0) (ForestTask.id t)) as [Heq|Hne].
    + assert (r0 = t) by (now apply (unique_ids_eq (tasks w))). now subst.
    + now destruct Hne.
  - apply update_row_In in H as (r0 & Hr0 & ->).
    destruct (Z.eqb_spec (ForestTask.id r0) (ForestTask.id t)) as [Heq|Hne].
    + assert (r0 = t) by (now apply (unique_ids_eq (tasks w))). now subst.
    + now destruct Hne.
  - intros _. apply update_row_In in H as (r0 & Hr0 & ->).
    destruct (Z.eqb_spec (ForestTask.id r0) (ForestTask.id t)) as [Heq|Hne].
    + apply HFs.
    + now destruct Hne.
Qed.

(** Saving columns other than the status, or the whole in-flight object,
    keeps the link between object and table. *)
Lemma save_columns_in_flight rows t fs :
  ~ In ForestTask.f_status fs ->
  in_flight rows t ->
  in_flight
    (update_row (ForestTask.id t)
       (fun r => fold_left (ForestTask.copy_field t) fs r) rows) t.
Proof.
  intros Hfs (Hu & Hone & Hex & Hrow).
  assert (Hkeep : forall r,
    ForestTask.id (fold_left (ForestTask.copy_field t) fs r) = ForestTask.id r /\
    ForestTask.participant (fold_left (ForestTask.copy_field t) fs r)
      = ForestTask.participant r /\
    ForestTask.forest_tree (fold_left (ForestTask.copy_field t) fs r)
      = ForestTask.forest_tree r /\
    ForestTask.status (fold_left (ForestTask.copy_field t) fs r)
      = ForestTask.status r).
  { induction fs as [|f fs IH]; intros r; simpl; [auto|].
    destruct (IH (fun H => Hfs (or_intror H)) (ForestTask.copy_field t r f))
      as (-> & -> & -> & ->).
    destruct f; simpl; auto. exfalso. apply Hfs. now left. }
  repeat split.
  - unfold unique_ids. rewrite update_row_ids; [assumption|].
    intros r Hr. now rewrite (proj1 (Hkeep r)).
  - apply update_row_at_most_one; [assumption|].
    intros r p tr _ _. unfold ForestTask.for_pair, ForestTask.has_status.
    destruct (Hkeep r) as (_ & -> & -> & ->). trivial.
  - rewrite row_exists_update_row; [assumption|].
    intros r Hr. now rewrite (proj1 (Hkeep r)).
  - apply update_row_In in H as (r0 & Hr0 & ->).
    destruct (Z.eqb_spec (ForestTask.id r0) (ForestTask.id t)) as [Heq|Hne].
    + destruct (Hkeep r0) as (_ & -> & _). now apply Hrow.
    + now apply Hrow.
  - apply update_row_In in H as (r0 & Hr0 & ->).
    destruct (Z.eqb_spec (ForestTask.id r0) (ForestTask.id t)) as [Heq|Hne].
    + destruct (Hkeep r0) as (_ & _ & -> & _). now apply Hrow.
    + now apply Hrow.
  - intros Hs. apply update_row_In in H as (r0 & Hr0 & ->).
    destruct (Z.eqb_spec (ForestTask.id r0) (ForestTask.id t)) as [Heq|Hne].
    + destruct (Hkeep r0) as (_ & _ & _ & ->). now apply Hrow.
    + now apply Hrow.
Qed.

Lemma save_object_in_flight rows t :
  in_flight rows t ->
  in_flight (update_row (ForestTask.id t) (fun _ => t) rows) t.
Proof.
  intros (Hu & Hone & Hex & Hrow).
  repeat split.
  - unfold unique_ids. rewrite update_row_ids; [assumption|auto].
  - apply update_row_at_most_one; [assumption|].
    intros r p tr Hr Hid Hg. apply andb_true_iff in Hg as [Hg1 Hg2].
    apply for_pair_true in Hg1 as [Hg1 Hg3]. apply has_status_true in Hg2.
    destruct (Hrow r Hr Hid) as (Hp & Ht & Hs).
    apply andb_true_iff. split.
    + apply for_pair_true. split; congruence.
    + apply has_status_true. auto.
  - rewrite row_exists_update_row; [assumption|auto].
  - apply update_row_In in H as (r0 & Hr0 & ->).
    destruct (Z.eqb_spec (ForestTask.id r0) (ForestTask.id t)) as [Heq|Hne];
      [reflexivity|now apply Hrow].
  - apply update_row_In in H as (r0 & Hr0 & ->).
    destruct (Z.eqb_spec (ForestTask.id r0) (ForestTask.id t)) as [Heq|Hne];
      [reflexivity|now apply Hrow].
  - intros Hs. apply update_row_In in H as (r0 & Hr0 & ->).
    destruct (Z.eqb_spec (ForestTask.id r0) (ForestTask.id t)) as [Heq|Hne];
      [assumption|now apply Hrow].
Qed.

(** An assignment to a field of the object that leaves its key and pair
    alone, and does not turn it into a running one, keeps the link. *)
Lemma assign_in_flight rows t (f : ForestTask.t -> ForestTask.t) :
  ForestTask.id (f t) = ForestTask.id t ->
  ForestTask.participant (f t) = ForestTask.participant t ->
  ForestTask.forest_tree (f t) = ForestTask.forest_tree t ->
  (ForestTask.status (f t) = Status.running -> ForestTask.status t = Status.running) ->
  in_flight rows t -> in_flight rows (f t).
Proof.
  intros Hid Hp Ht Hs (Hu & Hone & Hex & Hrow).
  repeat split; try assumption.
  - now rewrite Hid.
  - rewrite Hid in H0. rewrite Hp. now apply Hrow.
  - rewrite Hid in H0. rewrite Ht. now apply Hrow.
  - rewrite Hid in H0. intros Hr. apply Hrow; auto.
Qed.

(** *** Rules for [preserves] and [keeps] *)

Lemma preserves_ret {S A} (I : S -> Prop) (a : A) : preserves I (ret a).
Proof. intros s Hs. exact Hs. Qed.

Lemma preserves_raise {S A} (I : S -> Prop) e : preserves I (@raise S A e).
Proof. intros s Hs. exact Hs. Qed.

Lemma preserves_gets {S A} (I : S -> Prop) (f : S -> A) : preserves I (gets f).
Proof. intros s Hs. exact Hs. Qed.

Lemma preserves_of_res {S A} (I : S -> Prop) (r : res A) : preserves I (of_res r).
Proof. intros s Hs. exact Hs. Qed.

Lemma preserves_bind {S A B} (I : S -> Prop) (m : M S A) (k : A -> M S B) :
  preserves I m -> (forall a, preserves I (k a)) -> preserves I (bind m k).
Proof.
  intros Hm Hk s Hs. unfold bind. specialize (Hm s Hs).
  destruct (m s) as [[a|e] s']; simpl in *; [now apply Hk|assumption].
Qed.

Lemma preserves_try {S A} (I : S -> Prop) (body : M S A) handler orelse :
  preserves I body -> (forall e, preserves I (handler e)) -> preserves I orelse ->
  preserves I (try_except_else body handler orelse).
Proof.
  intros Hb Hh Ho s Hs. unfold try_except_else. specialize (Hb s Hs).
  destruct (body s) as [[a|e] s']; simpl in *; [now apply Ho|].
  destruct (is_Exception e); [now apply Hh|assumption].
Qed.

Lemma preserves_for_each {S A} (I : S -> Prop) (xs : list A) body :
  (forall x, preserves I (body x)) -> preserves I (for_each xs body).
Proof.
  intros Hb. induction xs as [|x xs IH]; simpl.
  - apply preserves_ret.
  - apply preserves_bind; [apply Hb|intros _; apply IH].
Qed.

Lemma keeps_ret {S A B} (f : S -> B) (a : A) : keeps f (ret a).
Proof. now intros s. Qed.

Lemma keeps_raise {S A B} (f : S -> B) e : keeps f (@raise S A e).
Proof. now intros s. Qed.

Lemma keeps_gets {S A B} (f : S -> B) (g : S -> A) : keeps f (gets g).
Proof. now intros s. Qed.

Lemma keeps_of_res {S A B} (f : S -> B) (r : res A) : keeps f (of_res r).
Proof. now intros s. Qed.

Lemma keeps_bind {S A A' B} (f : S -> B) (m : M S A) (k : A -> M S A') :
  keeps f m -> (forall a, keeps f (k a)) -> keeps f (bind m k).
Proof.
  intros Hm Hk s. unfold bind. specialize (Hm s).
  destruct (m s) as [[a|e] s']; simpl in *; [|assumption].
  now rewrite Hk.
Qed.

Lemma keeps_for_each {S A B} (f : S -> B) (xs : list A) (body : A -> M S unit) :
  (forall x, keeps f (body x)) -> keeps f (for_each xs body).
Proof.
  intros Hb. induction xs as [|x xs IH]; simpl; [now intros s|].
  apply keeps_bind; [apply Hb|intros _; apply IH].
Qed.

Lemma keeps_call {B} E s (f : World -> B) : keeps f (call E s).
Proof. intros w. unfold call. now destruct (fault E s). Qed.

Lemma keeps_now {B} E (f : World -> B) : ticks_blind f -> keeps f (now E).
Proof. intros Hf w. apply Hf. Qed.

Lemma keeps_open_x {B} (f : World -> B) file_name :
  files_blind f -> keeps f (open_x file_name).
Proof.
  intros Hf w. unfold open_x, bind, gets. simpl.
  destruct (files w !! file_name); [reflexivity|apply Hf].
Qed.

Lemma keeps_write {B} (f : World -> B) file_name text :
  files_blind f -> keeps f (write file_name text).
Proof. intros Hf w. apply Hf. Qed.

Lemma keeps_create_local_data_files {B} (f : World -> B) E t chunks :
  files_blind f -> keeps f (create_local_data_files E t chunks).
Proof.
  intros Hf. apply keeps_for_each. intros chunk.
  apply keeps_bind; [apply keeps_of_res|]. intros contents.
  apply keeps_bind; [now apply keeps_open_x|]. intros _.
  apply keeps_bind; [apply keeps_of_res|]. intros text.
  now apply keeps_write.
Qed.

Lemma keeps_save_artifact_bytes {B} (f : World -> B) E a t content :
  blobs_blind f -> keeps f (save_artifact_bytes E a t content).
Proof.
  intros Hf. apply keeps_bind; [apply keeps_call|]. intros _ w. apply Hf.
Qed.

Lemma keeps_save_if_exists {B} (f : World -> B) E a path t :
  blobs_blind f -> keeps f (save_if_exists E a path t).
Proof.
  intros Hf. apply keeps_bind; [apply keeps_gets|]. intros [content|].
  - now apply keeps_save_artifact_bytes.
  - apply keeps_ret.
Qed.

Lemma keeps_save_cached_files {B} (f : World -> B) E t :
  blobs_blind f -> keeps f (save_cached_files E t).
Proof.
  intros Hf. apply keeps_bind; [now apply keeps_save_if_exists|].
  intros _. now apply keeps_save_if_exists.
Qed.

Lemma keeps_clean_up_files {B} (f : World -> B) E t :
  files_blind f -> keeps f (clean_up_files E t).
Proof.
  intros Hf. apply keeps_bind; [apply keeps_call|]. intros _ w. apply Hf.
Qed.

Lemma keeps_run_forest_function {B} (f : World -> B) E fn ps :
  files_blind f -> keeps f (run_forest_function E fn ps).
Proof.
  intros Hf w. unfold run_forest_function.
  destruct (forest_main E fn ps (files w)). apply Hf.
Qed.

Lemma keeps_safe_apply_async {B} (f : World -> B) E kwargs :
  broker_blind f -> keeps f (safe_apply_async E kwargs).
Proof.
  intros Hf. apply keeps_bind; [apply keeps_call|]. intros _ w. apply Hf.
Qed.

Lemma keeps_enqueue_forest_task {B} (f : World -> B) E kwargs :
  ticks_blind f -> broker_blind f -> keeps f (enqueue_forest_task E kwargs).
Proof.
  intros Ht Hb. apply keeps_bind; [now apply keeps_now|]. intros utcnow.
  now apply keeps_safe_apply_async.
Qed.

Lemma keeps_save_update_field {B} (f : World -> B) update_field t :
  keeps f (save_update_field update_field t).
Proof. apply keeps_raise. Qed.

Lemma keeps_save {B} (f : World -> B) E s update_fields t :
  tasks_blind f -> keeps f (save E s update_fields t).
Proof.
  intros Hf. apply keeps_bind; [apply keeps_call|]. intros _.
  apply keeps_bind; [apply keeps_gets|]. intros present.
  destruct update_fields as [fs|], present; try (intros w; apply Hf).
  apply keeps_raise.
Qed.

(** *** The coordinator stays in flight *)

Lemma frame_ok_lift {A} (m : M World A) :
  keeps tasks m -> preserves frame_ok (lift m).
Proof.
  intros Hm fr Hfr. unfold lift, frame_ok in *. specialize (Hm (world fr)).
  destruct (m (world fr)) as [r w']. simpl in *. now rewrite Hm.
Qed.

Lemma frame_ok_with_tracker {A} (k : ForestTask.t -> M World A) :
  (forall t, keeps tasks (k t)) -> preserves frame_ok (with_tracker k).
Proof.
  intros Hk fr Hfr. unfold with_tracker. now apply frame_ok_lift.
Qed.

Lemma frame_ok_assign (f : ForestTask.t -> ForestTask.t) :
  (forall t, ForestTask.id (f t) = ForestTask.id t) ->
  (forall t, ForestTask.participant (f t) = ForestTask.participant t) ->
  (forall t, ForestTask.forest_tree (f t) = ForestTask.forest_tree t) ->
  (forall t, ForestTask.status (f t) = Status.running ->
             ForestTask.status t = Status.running) ->
  preserves frame_ok (assign f).
Proof.
  intros Hid Hp Ht Hs fr Hfr. unfold assign, modify, frame_ok in *. simpl.
  apply assign_in_flight; auto.
Qed.

Lemma frame_ok_save_object E s :
  preserves frame_ok (with_tracker (save E s None)).
Proof.
  intros fr Hfr. unfold with_tracker, lift, save, bind, call, gets, modify.
  assert (Hex := proj1 (proj2 (proj2 Hfr))).
  destruct (fault E s); simpl; [exact Hfr|].
  rewrite Hex. simpl. apply save_object_in_flight, Hfr.
Qed.

Lemma frame_ok_save_columns E s fs :
  ~ In ForestTask.f_status fs ->
  preserves frame_ok (with_tracker (save E s (Some fs))).
Proof.
  intros Hfs fr Hfr. unfold with_tracker, lift, save, bind, call, gets, modify.
  assert (Hex := proj1 (proj2 (proj2 Hfr))).
  destruct (fault E s); simpl; [exact Hfr|].
  rewrite Hex. simpl. apply save_columns_in_flight; [assumption|exact Hfr].
Qed.

(** What the run after the transaction keeps: any property of the frame
    that survives the steps which leave the table alone, the benign
    assignments, and the saves that do not write the status column by
    itself. *)
Section Writes.

Context (E : Env) (I : Frame -> Prop).
Hypothesis I_lift : forall A (m : M World A), keeps tasks m -> preserves I (lift m).
Hypothesis I_assign : forall f, benign f -> preserves I (assign f).
Hypothesis I_save : forall s update_fields,
  (forall fs, update_fields = Some fs -> ~ In ForestTask.f_status fs) ->
  preserves I (with_tracker (save E s update_fields)).

Lemma I_with_tracker {A} (k : ForestTask.t -> M World A) :
  (forall t, keeps tasks (k t)) -> preserves I (with_tracker k).
Proof. intros Hk fr Hfr. unfold with_tracker. now apply I_lift. Qed.

Lemma try_body_preserves chunks : preserves I (try_body E chunks).
Proof.
  unfold try_body.
  apply preserves_bind;
    [apply I_with_tracker; intros t; now apply keeps_create_local_data_files
    |intros _].
  apply preserves_bind; [apply I_lift; now apply keeps_now|intros t].
  apply preserves_bind; [apply I_assign; now intros t0|intros _].
  apply preserves_bind;
    [apply I_with_tracker; intros t0; apply keeps_save_update_field|intros _].
  apply preserves_bind;
    [apply I_with_tracker; intros t0; apply keeps_of_res|intros ps].
  apply preserves_bind; [apply I_assign; now intros t0|intros _].
  apply preserves_bind;
    [apply I_with_tracker; intros t0; apply keeps_save_update_field|intros _].
  apply preserves_bind;
    [apply I_with_tracker; intros t0; apply keeps_of_res|intros f].
  apply preserves_bind;
    [apply I_lift; now apply keeps_run_forest_function|intros _].
  apply preserves_bind; [apply I_lift, keeps_call|intros _].
  apply I_with_tracker. intros t0. now apply keeps_save_cached_files.
Qed.

Lemma after_transaction_preserves participant :
  preserves I (after_transaction E participant).
Proof.
  unfold after_transaction.
  apply preserves_bind; [apply I_lift, keeps_gets|intros chunks].
  apply preserves_bind; [apply I_lift, keeps_call|intros _].
  apply preserves_bind; [apply I_assign; now intros t0|intros _].
  apply preserves_bind.
  { apply I_save. intros fs [= <-] [H|[]]. discriminate H. }
  intros _.
  apply preserves_bind.
  { apply preserves_try.
    - apply try_body_preserves.
    - intros e. apply preserves_bind; [|intros _].
      + apply I_assign. intros t0. repeat split. discriminate.
      + apply I_assign. now intros t0.
    - apply I_assign. intros t0. repeat split. discriminate. }
  intros _.
  apply preserves_bind; [apply I_lift; now apply keeps_now|intros t].
  apply preserves_bind; [apply I_assign; now intros t0|intros _].
  apply preserves_bind; [apply I_save; discriminate|intros _].
  apply I_with_tracker. intros t0. now apply keeps_clean_up_files.
Qed.

End Writes.

Lemma frame_ok_save E s update_fields :
  (forall fs, update_fields = Some fs -> ~ In ForestTask.f_status fs) ->
  preserves frame_ok (with_tracker (save E s update_fields)).
Proof.
  intros H. destruct update_fields as [fs|].
  - apply frame_ok_save_columns. now apply H.
  - apply frame_ok_save_object.
Qed.

Lemma after_transaction_frame_ok E participant :
  preserves frame_ok (after_transaction E participant).
Proof.
  apply after_transaction_preserves.
  - intros A m. apply frame_ok_lift.
  - intros f Hf. apply frame_ok_assign; intros t; apply Hf.
  - apply frame_ok_save.
Qed.

Lemma transaction_in_flight E forest_task_id w :
  unique_ids (tasks w) -> at_most_one_running (tasks w) ->
  match transaction E forest_task_id w with
  | (Ok (Some (t, _)), w') => in_flight (tasks w') t
  | (_, w') => tasks w' = tasks w
  end.
Proof.
  intros Hu Hone. rewrite transaction_run.
  destruct (candidate forest_task_id w) as [c|]; [|reflexivity].
  destruct (busy c w) eqn:Hbusy.
  { destruct (fault E at_apply_async); reflexivity. }
  destruct (first _) as [t|] eqn:Hsel; [|reflexivity].
  destruct (fault E at_get_distribution); [reflexivity|].
  destruct (fault E at_save_running); [reflexivity|].
  destruct (row_exists _ _); [|reflexivity].
  simpl. now apply mark_running_in_flight with (c := c).
Qed.

Lemma celery_run_forest_invariant E forest_task_id w :
  unique_ids (tasks w) -> at_most_one_running (tasks w) ->
  unique_ids (tasks (celery_run_forest E forest_task_id w).2) /\
  at_most_one_running (tasks (celery_run_forest E forest_task_id w).2).
Proof.
  intros Hu Hone.
  assert (Ht := transaction_in_flight E forest_task_id w Hu Hone).
  unfold celery_run_forest, bind.
  destruct (transaction E forest_task_id w) as [[[[t p]|]|e] w1]; simpl;
    try (rewrite Ht; now split).
  unfold run_frame.
  assert (Hfr := after_transaction_frame_ok E p (mkFrame w1 t) Ht).
  destruct (after_transaction E p (mkFrame w1 t)) as [r fr]. simpl in *.
  destruct Hfr as (Hu' & Hone' & _). now split.
Qed.

(** *** The run after the transaction, step by step *)

Lemma after_transaction_sum_fault E p fr e :
  fault E at_sum_file_size = Some e ->
  after_transaction E p fr = (Raise e, fr).
Proof.
  intros H. unfold after_transaction, bind, lift, gets, call. simpl.
  rewrite H. now destruct fr.
Qed.

Lemma after_transaction_run E p w t :
  row_exists (ForestTask.id t) (tasks w) = true ->
  fault E at_sum_file_size = None ->
  fault E at_save_total_file_size = None ->
  after_transaction E p (mkFrame w t) =
  conclude E (try_body E (chunks_of p w) (sized p w t)).
Proof.
  intros Hex Hsum Hsave.
  unfold after_transaction. generalize (try_body E). intros body.
  unfold conclude, sized, chunks_of, write_object, without_workspace.
  cbv beta iota delta [bind lift gets call assign modify with_tracker save
    try_except_else now clean_up_files ret raise world tracker fst snd].
  rewrite Hsum, Hsave.
  cbn [ForestTask.id ForestTask.set_total_file_size].
  rewrite Hex. clear Hex.
  destruct (body _ _) as [[[]|e] [w3 t3]]; unfold escapes; cbn [fst snd];
    [|destruct (is_Exception e); [|reflexivity]];
    cbn [world tracker fst snd tasks ticks set_ticks set_tasks settle
         ForestTask.id ForestTask.set_process_end_time ForestTask.set_status
         ForestTask.set_stacktrace];
    (destruct (fault E at_final_save); [reflexivity|]);
    change (tasks (set_ticks (S (ticks w3)) w3)) with (tasks w3);
    (destruct (row_exists (ForestTask.id t3) (tasks w3));
     destruct (fault E at_clean_up_files); reflexivity).
Qed.

(** *** Inversion of the monad's operations *)

Lemma bind_Ok {S A B} (m : M S A) (k : A -> M S B) s b s'' :
  bind m k s = (Ok b, s'') ->
  exists a s', m s = (Ok a, s') /\ k a s' = (Ok b, s'').
Proof.
  unfold bind. destruct (m s) as [[a|e] s']; [eauto|discriminate].
Qed.

Lemma bind_Raise {S A B} (m : M S A) (k : A -> M S B) s e s'' :
  bind m k s = (Raise e, s'') ->
  m s = (Raise e, s'') \/
  exists a s', m s = (Ok a, s') /\ k a s' = (Raise e, s'').
Proof.
  unfold bind. destruct (m s) as [[a|e'] s']; [eauto|].
  intros [= -> ->]. now left.
Qed.

Lemma keeps_at {S A B} (f : S -> B) (m : M S A) s r s' :
  keeps f m -> m s = (r, s') -> f s' = f s.
Proof. intros Hk Hm. specialize (Hk s). now rewrite Hm in Hk. Qed.

(** *** The body of the [try] statement *)

(** The body never ends normally: when the download fails its exception
    leaves the body, and when it succeeds the object gets its download-end
    stamp from the next reading of the clock and the save with the keyword
    [update_field] raises.  The statements after that save are never
    reached. *)
Lemma try_body_run E chunks fr :
  try_body E chunks fr =
  match create_local_data_files E (tracker fr) chunks (world fr) with
  | (Ok _, w1) =>
      (Raise update_field_TypeError,
       mkFrame (set_ticks (S (ticks w1)) w1)
         (ForestTask.set_process_download_end_time (Some (clock E (ticks w1)))
            (tracker fr)))
  | (Raise e, w1) => (Raise e, mkFrame w1 (tracker fr))
  end.
Proof.
  unfold try_body. unfold bind at 1. unfold with_tracker at 1, lift at 1.
  destruct (create_local_data_files E (tracker fr) chunks (world fr))
    as [[[]|e] w1]; reflexivity.
Qed.

Lemma try_body_raises E chunks fr : exists e, (try_body E chunks fr).1 = Raise e.
Proof.
  rewrite try_body_run.
  destruct (create_local_data_files E (tracker fr) chunks (world fr))
    as [[[]|e] w1]; simpl; eauto.
Qed.

(** The body persists no artifact. *)
Lemma try_body_blobs E chunks fr :
  blobs (world (try_body E chunks fr).2) = blobs (world fr).
Proof.
  rewrite try_body_run.
  assert (H := keeps_create_local_data_files blobs E (tracker fr) chunks
                 (fun _ _ => eq_refl) (world fr)).
  destruct (create_local_data_files E (tracker fr) chunks (world fr))
    as [[[]|e] w1]; simpl in *; assumption.
Qed.

(** The files after the body are those the download left. *)
Lemma try_body_files E chunks fr :
  files (world (try_body E chunks fr).2)
  = files (create_local_data_files E (tracker fr) chunks (world fr)).2.
Proof.
  rewrite try_body_run.
  destruct (create_local_data_files E (tracker fr) chunks (world fr))
    as [[[]|e] w1]; reflexivity.
Qed.

(** What the download raises is what its collaborators raise, or the
    FileExistsError of an exclusive creation. *)
Lemma create_local_data_files_catchable E t chunks w e w1 :
  catchable E ->
  create_local_data_files E t chunks w = (Raise e, w1) ->
  is_Exception e = true.
Proof.
  intros [Hs3 Hdecode]. unfold create_local_data_files. revert w.
  induction chunks as [|chunk chunks IH]; intros w; [discriminate|].
  cbn [for_each]. intros H. apply bind_Raise in H as [H|([] & w2 & _ & H)];
    [|now apply (IH w2)].
  apply bind_Raise in H as [H|(contents & w2 & _ & H)].
  { unfold of_res in H. injection H as H _. now apply Hs3 in H. }
  apply bind_Raise in H as [H|([] & w3 & _ & H)].
  { unfold open_x, bind, gets, raise, modify in H.
    destruct (files w2 !! _); [|discriminate]. now injection H as <- _. }
  apply bind_Raise in H as [H|(text & w4 & _ & H)]; [|discriminate].
  unfold of_res in H. injection H as H _. now apply Hdecode in H.
Qed.

(** With such collaborators the [except] clause takes whatever the body
    raises. *)
Lemma try_body_caught E chunks fr :
  catchable E -> escapes (try_body E chunks fr).1 = None.
Proof.
  intros Hc. rewrite try_body_run.
  destruct (create_local_data_files E (tracker fr) chunks (world fr))
    as [[[]|e] w1] eqn:Hrun; [reflexivity|].
  simpl. now rewrite (create_local_data_files_catchable E _ _ _ _ _ Hc Hrun).
Qed.

(** Rules for observations that only look at the object. *)
Lemma preserves_lift_tracker {A} (Q : ForestTask.t -> Prop) (m : M World A) :
  preserves (fun fr => Q (tracker fr)) (lift m).
Proof.
  intros fr Hfr. unfold lift. now destruct (m (world fr)).
Qed.

Lemma preserves_with_tracker_tracker {A} (Q : ForestTask.t -> Prop)
    (k : ForestTask.t -> M World A) :
  preserves (fun fr => Q (tracker fr)) (with_tracker k).
Proof. intros fr. unfold with_tracker. apply preserves_lift_tracker. Qed.

Lemma preserves_assign_tracker (Q : ForestTask.t -> Prop) g :
  (forall t, Q t -> Q (g t)) ->
  preserves (fun fr => Q (tracker fr)) (assign g).
Proof. intros Hg fr Hfr. now apply Hg. Qed.

(** The body writes two attributes of the object and no other. *)
Lemma try_body_tracker E chunks fr :
  touched (tracker fr) (tracker (try_body E chunks fr).2).
Proof.
  assert (H : preserves (fun fr' => touched (tracker fr) (tracker fr'))
                (try_body E chunks)).
  { unfold try_body.
    repeat (first
      [ apply preserves_with_tracker_tracker
      | apply preserves_lift_tracker
      | apply preserves_assign_tracker;
        let t := fresh in let Ht := fresh in
        intros t Ht; unfold touched in *; rewrite Ht; reflexivity
      | apply preserves_bind; [|intros ?] ]). }
  apply H. unfold touched. now destruct (tracker fr).
Qed.

(** *** From the dispatched id to the end of the run *)

Lemma selected_inv forest_task_id w t :
  selected forest_task_id w = Some t ->
  exists c, candidate forest_task_id w = Some c /\ busy c w = false /\
    first (order_by_desc ForestTask.data_date_start (queued_siblings c w)) = Some t.
Proof.
  unfold selected. destruct (candidate forest_task_id w) as [c|]; [|discriminate].
  destruct (busy c w) eqn:Hb; [discriminate|]. eauto.
Qed.

Lemma celery_run_forest_selected E forest_task_id w t :
  selected forest_task_id w = Some t ->
  reaches_try E ->
  celery_run_forest E forest_task_id w =
  ((conclude E (try_body E (chunks_of (ForestTask.participant t) w) (entry E w t))).1,
   world (conclude E (try_body E (chunks_of (ForestTask.participant t) w)
                        (entry E w t))).2).
Proof.
  intros Hsel (Hdist & Hrun & Hsum & Hsave).
  apply selected_inv in Hsel as (c & Hc & Hbusy & Hsel).
  destruct (selected_is_queued_sibling _ _ _ Hsel) as (Hin & Hp & _).
  unfold celery_run_forest, bind. rewrite transaction_run, Hc, Hbusy, Hsel, Hdist, Hrun.
  assert (Hex : row_exists (ForestTask.id t) (tasks w) = true)
    by (apply row_exists_true; eauto).
  rewrite Hex. unfold run_frame.
  rewrite after_transaction_run; try assumption.
  - unfold entry, started. rewrite Hp.
    now destruct (conclude E _).
  - simpl. rewrite row_exists_update_row; [assumption|].
    intros r Hr. exact Hr.
Qed.

Lemma row_of_write_object t w :
  row_of (ForestTask.id t) (set_tasks (write_object t (tasks w)) w) = Some t.
Proof.
  unfold row_of, write_object. simpl. generalize (tasks w) as rows.
  intros rows. destruct (row_exists (ForestTask.id t) rows) eqn:Hex.
  - unfold update_row, row_exists in *.
    induction rows as [|r rows IH]; simpl in *; [discriminate|].
    destruct (Z.eqb_spec (ForestTask.id r) (ForestTask.id t)) as [Heq|Hne].
    + now rewrite Z.eqb_refl.
    + apply Z.eqb_neq in Hne. rewrite Hne. simpl in Hex. now apply IH.
  - unfold row_exists in Hex.
    induction rows as [|r rows IH]; simpl in *; [now rewrite Z.eqb_refl|].
    apply orb_false_iff in Hex as [Hr Hex]. rewrite Hr. now apply IH.
Qed.

(** When the [except] clause takes what the body raised and nothing fails
    after the [try] statement, the run returns normally, the stored row is
    the final object, the scratch directory is gone, and the closing steps
    persist no artifact. *)
Lemma conclude_settles E body :
  escapes body.1 = None ->
  settles E ->
  let fr' := (conclude E body).2 in
  (conclude E body).1 = Ok tt /\
  row_of (ForestTask.id (final_object E body)) (world fr') = Some (final_object E body) /\
  blobs (world fr') = blobs (world body.2) /\
  files (world fr') = without_workspace E (final_object E body) (files (world body.2)).
Proof.
  intros Hcaught [Hsave Hclean]. unfold conclude.
  rewrite Hcaught, Hsave, Hclean. simpl.
  fold (final_object E body).
  split; [reflexivity|]. split; [|split; reflexivity].
  apply (row_of_write_object (final_object E body)
           (set_ticks (S (ticks (world body.2))) (world body.2))).
Qed.

(** The last step of such a run is the call of [clean_up_files] on the
    object just saved. *)
Lemma conclude_cleanup E body :
  escapes body.1 = None ->
  fault E at_final_save = None ->
  exists w5,
    row_of (ForestTask.id (final_object E body)) w5 = Some (final_object E body) /\
    files w5 = files (world body.2) /\
    clean_up_files E (final_object E body) w5
    = ((conclude E body).1, world (conclude E body).2).
Proof.
  intros Hcaught Hsave.
  exists (set_tasks
            (write_object (final_object E body)
               (tasks (set_ticks (S (ticks (world body.2))) (world body.2))))
            (set_ticks (S (ticks (world body.2))) (world body.2))).
  split; [apply row_of_write_object|]. split; [reflexivity|].
  unfold conclude, clean_up_files, bind, call, modify.
  rewrite Hcaught, Hsave. fold (final_object E body).
  destruct (fault E at_clean_up_files); reflexivity.
Qed.


(** The attributes of the object saved last, in terms of the frame on entry
    to the [try] statement and of how its body ended. *)
Lemma final_object_fields E chunks fr0 :
  let body := try_body E chunks fr0 in
  let r := final_object E body in
  ForestTask.id r = ForestTask.id (tracker fr0) /\
  ForestTask.created_on r = ForestTask.created_on (tracker fr0) /\
  ForestTask.process_start_time r = ForestTask.process_start_time (tracker fr0) /\
  ForestTask.total_file_size r = ForestTask.total_file_size (tracker fr0) /\
  ForestTask.process_download_end_time r
    = ForestTask.process_download_end_time (tracker body.2) /\
  ForestTask.process_end_time r = Some (clock E (ticks (world body.2))) /\
  ForestTask.status r
    = match body.1 with Ok _ => Status.success | Raise _ => Status.error end /\
  ForestTask.stacktrace r
    = match body.1 with
      | Ok _ => ForestTask.stacktrace (tracker fr0)
      | Raise e => Some (format_exc e)
      end.
Proof.
  intros body r. subst r. unfold final_object.
  assert (Ht := try_body_tracker E chunks fr0). fold body in Ht.
  unfold touched in Ht. unfold settle.
  destruct body.1; rewrite Ht; repeat split.
Qed.

Lemma entry_fields E w t :
  ForestTask.id (tracker (entry E w t)) = ForestTask.id t /\
  ForestTask.created_on (tracker (entry E w t)) = ForestTask.created_on t /\
  ForestTask.process_start_time (tracker (entry E w t)) = Some (clock E (ticks w)) /\
  ForestTask.total_file_size (tracker (entry E w t))
    = sum_file_size (chunks_of (ForestTask.participant t) w) /\
  ticks (world (entry E w t)) = S (ticks w) /\
  blobs (world (entry E w t)) = blobs w /\
  files (world (entry E w t)) = files w.
Proof. repeat split. Qed.

(** *** The admission scan *)

Lemma scan_run E rows w :
  fault E at_apply_async = None ->
  for_each rows (fun tracker => enqueue_forest_task E (args_of (ForestTask.id tracker))) w
  = (Ok tt,
     set_broker (broker w ++ scan_messages E (ticks w) rows)
       (set_ticks (ticks w + length rows) w)).
Proof.
  intros Hq. revert w. induction rows as [|r rows IH]; intros w.
  - simpl. unfold ret. rewrite app_nil_r, Nat.add_0_r. now destruct w.
  - cbn [for_each]. unfold bind at 1. rewrite enqueue_forest_task_run, Hq.
    rewrite IH. cbn [scan_messages length]. destruct w as [ts cr fs br bl tk].
    unfold set_broker, set_ticks. cbn [tasks chunk_registry files broker blobs ticks].
    rewrite <- app_assoc. cbn [app].
    replace (S tk + length rows)%nat with (tk + S (length rows))%nat by lia.
    reflexivity.
Qed.

Lemma scan_messages_ok E n rows :
  Forall2 (fun r msg => exists k, dispatch_of E (ForestTask.id r) k msg)
    rows (scan_messages E n rows).
Proof.
  revert n. induction rows as [|r rows IH]; intros n; simpl; constructor.
  - exists n. apply dispatch_message_ok.
  - apply IH.
Qed.

(* ===================================================================== *)
(** ** The properties of the specification                                *)
(* ===================================================================== *)

(** C9.  Every dispatch — by the admission scan and by the requeue on a
    running sibling — hands the broker the task id with an expiry between
    four and a half and five and a half minutes after the reading of the
    clock it was computed from, and with retries switched off
    ([max_retries] 0, [retry] and [task_publish_retry] false); one scan sends
    one such message per queued row, in order, and writes no row. *)
Theorem dispatch_policy E w :
  fault E at_apply_async = None ->
  (forall utcnow,
     270 * 1000000 < expires_at utcnow - utcnow <= 330 * 1000000) /\
  (exists w' msgs,
     create_forest_celery_tasks E w = (Ok tt, w') /\
     tasks w' = tasks w /\
     broker w' = (broker w ++ msgs)%list /\
     Forall2 (fun r msg => exists k, dispatch_of E (ForestTask.id r) k msg)
       (List.filter (ForestTask.has_status Status.queued) (tasks w)) msgs) /\
  (forall forest_task_id c,
     candidate forest_task_id w = Some c -> busy c w = true ->
     exists msg,
       celery_run_forest E forest_task_id w
         = (Ok tt, set_broker (broker w ++ [msg]) (set_ticks (S (ticks w)) w)) /\
       dispatch_of E (ForestTask.id c) (ticks w) msg).
Proof.
  intros Hq. split; [apply expires_at_window|]. split.
  - unfold create_forest_celery_tasks, bind, gets.
    rewrite scan_run by assumption.
    eexists _, _. split; [reflexivity|]. split; [reflexivity|].
    split; [reflexivity|]. apply scan_messages_ok.
  - intros forest_task_id c Hc Hbusy.
    exists (dispatch_message (ForestTask.id c) (clock E (ticks w))).
    split; [|apply dispatch_message_ok].
    unfold celery_run_forest, bind. now rewrite transaction_run, Hc, Hbusy, Hq.
Qed.

Lemma dispatch_policy_witness :
  fault (Demo.env Demo.quiet Demo.s3_ok Demo.main_none) at_apply_async = None /\
  exists (w' : World) (msgs : list (gmap string pyval)),
    create_forest_celery_tasks (Demo.env Demo.quiet Demo.s3_ok Demo.main_none)
      Demo.three_queued = (Ok tt, w') /\
    length msgs = 3%nat.
Proof.
  split; [reflexivity|].
  destruct (dispatch_policy (Demo.env Demo.quiet Demo.s3_ok Demo.main_none)
              Demo.three_queued eq_refl) as (_ & (w' & msgs & Hrun & _ & _ & Hall) & _).
  exists w', msgs. split; [exact Hrun|].
  apply Forall2_length in Hall. rewrite <- Hall. reflexivity.
Defined.

Lemma row_of_update_row pk F w :
  (forall r, ForestTask.id (F r) = ForestTask.id r) ->
  row_of pk (set_tasks (update_row pk F (tasks w)) w) = F <$> row_of pk w.
Proof.
  intros HF. unfold row_of, update_row. simpl.
  induction (tasks w) as [|r rows IH]; simpl; [reflexivity|].
  destruct (Z.eqb_spec (ForestTask.id r) pk) as [Heq|Hne].
  - rewrite HF, Heq, Z.eqb_refl. reflexivity.
  - apply Z.eqb_neq in Hne. now rewrite Hne.
Qed.

Lemma row_of_started E w t :
  In t (tasks w) ->
  exists r, row_of (ForestTask.id t) (started E w t) = Some r /\
            ForestTask.status r = Status.running.
Proof.
  intros Hin. unfold started.
  change (row_of (ForestTask.id t)
            (set_tasks (update_row (ForestTask.id t) _ (tasks w))
               (set_ticks (S (ticks w)) w)))
    with (row_of (ForestTask.id t)
            (set_tasks
               (update_row (ForestTask.id t)
                  (fun r => fold_left
                     (ForestTask.copy_field (mark_running E (ticks w) t))
                     [ForestTask.f_status; ForestTask.f_forest_version;
                      ForestTask.f_process_start_time] r) (tasks w)) w)).
  rewrite row_of_update_row by reflexivity.
  assert (Hex : exists r0, row_of (ForestTask.id t) w = Some r0).
  { unfold row_of. destruct (List.find _ (tasks w)) as [r0|] eqn:Hf; [eauto|].
    exfalso. apply (find_none _ _ Hf) in Hin. now rewrite Z.eqb_refl in Hin. }
  destruct Hex as [r0 ->]. simpl. eauto.
Qed.

(** With a running row of the candidate's pair, the run writes no row and,
    unless the broker fails, re-dispatches the candidate and returns. *)
Lemma running_sibling_redispatches E forest_task_id w c :
  candidate forest_task_id w = Some c ->
  busy c w = true ->
  tasks (celery_run_forest E forest_task_id w).2 = tasks w /\
  (fault E at_apply_async = None ->
   celery_run_forest E forest_task_id w
   = (Ok tt,
      set_broker
        (broker w ++ [dispatch_message (ForestTask.id c) (clock E (ticks w))])
        (set_ticks (S (ticks w)) w))).
Proof.
  intros Hc Hbusy. unfold celery_run_forest, bind.
  rewrite transaction_run, Hc, Hbusy.
  destruct (fault E at_apply_async); simpl; split;
    try reflexivity; discriminate.
Qed.

(** A row that is running after the transaction was either there before,
    unchanged, or belongs to the pair of a candidate for which the check
    found no running row. *)
Lemma marked_only_when_free E forest_task_id w r :
  unique_ids (tasks w) ->
  In r (tasks (transaction E forest_task_id w).2) ->
  ForestTask.status r = Status.running ->
  In r (tasks w) \/
  exists c, candidate forest_task_id w = Some c /\ busy c w = false /\
            ForestTask.participant r = ForestTask.participant c /\
            ForestTask.forest_tree r = ForestTask.forest_tree c.
Proof.
  intros Hu. rewrite transaction_run.
  destruct (candidate forest_task_id w) as [c|] eqn:Hc; [|now left].
  destruct (busy c w) eqn:Hbusy.
  { destruct (fault E at_apply_async); now left. }
  destruct (first _) as [t|] eqn:Hsel; [|now left].
  destruct (fault E at_get_distribution); [now left|].
  destruct (fault E at_save_running); [now left|].
  destruct (row_exists _ _); [|now left].
  simpl. intros Hr Hs. apply update_row_In in Hr as (r0 & Hr0 & ->).
  destruct (Z.eqb_spec (ForestTask.id r0) (ForestTask.id t)) as [Heq|Hne];
    [|now left].
  right. exists c. split; [reflexivity|]. split; [exact Hbusy|].
  assert (r0 = t) by (now apply (unique_ids_eq (tasks w));
    try apply (selected_is_queued_sibling _ _ _ Hsel)).
  subst r0. destruct (selected_is_queued_sibling _ _ _ Hsel) as (_ & Hp & Htr & _).
  split; assumption.
Qed.

(** C2.  When the coordinator finds the candidate, finds no running sibling
    and some queued one, and neither the package metadata nor the save
    fails, it selects a queued sibling whose [data_date_start] no queued
    sibling exceeds, and the transaction commits with that row running. *)
Theorem newest_data_first E forest_task_id w c :
  candidate forest_task_id w = Some c ->
  busy c w = false ->
  queued_siblings c w <> [] ->
  fault E at_get_distribution = None ->
  fault E at_save_running = None ->
  exists t,
    In t (queued_siblings c w) /\
    (forall u, In u (queued_siblings c w) ->
       ForestTask.data_date_start u <= ForestTask.data_date_start t) /\
    transaction E forest_task_id w
      = (Ok (Some (mark_running E (ticks w) t, ForestTask.participant c)),
         started E w t) /\
    exists r, row_of (ForestTask.id t) (started E w t) = Some r /\
              ForestTask.status r = Status.running.
Proof.
  intros Hc Hbusy Hq Hdist Hsave.
  destruct (first (order_by_desc ForestTask.data_date_start (queued_siblings c w)))
    as [t|] eqn:Hsel.
  2: { apply first_order_by_desc_None in Hsel. contradiction. }
  exists t.
  destruct (first_order_by_desc_max _ _ _ Hsel) as [Hin Hmax].
  destruct (selected_is_queued_sibling _ _ _ Hsel) as (Hrow & _).
  split; [assumption|]. split; [assumption|]. split.
  - rewrite transaction_run, Hc, Hbusy, Hsel, Hdist, Hsave.
    assert (Hex : row_exists (ForestTask.id t) (tasks w) = true)
      by (apply row_exists_true; eauto).
    now rewrite Hex.
  - now apply row_of_started.
Qed.

Lemma newest_data_first_witness :
  candidate 1 Demo.three_queued = Some (Demo.task 1 "a" Demo.jan1 Status.queued) /\
  map ForestTask.data_date_start
    (queued_siblings (Demo.task 1 "a" Demo.jan1 Status.queued) Demo.three_queued)
    = [Demo.jan1; Demo.jan10; Demo.jan5] /\
  (exists t,
     In t (queued_siblings (Demo.task 1 "a" Demo.jan1 Status.queued)
             Demo.three_queued) /\
     Demo.jan10 <= ForestTask.data_date_start t) /\
  map (fun r => (ForestTask.data_date_start r, ForestTask.status r))
    (tasks (transaction (Demo.env Demo.quiet Demo.s3_ok Demo.main_none) 1
              Demo.three_queued).2)
    = [(Demo.jan1, Status.queued); (Demo.jan10, Status.running);
       (Demo.jan5, Status.queued)].
Proof.
  split; [reflexivity|]. split; [reflexivity|]. split; [|reflexivity].
  destruct (newest_data_first (Demo.env Demo.quiet Demo.s3_ok Demo.main_none)
              1 Demo.three_queued (Demo.task 1 "a" Demo.jan1 Status.queued)
              eq_refl eq_refl ltac:(discriminate) eq_refl eq_refl)
    as (t & Hin & Hmax & _).
  exists t. split; [exact Hin|].
  apply (Hmax (Demo.task 2 "b" Demo.jan10 Status.queued)).
  simpl. auto.
Defined.

(** C7, as amended.  When the dispatched task exists and, by the time the
    block runs, a task of its pair is running or none is queued, the run
    mutates no task.  With a task of the pair running (the candidate itself,
    when it was consumed already, or a sibling) the run re-dispatches the
    candidate and, when the broker takes the message, returns without
    raising.  With none running and none queued (the candidate was
    cancelled, or has ended) it returns without raising and leaves the world
    as it was: nothing is dispatched. *)
Theorem nothing_to_run_is_a_no_op E forest_task_id w c :
  candidate forest_task_id w = Some c ->
  busy c w = true \/ queued_siblings c w = [] ->
  tasks (celery_run_forest E forest_task_id w).2 = tasks w /\
  (busy c w = false -> celery_run_forest E forest_task_id w = (Ok tt, w)) /\
  (busy c w = true -> fault E at_apply_async = None ->
   celery_run_forest E forest_task_id w
   = (Ok tt,
      set_broker
        (broker w ++ [dispatch_message (ForestTask.id c) (clock E (ticks w))])
        (set_ticks (S (ticks w)) w))).
Proof.
  intros Hc Hcase. unfold celery_run_forest, bind. rewrite transaction_run, Hc.
  destruct (busy c w) eqn:Hbusy.
  - destruct (fault E at_apply_async); simpl.
    + split; [reflexivity|]. split; discriminate.
    + split; [reflexivity|]. split; [discriminate|reflexivity].
  - destruct Hcase as [Hcase|Hq]; [discriminate|]. rewrite Hq. simpl.
    split; [reflexivity|]. split; [reflexivity|discriminate].
Qed.

Lemma nothing_to_run_is_a_no_op_witness :
  (candidate 1 Demo.nothing_queued
     = Some (Demo.task 1 "a" Demo.jan1 Status.cancelled) /\
   celery_run_forest (Demo.env Demo.quiet Demo.s3_ok Demo.main_none) 1
     Demo.nothing_queued = (Ok tt, Demo.nothing_queued)) /\
  (candidate 1 Demo.one_running
     = Some (Demo.task 1 "a" Demo.jan1 Status.running) /\
   tasks (celery_run_forest (Demo.env Demo.quiet Demo.s3_ok Demo.main_none) 1
            Demo.one_running).2 = tasks Demo.one_running /\
   (celery_run_forest (Demo.env Demo.quiet Demo.s3_ok Demo.main_none) 1
      Demo.one_running).1 = Ok tt).
Proof.
  split.
  - split; [reflexivity|].
    apply (nothing_to_run_is_a_no_op
             (Demo.env Demo.quiet Demo.s3_ok Demo.main_none)
             1 Demo.nothing_queued (Demo.task 1 "a" Demo.jan1 Status.cancelled)
             eq_refl (or_intror eq_refl)).
    reflexivity.
  - split; [reflexivity|].
    destruct (nothing_to_run_is_a_no_op
                (Demo.env Demo.quiet Demo.s3_ok Demo.main_none)
                1 Demo.one_running (Demo.task 1 "a" Demo.jan1 Status.running)
                eq_refl (or_introl eq_refl)) as (Htasks & _ & Hsent).
    split; [exact Htasks|]. now rewrite (Hsent eq_refl eq_refl).
Defined.

(** C7, the claim as stated fails twice.  Task 1 was cancelled, yet its
    dispatch takes the queued task 2 of the same pair, runs it and leaves it
    in error.  And when task 1 is running and the broker refuses the
    re-dispatch, the run raises. *)
Lemma cancelled_candidate_runs_sibling :
  (map (fun r => (ForestTask.id r, ForestTask.status r))
     (tasks Demo.cancelled_and_queued)
   = [(1, Status.cancelled); (2, Status.queued)] /\
   (celery_run_forest (Demo.env Demo.quiet Demo.s3_ok Demo.main_none) 1
      Demo.cancelled_and_queued).1 = Ok tt /\
   map (fun r => (ForestTask.id r, ForestTask.status r))
     (tasks (celery_run_forest (Demo.env Demo.quiet Demo.s3_ok Demo.main_none) 1
               Demo.cancelled_and_queued).2)
   = [(1, Status.cancelled); (2, Status.error)]) /\
  (map (fun r => (ForestTask.id r, ForestTask.status r)) (tasks Demo.one_running)
   = [(1, Status.running); (2, Status.queued)] /\
   (celery_run_forest
      (Demo.env (Demo.failing at_apply_async (Exn "OperationalError" "broker"))
         Demo.s3_ok Demo.main_none) 1 Demo.one_running).1
   = Raise (Exn "OperationalError" "broker")).
Proof. vm_compute. repeat split. Qed.

(** A dispatched id without a row: the first attribute access on the missing
    object raises, and nothing is written. *)
Lemma missing_task_raises E forest_task_id w :
  candidate forest_task_id w = None ->
  celery_run_forest E forest_task_id w
  = (Raise (Exn "AttributeError"
              "'NoneType' object has no attribute 'participant'"), w).
Proof.
  intros Hc. unfold celery_run_forest, bind. now rewrite transaction_run, Hc.
Qed.

(** *** Exclusive creation of the local files *)

Lemma open_x_exists file_name content w :
  files w !! file_name = Some content ->
  open_x file_name w = (Raise (Exn "FileExistsError" file_name), w).
Proof. intros H. unfold open_x, bind, gets. simpl. now rewrite H. Qed.

(** The download of one chunk, seen from outside: it fails and leaves the
    files alone, or it creates a file that was not there. *)
Lemma download_one E t chunk w :
  let file_name :=
    path_join (data_input_path E t) (determine_file_name E chunk) in
  let step :=
    (contents <- of_res (s3_retrieve E (Chunk.chunk_path chunk)
                           (Chunk.study_object_id chunk)) ;;
     open_x file_name ;;;
     text <- of_res (decode_utf8 E contents) ;;
     write file_name text) w in
  (forall path content, files w !! path = Some content ->
     files step.2 !! path = Some content) /\
  (step.1 = Ok tt ->
     files w !! file_name = None /\ is_Some (files step.2 !! file_name)).
Proof.
  intros file_name step. subst step.
  cbv beta iota delta [bind of_res open_x gets write modify raise].
  destruct (s3_retrieve E _ _) as [contents|e]; cbv beta iota.
  2: { split; [auto|]. intros H. discriminate H. }
  destruct (files w !! file_name) as [old|] eqn:Hold; cbv beta iota.
  { split; [auto|]. intros H. discriminate H. }
  destruct (decode_utf8 E contents) as [text|e]; cbv beta iota;
    cbn [fst snd files set_files].
  - split.
    + intros path content Hp.
      rewrite !lookup_insert_ne; [assumption|congruence..].
    + intros _. split; [reflexivity|]. rewrite lookup_insert_eq. eauto.
  - split; [|intros H; discriminate H].
    intros path content Hp. rewrite lookup_insert_ne; [assumption|congruence].
Qed.

(** Files that exist before the download are never written by it. *)
Lemma create_local_data_files_no_overwrite E t chunks w path content :
  files w !! path = Some content ->
  files (create_local_data_files E t chunks w).2 !! path = Some content.
Proof.
  unfold create_local_data_files. revert w.
  induction chunks as [|chunk chunks IH]; intros w Hp; [assumption|].
  cbn [for_each]. unfold bind at 1.
  destruct (download_one E t chunk w) as [Hkeep _]. specialize (Hkeep _ _ Hp).
  cbv zeta in Hkeep.
  destruct ((contents <- of_res _ ;; _) w) as [[[]|e] w1]; simpl in *;
    [now apply IH|assumption].
Qed.

(** A download that succeeds found no target file in place and wrote no
    target twice. *)
Lemma create_local_data_files_fresh E t chunks w w' :
  create_local_data_files E t chunks w = (Ok tt, w') ->
  (forall chunk, In chunk chunks ->
     files w !! path_join (data_input_path E t) (determine_file_name E chunk) = None) /\
  List.NoDup
    (map (fun chunk => path_join (data_input_path E t) (determine_file_name E chunk))
       chunks).
Proof.
  unfold create_local_data_files. revert w.
  induction chunks as [|chunk chunks IH]; intros w Hrun.
  { split; [intros ? []|constructor]. }
  cbn [for_each] in Hrun. apply bind_Ok in Hrun as ([] & w1 & Hone & Hrest).
  destruct (download_one E t chunk w) as [Hkeep Hnew]. cbv zeta in Hkeep, Hnew.
  rewrite Hone in Hkeep, Hnew. simpl in Hkeep, Hnew.
  destruct (Hnew eq_refl) as [Hfree [text Htext]].
  destruct (IH w1 Hrest) as [Hfree' Hnd].
  split.
  - intros c [<-|Hc]; [assumption|].
    specialize (Hfree' c Hc).
    destruct (files w !! path_join _ (determine_file_name E c)) as [old|] eqn:Hold;
      [|reflexivity].
    apply Hkeep in Hold. congruence.
  - simpl. constructor; [|assumption].
    intros Hin. apply in_map_iff in Hin as (c & Hname & Hc).
    specialize (Hfree' c Hc). rewrite Hname in Hfree'. congruence.
Qed.

Lemma try_body_download_raise E chunks fr e w1 :
  create_local_data_files E (tracker fr) chunks (world fr) = (Raise e, w1) ->
  try_body E chunks fr = (Raise e, mkFrame w1 (tracker fr)).
Proof.
  intros H. unfold try_body. unfold bind at 1. unfold with_tracker, lift.
  now rewrite H.
Qed.

(** *** The outcome of a run that reached the [try] statement *)

(** What a run records once its transaction has selected [t], no collaborator
    failed before the [try] statement, the [except] clause took what the body
    raised, and no collaborator fails after the statement. *)
Lemma run_settles E forest_task_id w t :
  selected forest_task_id w = Some t ->
  reaches_try E ->
  settles E ->
  let body := try_body E (chunks_of (ForestTask.participant t) w) (entry E w t) in
  escapes body.1 = None ->
  exists w',
    celery_run_forest E forest_task_id w = (Ok tt, w') /\
    row_of (ForestTask.id t) w' = Some (final_object E body) /\
    blobs w' = blobs (world body.2) /\
    files w' = without_workspace E (final_object E body) (files (world body.2)).
Proof.
  intros Hsel Hreach Hsettle body Hcaught.
  destruct (conclude_settles E body Hcaught Hsettle) as (Hok & Hrow & Hblobs & Hfiles).
  exists (world (conclude E body).2).
  rewrite (celery_run_forest_selected E _ _ _ Hsel Hreach). fold body.
  rewrite Hok. split; [reflexivity|].
  destruct (final_object_fields E (chunks_of (ForestTask.participant t) w)
              (entry E w t)) as (Hid & _).
  fold body in Hid. rewrite Hid in Hrow.
  destruct (entry_fields E w t) as (Hid0 & _). rewrite Hid0 in Hrow.
  auto.
Qed.

(** The record of a body that raised an exception the [except] clause
    takes, shared by the statements below. *)
Lemma pipeline_failure_recorded_core E forest_task_id w t e fr :
  selected forest_task_id w = Some t ->
  reaches_try E ->
  settles E ->
  try_body E (chunks_of (ForestTask.participant t) w) (entry E w t) = (Raise e, fr) ->
  is_Exception e = true ->
  exists w' r,
    celery_run_forest E forest_task_id w = (Ok tt, w') /\
    row_of (ForestTask.id t) w' = Some r /\
    r = final_object E (Raise e, fr) /\
    ForestTask.status r = Status.error /\
    ForestTask.stacktrace r = Some (format_exc e) /\
    ForestTask.process_end_time r = Some (clock E (ticks (world fr))) /\
    blobs w' = blobs w /\
    files w' = without_workspace E r (files (world fr)).
Proof.
  intros Hsel Hreach Hsettle Hbody Hexc.
  assert (Hcaught : escapes (try_body E (chunks_of (ForestTask.participant t) w)
                               (entry E w t)).1 = None)
    by (rewrite Hbody; simpl; now rewrite Hexc).
  destruct (run_settles E _ _ _ Hsel Hreach Hsettle Hcaught)
    as (w' & Hrun & Hrow & Hblobs & Hfiles).
  destruct (final_object_fields E (chunks_of (ForestTask.participant t) w)
              (entry E w t)) as (_ & _ & _ & _ & _ & Hend & Hstatus & Htrace).
  assert (Hb := try_body_blobs E (chunks_of (ForestTask.participant t) w)
                  (entry E w t)).
  cbv zeta in *. rewrite Hbody in *. simpl in *.
  exists w', (final_object E (Raise e, fr)).
  repeat (split; [assumption || reflexivity|]).
  split; [congruence|assumption].
Qed.




(** C4.  The claim does not hold of the code: the body of the [try]
    statement never ends normally, so the [else] clause that sets success
    is not reached.  When the transaction has selected a task, no
    collaborator fails before or after the [try] statement and the download
    of the chunks succeeds, the save of the download-end stamp raises
    TypeError for its keyword [update_field].  The exception is caught, and
    the run returns normally with the task in state error and that TypeError
    as its stack trace; the download-end stamp and process_end are the two
    readings of the clock after process_start; no parameters are cached and
    no artifact is persisted. *)
Theorem misspelt_keyword_fails_the_run E forest_task_id w t w1 :
  selected forest_task_id w = Some t ->
  reaches_try E ->
  settles E ->
  create_local_data_files E (tracker (entry E w t))
    (chunks_of (ForestTask.participant t) w) (world (entry E w t)) = (Ok tt, w1) ->
  exists w' r,
    celery_run_forest E forest_task_id w = (Ok tt, w') /\
    row_of (ForestTask.id t) w' = Some r /\
    ForestTask.status r = Status.error /\
    ForestTask.stacktrace r = Some (format_exc update_field_TypeError) /\
    ForestTask.process_start_time r = Some (clock E (ticks w)) /\
    ForestTask.process_download_end_time r = Some (clock E (S (ticks w))) /\
    ForestTask.process_end_time r = Some (clock E (S (S (ticks w)))) /\
    ForestTask.params_dict_cache r = ForestTask.params_dict_cache t /\
    blobs w' = blobs w.
Proof.
  intros Hsel Hreach Hsettle Hdl.
  assert (Hticks : ticks w1 = S (ticks w)).
  { apply (keeps_at ticks _ _ _ _
             (keeps_create_local_data_files ticks E _ _ (fun _ _ => eq_refl))) in Hdl.
    exact Hdl. }
  assert (Hbody := try_body_run E (chunks_of (ForestTask.participant t) w)
                     (entry E w t)).
  rewrite Hdl in Hbody.
  destruct (pipeline_failure_recorded_core E _ _ _ _ _ Hsel Hreach Hsettle Hbody
              eq_refl)
    as (w' & r & Hrun & Hrow & Hr & Hstatus & Htrace & Hend & Hblobs & _).
  exists w', r. repeat (split; [assumption|]).
  split; [now rewrite Hr|].
  split; [rewrite Hr; simpl; now rewrite Hticks|].
  split; [rewrite Hend; simpl; now rewrite Hticks|].
  split; [now rewrite Hr|assumption].
Qed.

Lemma misspelt_keyword_fails_the_run_witness :
  selected 1 Demo.three_queued = Some (Demo.task 2 "b" Demo.jan10 Status.queued) /\
  files (create_local_data_files (Demo.env Demo.quiet Demo.s3_ok Demo.main_both)
           (Demo.task 2 "b" Demo.jan10 Status.queued) [Demo.chunk]
           Demo.three_queued).2
    !! "/tmp/b/data/7/gps/1.csv" = Some "data of 7/gps/1.csv" /\
  exists w' r,
    celery_run_forest (Demo.env Demo.quiet Demo.s3_ok Demo.main_both) 1
      Demo.three_queued = (Ok tt, w') /\
    row_of 2 w' = Some r /\
    ForestTask.status r = Status.error /\
    ForestTask.stacktrace r = Some (format_exc update_field_TypeError) /\
    blobs w' = [].
Proof.
  split; [reflexivity|]. split; [vm_compute; reflexivity|].
  assert (Hdl :
    create_local_data_files (Demo.env Demo.quiet Demo.s3_ok Demo.main_both)
      (tracker (entry (Demo.env Demo.quiet Demo.s3_ok Demo.main_both)
                  Demo.three_queued (Demo.task 2 "b" Demo.jan10 Status.queued)))
      (chunks_of 7 Demo.three_queued)
      (world (entry (Demo.env Demo.quiet Demo.s3_ok Demo.main_both)
                Demo.three_queued (Demo.task 2 "b" Demo.jan10 Status.queued)))
    = (Ok tt,
       (create_local_data_files (Demo.env Demo.quiet Demo.s3_ok Demo.main_both)
          (tracker (entry (Demo.env Demo.quiet Demo.s3_ok Demo.main_both)
                      Demo.three_queued (Demo.task 2 "b" Demo.jan10 Status.queued)))
          (chunks_of 7 Demo.three_queued)
          (world (entry (Demo.env Demo.quiet Demo.s3_ok Demo.main_both)
                    Demo.three_queued
                    (Demo.task 2 "b" Demo.jan10 Status.queued)))).2)).
  { vm_compute. reflexivity. }
  destruct (misspelt_keyword_fails_the_run
              (Demo.env Demo.quiet Demo.s3_ok Demo.main_both) 1 Demo.three_queued
              (Demo.task 2 "b" Demo.jan10 Status.queued) _
              eq_refl
              (conj eq_refl (conj eq_refl (conj eq_refl eq_refl)))
              (conj eq_refl eq_refl) Hdl)
    as (w' & r & Hrun & Hrow & Hstatus & Htrace & _ & _ & _ & _ & Hblobs).
  exists w', r. repeat (split; [assumption|]). exact Hblobs.
Defined.

(** *** The files a run leaves *)

(** A file that is there after the download of one chunk was there before,
    or is the local file of the chunk. *)
Lemma download_one_origin E t chunk w path content :
  files ((contents <- of_res (s3_retrieve E (Chunk.chunk_path chunk)
                                (Chunk.study_object_id chunk)) ;;
          open_x (local_file E t chunk) ;;;
          text <- of_res (decode_utf8 E contents) ;;
          write (local_file E t chunk) text) w).2 !! path = Some content ->
  files w !! path = Some content \/ path = local_file E t chunk.
Proof.
  cbv beta iota delta [bind of_res open_x gets write modify raise].
  destruct (s3_retrieve E _ _) as [contents|e]; cbv beta iota; [|auto].
  destruct (files w !! local_file E t chunk) as [old|] eqn:Hold; cbv beta iota;
    [auto|].
  destruct (decide (path = local_file E t chunk)) as [->|Hne]; [now right|].
  destruct (decode_utf8 E contents) as [text|e]; cbv beta iota;
    cbn [fst snd files set_files];
    rewrite !lookup_insert_ne by congruence; auto.
Qed.

Lemma create_local_data_files_origin E t chunks w path content :
  files (create_local_data_files E t chunks w).2 !! path = Some content ->
  files w !! path = Some content \/
  exists chunk, In chunk chunks /\ path = local_file E t chunk.
Proof.
  unfold create_local_data_files. revert w.
  induction chunks as [|chunk chunks IH]; intros w; [now left|].
  cbn [for_each]. unfold bind at 1.
  assert (Hone := download_one_origin E t chunk w path content).
  unfold local_file in Hone.
  destruct ((contents <- of_res _ ;; _) w) as [[[]|e] w1]; simpl in *.
  - intros H. apply IH in H as [H|(c & Hc & ->)].
    + apply Hone in H as [H| ->]; [now left|].
      right. exists chunk. split; [now left|reflexivity].
    + right. exists c. split; [now right|reflexivity].
  - intros H. apply Hone in H as [H| ->]; [now left|].
    right. exists chunk. split; [now left|reflexivity].
Qed.

(** The object saved last is the selected task, up to the columns a run
    writes. *)
Lemma final_object_same_task E w t :
  same_task t
    (final_object E (try_body E (chunks_of (ForestTask.participant t) w)
                       (entry E w t))).
Proof.
  rewrite try_body_run.
  destruct (create_local_data_files E _ _ _) as [[[]|e] w1]; repeat split.
Qed.

(** C5, as amended.  On the exit paths of a run that marked a task running
    and on which no exception leaves the coordinator — the exception of the
    body of the [try] statement derives from [Exception] and was caught, and
    neither the file-size step before it nor the final save and the cleanup
    after it failed — the call of [clean_up_files] on the object just saved
    is the last step of the run: the run ends with the task in state success
    or error and with no file left under the task's scratch directory.  When
    the local files of the chunks lie in that directory, none of them is
    left, and every file there is after the run was there before it, with
    the same content. *)
Theorem workspace_removed_when_run_settles E forest_task_id w t :
  selected forest_task_id w = Some t ->
  reaches_try E ->
  settles E ->
  catchable E ->
  exists w' r,
    celery_run_forest E forest_task_id w = (Ok tt, w') /\
    row_of (ForestTask.id t) w' = Some r /\
    (ForestTask.status r = Status.success \/ ForestTask.status r = Status.error) /\
    (exists w5, row_of (ForestTask.id t) w5 = Some r /\
                clean_up_files E r w5 = (Ok tt, w')) /\
    (forall path, is_under (data_base_path E r) path = true ->
                  files w' !! path = None) /\
    (input_in_workspace E t (chunks_of (ForestTask.participant t) w) ->
     (forall chunk, In chunk (chunks_of (ForestTask.participant t) w) ->
        files w' !! local_file E (tracker (entry E w t)) chunk = None) /\
     (forall path content, files w' !! path = Some content ->
        files w !! path = Some content)).
Proof.
  intros Hsel Hreach Hsettle Hcatch.
  destruct (run_settles E _ _ _ Hsel Hreach Hsettle
              (try_body_caught E _ _ Hcatch)) as (w' & Hrun & Hrow & _ & Hfiles).
  destruct (final_object_fields E (chunks_of (ForestTask.participant t) w)
              (entry E w t)) as (_ & _ & _ & _ & _ & _ & Hstatus & _).
  assert (Hsame := final_object_same_task E w t).
  cbv zeta in *.
  set (r := final_object E (try_body E (chunks_of (ForestTask.participant t) w)
                              (entry E w t))) in *.
  assert (Hgone : forall path, is_under (data_base_path E r) path = true ->
                               files w' !! path = None).
  { intros path Hunder. rewrite Hfiles. unfold without_workspace.
    apply map_lookup_filter_None. right. intros content _. simpl.
    now rewrite Hunder. }
  exists w', r. split; [assumption|]. split; [assumption|]. split.
  { rewrite Hstatus. destruct (try_body E _ _).1; auto. }
  split.
  { destruct (conclude_cleanup E _ (try_body_caught E
                (chunks_of (ForestTask.participant t) w) (entry E w t) Hcatch)
                (proj1 Hsettle)) as (w5 & Hrow5 & _ & Hlast).
    fold r in Hrow5, Hlast.
    rewrite (celery_run_forest_selected E _ _ _ Hsel Hreach) in Hrun.
    exists w5. split; [|now rewrite Hlast].
    destruct Hsame as (Hid & _). now rewrite Hid. }
  split; [exact Hgone|].
  intros Hin. split.
  - intros chunk Hchunk. apply Hgone. apply Hin; [repeat split|assumption..].
  - intros path content Hpath. rewrite Hfiles in Hpath.
    unfold without_workspace in Hpath.
    apply map_lookup_filter_Some in Hpath as [Hpath Hout]. simpl in Hout.
    rewrite try_body_files in Hpath.
    apply create_local_data_files_origin in Hpath as [Hpath|(chunk & Hchunk & ->)];
      [exact Hpath|].
    rewrite Hin in Hout; [discriminate|repeat split|assumption..].
Qed.

Lemma workspace_removed_when_run_settles_witness :
  selected 1 Demo.three_queued = Some (Demo.task 2 "b" Demo.jan10 Status.queued) /\
  reaches_try (Demo.env Demo.quiet Demo.s3_ok Demo.main_both) /\
  settles (Demo.env Demo.quiet Demo.s3_ok Demo.main_both) /\
  catchable (Demo.env Demo.quiet Demo.s3_ok Demo.main_both) /\
  input_in_workspace (Demo.env Demo.quiet Demo.s3_ok Demo.main_both)
    (Demo.task 2 "b" Demo.jan10 Status.queued) [Demo.chunk] /\
  exists w' r,
    celery_run_forest (Demo.env Demo.quiet Demo.s3_ok Demo.main_both) 1
      Demo.three_queued = (Ok tt, w') /\
    row_of 2 w' = Some r /\
    files w' !! "/tmp/b/data/7/gps/1.csv" = None /\
    forall path content, files w' !! path = Some content ->
      files Demo.three_queued !! path = Some content.
Proof.
  assert (Hcatch : catchable (Demo.env Demo.quiet Demo.s3_ok Demo.main_both)).
  { split; intros ? ? ?; discriminate || (intros ?; discriminate). }
  assert (Hin : input_in_workspace (Demo.env Demo.quiet Demo.s3_ok Demo.main_both)
                  (Demo.task 2 "b" Demo.jan10 Status.queued) [Demo.chunk]).
  { intros t1 t2 chunk (_ & He1 & _) (_ & He2 & _) [<-|[]].
    unfold local_file. cbn [data_base_path data_input_path determine_file_name
                            Demo.env].
    unfold Demo.base. rewrite <- He1, <- He2. vm_compute. reflexivity. }
  split; [reflexivity|].
  split; [exact (conj eq_refl (conj eq_refl (conj eq_refl eq_refl)))|].
  split; [exact (conj eq_refl eq_refl)|].
  split; [exact Hcatch|]. split; [exact Hin|].
  destruct (workspace_removed_when_run_settles
              (Demo.env Demo.quiet Demo.s3_ok Demo.main_both) 1 Demo.three_queued
              (Demo.task 2 "b" Demo.jan10 Status.queued)
              eq_refl
              (conj eq_refl (conj eq_refl (conj eq_refl eq_refl)))
              (conj eq_refl eq_refl) Hcatch)
    as (w' & r & Hrun & Hrow & _ & _ & _ & Htied).
  destruct (Htied Hin) as [Hnone Hold].
  exists w', r. split; [exact Hrun|]. split; [exact Hrow|].
  split; [exact (Hnone Demo.chunk (or_introl eq_refl))|exact Hold].
Defined.

(** C5, the claim as stated fails on each path by which an exception
    leaves the coordinator.  When the final save raises, the cleanup is not
    reached, and the downloaded file stays in the scratch directory of the
    task.  When the worker is interrupted while it fetches the second chunk,
    the [except] clause lets the interrupt pass, and the file of the first
    chunk stays.  And when the file-size query raises, a file left there by
    an earlier attempt stays. *)
Lemma escaping_exception_skips_cleanup :
  ((celery_run_forest
      (Demo.env (Demo.failing at_final_save (Exn "OperationalError" "gone"))
         Demo.s3_ok Demo.main_both) 1 Demo.three_queued).1
   = Raise (Exn "OperationalError" "gone") /\
   files (celery_run_forest
            (Demo.env (Demo.failing at_final_save (Exn "OperationalError" "gone"))
               Demo.s3_ok Demo.main_both) 1 Demo.three_queued).2
     !! "/tmp/b/data/7/gps/1.csv" = Some "data of 7/gps/1.csv") /\
  ((celery_run_forest
      (Demo.env Demo.quiet (Demo.s3_interrupted_at "7/gps/2.csv") Demo.main_both)
      2 Demo.two_chunks).1
   = Raise (Exn "KeyboardInterrupt" "") /\
   files (celery_run_forest
            (Demo.env Demo.quiet (Demo.s3_interrupted_at "7/gps/2.csv")
               Demo.main_both) 2 Demo.two_chunks).2
     !! "/tmp/b/data/7/gps/1.csv" = Some "data of 7/gps/1.csv") /\
  ((celery_run_forest
      (Demo.env (Demo.failing at_sum_file_size (Exn "OperationalError" "gone"))
         Demo.s3_ok Demo.main_both) 2 Demo.leftover).1
   = Raise (Exn "OperationalError" "gone") /\
   files (celery_run_forest
            (Demo.env (Demo.failing at_sum_file_size (Exn "OperationalError" "gone"))
               Demo.s3_ok Demo.main_both) 2 Demo.leftover).2
     !! "/tmp/b/data/7/gps/1.csv" = Some "old") /\
  is_under (Demo.base (Demo.task 2 "b" Demo.jan10 Status.queued))
    "/tmp/b/data/7/gps/1.csv" = true.
Proof. vm_compute. repeat split. Qed.

(** C10.  The local files are opened in exclusive-create mode: opening a
    name that exists raises FileExistsError and changes nothing, and the
    download never writes a file that existed before it.  So when, for the
    task a run selected, the target name of some chunk exists already or two
    chunks share a target name, the download raises, and — no collaborator
    failing before or after the [try] statement, and what the object store
    and the decoder raise deriving from [Exception], as FileExistsError
    does — the task ends in state error. *)
Theorem existing_local_file_fails_task E forest_task_id w t :
  selected forest_task_id w = Some t ->
  reaches_try E ->
  settles E ->
  let tracker := tracker (entry E w t) in
  let chunks := chunks_of (ForestTask.participant t) w in
  let target chunk :=
    path_join (data_input_path E tracker) (determine_file_name E chunk) in
  (exists chunk, In chunk chunks /\ files w !! target chunk <> None) \/
  ~ List.NoDup (map target chunks) ->
  (forall w0 file_name content,
     files w0 !! file_name = Some content ->
     open_x file_name w0 = (Raise (Exn "FileExistsError" file_name), w0)) /\
  (forall file_name, is_Exception (Exn "FileExistsError" file_name) = true) /\
  (forall path content,
     files w !! path = Some content ->
     files (create_local_data_files E tracker chunks (world (entry E w t))).2 !! path
       = Some content) /\
  (exists e,
     (create_local_data_files E tracker chunks (world (entry E w t))).1 = Raise e) /\
  (catchable E ->
   exists w' r,
     celery_run_forest E forest_task_id w = (Ok tt, w') /\
     row_of (ForestTask.id t) w' = Some r /\
     ForestTask.status r = Status.error).
Proof.
  intros Hsel Hreach Hsettle tr chunks target Hclash.
  split; [intros w0 file_name content; apply open_x_exists|].
  split; [reflexivity|].
  split.
  { intros path content Hp. apply create_local_data_files_no_overwrite.
    exact Hp. }
  assert (Hraise : exists e w1,
    create_local_data_files E tr chunks (world (entry E w t)) = (Raise e, w1)).
  { destruct (create_local_data_files E tr chunks (world (entry E w t)))
      as [[[]|e] w1] eqn:Hrun; [|eauto].
    exfalso. apply create_local_data_files_fresh in Hrun as [Hfree Hnd].
    destruct Hclash as [(chunk & Hin & Hthere)|Hdup]; [|now apply Hdup].
    apply Hthere. apply (Hfree chunk Hin). }
  destruct Hraise as (e & w1 & Hrun).
  split; [exists e; now rewrite Hrun|].
  intros Hcatch.
  assert (Hexc := create_local_data_files_catchable E _ _ _ _ _ Hcatch Hrun).
  apply try_body_download_raise in Hrun.
  destruct (pipeline_failure_recorded_core E _ _ _ _ _ Hsel Hreach Hsettle Hrun Hexc)
    as (w' & r & H1 & H2 & _ & H3 & _).
  eauto.
Qed.

Lemma existing_local_file_fails_task_witness :
  selected 2 Demo.leftover = Some (Demo.task 2 "b" Demo.jan10 Status.queued) /\
  files Demo.leftover !! "/tmp/b/data/7/gps/1.csv" = Some "old" /\
  exists w' r,
    celery_run_forest (Demo.env Demo.quiet Demo.s3_ok Demo.main_both) 2
      Demo.leftover = (Ok tt, w') /\
    row_of 2 w' = Some r /\
    ForestTask.status r = Status.error.
Proof.
  split; [reflexivity|]. split; [reflexivity|].
  assert (Hthere :
    files Demo.leftover
      !! path_join
           (data_input_path (Demo.env Demo.quiet Demo.s3_ok Demo.main_both)
              (tracker (entry (Demo.env Demo.quiet Demo.s3_ok Demo.main_both)
                          Demo.leftover
                          (Demo.task 2 "b" Demo.jan10 Status.queued))))
           (determine_file_name (Demo.env Demo.quiet Demo.s3_ok Demo.main_both)
              Demo.chunk)
    <> None).
  { vm_compute. discriminate. }
  assert (Hcatch : catchable (Demo.env Demo.quiet Demo.s3_ok Demo.main_both)).
  { split; intros ? ? ?; discriminate || (intros ?; discriminate). }
  destruct (existing_local_file_fails_task
              (Demo.env Demo.quiet Demo.s3_ok Demo.main_both) 2 Demo.leftover
              (Demo.task 2 "b" Demo.jan10 Status.queued)
              eq_refl
              (conj eq_refl (conj eq_refl (conj eq_refl eq_refl)))
              (conj eq_refl eq_refl)
              (or_introl (ex_intro _ Demo.chunk (conj (or_introl eq_refl) Hthere))))
    as (_ & _ & _ & _ & Hend).
  destruct (Hend Hcatch) as (w' & r & Hrun & Hrow & Hstatus).
  exists w', r. auto.
Defined.

(** *** The cancel request *)

Lemma update_cancelled_untouched forest_task_id note rows :
  (forall r, In r rows -> cancellable forest_task_id r = false) ->
  update_cancelled forest_task_id note rows = (rows, 0%nat).
Proof.
  intros H. unfold update_cancelled. f_equal.
  - rewrite <- (map_id rows) at 2. apply map_ext_in. intros r Hr.
    now rewrite (H r Hr).
  - induction rows as [|r rows IH]; simpl; [reflexivity|].
    rewrite (H r (or_introl eq_refl)). apply IH. intros r' Hr'. apply H. now right.
Qed.

Lemma update_cancelled_count forest_task_id note rows r :
  In r rows -> cancellable forest_task_id r = true ->
  (0 < (update_cancelled forest_task_id note rows).2)%nat.
Proof.
  intros Hr Hc. unfold update_cancelled. simpl.
  assert (Hin : In r (List.filter (cancellable forest_task_id) rows))
    by (apply filter_In; auto).
  destruct (List.filter _ rows); [destruct Hin|simpl; lia].
Qed.

Lemma update_cancelled_done forest_task_id note rows r' :
  In r' (update_cancelled forest_task_id note rows).1 ->
  cancellable forest_task_id r' = false.
Proof.
  unfold update_cancelled. simpl. rewrite in_map_iff. intros (r & <- & Hr).
  destruct (cancellable forest_task_id r) eqn:Hc; [|assumption].
  unfold cancellable, ForestTask.has_status. simpl. apply andb_false_r.
Qed.

Lemma cancellable_true forest_task_id r :
  cancellable forest_task_id r = true <->
  ForestTask.external_id r = forest_task_id /\ ForestTask.status r = Status.queued.
Proof.
  unfold cancellable. rewrite andb_true_iff, String.eqb_eq, has_status_true. tauto.
Qed.

(** How the view answers a POST that names a task. *)
Lemma task_log_post E req forest_task_id w :
  String.eqb (method req) "GET" = false ->
  task_id req = Some forest_task_id ->
  task_log E req w =
  if session_site_admin req then
    let note := "Canceled by " +:+ session_username req +:+ " on "
                +:+ isoformat E (date_of (clock E (ticks w))) in
    let out := update_cancelled forest_task_id note (tasks w) in
    (Ok (if (0 <? out.2)%nat
         then Redirect "Forest task successfully cancelled." "success"
         else Redirect "Sorry, we were unable to find or cancel this Forest task."
                "warning"),
     set_tasks out.1 (set_ticks (S (ticks w)) w))
  else (Ok (Abort 403), w).
Proof.
  intros Hm Hid. unfold task_log. rewrite Hm, Hid.
  destruct (session_site_admin req); [|reflexivity].
  cbv beta iota zeta delta [negb bind now ret].
  destruct (update_cancelled _ _ _) as [rows n]. cbn [fst snd].
  now destruct (0 <? n)%nat.
Qed.

(** C6.  A cancel request (a POST that names a task) cancels queued rows
    only: every row of the table is left as it was, or it was a queued row
    with the requested external id and is now cancelled with the note
    "Canceled by <researcher> on <date>"; a queued task requested by a site
    admin is cancelled and the request reports success.  When no row with
    the requested id is queued — the task is running, finished, failed or
    cancelled already — the request does not report success and no row
    changes; so after an admin's cancel every further cancel of the same id
    fails and changes nothing. *)
Theorem cancel_only_queued E req forest_task_id w :
  String.eqb (method req) "GET" = false ->
  task_id req = Some forest_task_id ->
  let note := "Canceled by " +:+ session_username req +:+ " on "
              +:+ isoformat E (date_of (clock E (ticks w))) in
  let cancelled r :=
    ForestTask.set_stacktrace (Some note) (ForestTask.set_status Status.cancelled r) in
  let success := Ok (Redirect "Forest task successfully cancelled." "success") in
  let out := task_log E req w in
  Forall2 (fun r r' =>
             r' = r \/
             (ForestTask.external_id r = forest_task_id /\
              ForestTask.status r = Status.queued /\ r' = cancelled r))
    (tasks w) (tasks out.2) /\
  (session_site_admin req = true ->
   forall r, In r (tasks w) ->
     ForestTask.external_id r = forest_task_id ->
     ForestTask.status r = Status.queued ->
     out.1 = success /\ In (cancelled r) (tasks out.2)) /\
  ((forall r, In r (tasks w) -> ForestTask.external_id r = forest_task_id ->
      ForestTask.status r <> Status.queued) ->
   out.1 <> success /\ tasks out.2 = tasks w) /\
  (session_site_admin req = true ->
   forall E' req',
     String.eqb (method req') "GET" = false ->
     task_id req' = Some forest_task_id ->
     (task_log E' req' out.2).1 <> success /\
     tasks (task_log E' req' out.2).2 = tasks out.2).
Proof.
  intros Hm Hid note cancelled success out.
  assert (Hnone : forall E0 req0 w0,
    String.eqb (method req0) "GET" = false ->
    task_id req0 = Some forest_task_id ->
    (forall r, In r (tasks w0) -> cancellable forest_task_id r = false) ->
    (task_log E0 req0 w0).1 <> success /\ tasks (task_log E0 req0 w0).2 = tasks w0).
  { intros E0 req0 w0 Hm0 Hid0 Hno. rewrite (task_log_post E0 _ _ _ Hm0 Hid0).
    destruct (session_site_admin req0); [|split; [discriminate|reflexivity]].
    cbv zeta. rewrite update_cancelled_untouched by assumption.
    split; [discriminate|reflexivity]. }
  subst out. rewrite (task_log_post E _ _ _ Hm Hid).
  fold note. cbv zeta.
  destruct (session_site_admin req) eqn:Hadmin.
  - cbn [fst snd tasks set_tasks].
    split; [|split; [|split]].
    + unfold update_cancelled. cbn [fst].
      induction (tasks w) as [|r rows IH]; simpl; constructor; [|exact IH].
      destruct (cancellable forest_task_id r) eqn:Hc; [|now left].
      apply cancellable_true in Hc as [Hext Hq]. right. auto.
    + intros _ r Hr Hext Hq.
      assert (Hc : cancellable forest_task_id r = true)
        by (apply cancellable_true; auto).
      assert (Hpos := update_cancelled_count forest_task_id note _ _ Hr Hc).
      apply Nat.ltb_lt in Hpos. rewrite Hpos. split; [reflexivity|].
      unfold update_cancelled. cbn [fst]. apply in_map_iff.
      exists r. now rewrite Hc.
    + intros Hno.
      rewrite update_cancelled_untouched.
      * split; [discriminate|reflexivity].
      * intros r Hr. destruct (cancellable forest_task_id r) eqn:Hc; [|reflexivity].
        apply cancellable_true in Hc as [Hext Hq]. now destruct (Hno r Hr Hext).
    + intros _ E' req' Hm' Hid'. apply Hnone; try assumption.
      intros r' Hr'. cbn [tasks set_tasks] in Hr'.
      now apply update_cancelled_done in Hr'.
  - cbn [fst snd].
    split; [|split; [discriminate|split; [|discriminate]]].
    + induction (tasks w) as [|r rows IH]; constructor; [now left|exact IH].
    + intros _. split; [discriminate|reflexivity].
Qed.

Lemma cancel_only_queued_witness :
  String.eqb (method (mkRequest "POST" "alice" true (Some "b"))) "GET" = false /\
  map (fun r => (ForestTask.external_id r, ForestTask.status r, ForestTask.stacktrace r))
    (tasks (task_log (Demo.env Demo.quiet Demo.s3_ok Demo.main_none)
              (mkRequest "POST" "alice" true (Some "b")) Demo.one_running).2)
  = [("a", Status.running, None);
     ("b", Status.cancelled, Some "Canceled by alice on 2021-02-05")] /\
  (task_log (Demo.env Demo.quiet Demo.s3_ok Demo.main_none)
     (mkRequest "POST" "alice" true (Some "b")) Demo.one_running).1
  = Ok (Redirect "Forest task successfully cancelled." "success") /\
  (task_log (Demo.env Demo.quiet Demo.s3_ok Demo.main_none)
     (mkRequest "POST" "alice" true (Some "b"))
     (task_log (Demo.env Demo.quiet Demo.s3_ok Demo.main_none)
        (mkRequest "POST" "alice" true (Some "b")) Demo.one_running).2).1
  <> Ok (Redirect "Forest task successfully cancelled." "success").
Proof.
  destruct (cancel_only_queued (Demo.env Demo.quiet Demo.s3_ok Demo.main_none)
              (mkRequest "POST" "alice" true (Some "b")) "b" Demo.one_running
              eq_refl eq_refl) as (_ & Hdo & _ & Hagain).
  split; [reflexivity|]. split; [vm_compute; reflexivity|].
  split.
  - apply (Hdo eq_refl (Demo.task 2 "b" Demo.jan10 Status.queued)).
    + simpl. auto.
    + reflexivity.
    + reflexivity.
  - apply (Hagain eq_refl (Demo.env Demo.quiet Demo.s3_ok Demo.main_none)
             (mkRequest "POST" "alice" true (Some "b")) eq_refl eq_refl).
Defined.

(** *** The status grid *)

Lemma daterange_In start stop d :
  In d (daterange start stop) <-> start <= d <= stop.
Proof.
  unfold daterange. rewrite in_map_iff. split.
  - intros (i & <- & Hi). apply in_seq in Hi. lia.
  - intros Hd. exists (Z.to_nat (d - start)). split; [lia|].
    apply in_seq. lia.
Qed.

Lemma covers_true p tr d t :
  covers p tr d t = true <->
  ForestTask.participant t = p /\ ForestTask.forest_tree t = tr /\
  ForestTask.data_date_start t <= d <= ForestTask.data_date_end t.
Proof.
  unfold covers.
  rewrite !andb_true_iff, Z.eqb_eq, String.eqb_eq, !Z.leb_le. tauto.
Qed.

(** One tracker writes its status at the cells it covers and leaves the
    others. *)
Lemma record_tracker_lookup results t p tr d :
  record_tracker results t !! (p, tr, d)
  = if covers p tr d t then Some (ForestTask.status t) else results !! (p, tr, d).
Proof.
  unfold record_tracker.
  assert (Hgen : forall dates (m : gmap (Z * string * Z) Status.t),
    fold_left (fun results date =>
        <[(ForestTask.participant t, ForestTask.forest_tree t, date)
          := ForestTask.status t]> results) dates m !! (p, tr, d)
    = if Z.eqb (ForestTask.participant t) p
         && String.eqb (ForestTask.forest_tree t) tr
         && existsb (Z.eqb d) dates
      then Some (ForestTask.status t) else m !! (p, tr, d)).
  { induction dates as [|date dates IH]; intros m; simpl.
    - now rewrite andb_false_r.
    - rewrite IH.
      destruct (Z.eqb_spec (ForestTask.participant t) p) as [Hp|Hp];
        destruct (String.eqb_spec (ForestTask.forest_tree t) tr) as [Htr|Htr];
        simpl; try (rewrite lookup_insert_ne by congruence; reflexivity).
      destruct (existsb (Z.eqb d) dates); simpl; [now rewrite orb_true_r|].
      rewrite orb_false_r.
      destruct (Z.eqb_spec d date) as [->|Hd].
      + subst. apply lookup_insert_eq.
      + rewrite lookup_insert_ne by congruence. reflexivity. }
  rewrite Hgen. unfold covers.
  destruct (Z.eqb _ p && String.eqb _ tr); simpl; [|reflexivity].
  destruct (existsb (Z.eqb d) _) eqn:Hex.
  - apply existsb_exists in Hex as (x & Hx & Hdx). apply Z.eqb_eq in Hdx. subst x.
    apply daterange_In in Hx.
    destruct (Z.leb_spec (ForestTask.data_date_start t) d);
      destruct (Z.leb_spec d (ForestTask.data_date_end t)); simpl; try reflexivity; lia.
  - destruct (Z.leb_spec (ForestTask.data_date_start t) d);
      destruct (Z.leb_spec d (ForestTask.data_date_end t)); simpl; try reflexivity.
    exfalso. assert (Hin : In d (daterange (ForestTask.data_date_start t)
                                   (ForestTask.data_date_end t)))
      by (apply daterange_In; lia).
    assert (existsb (Z.eqb d) (daterange (ForestTask.data_date_start t)
                                 (ForestTask.data_date_end t)) = true); [|congruence].
    apply existsb_exists. exists d. split; [assumption|apply Z.eqb_refl].
Qed.

(** The cell read from [results] is the status of the last covering tracker
    in the order of the loop. *)
Lemma build_results_get trackers p tr d :
  results_get (build_results trackers) (p, tr, d)
  = match last_covering p tr d trackers with
    | Some t => shown (ForestTask.status t)
    | None => dashes
    end.
Proof.
  unfold results_get, build_results, last_covering.
  assert (Hgen : forall ts (m : gmap (Z * string * Z) Status.t) acc,
    m !! (p, tr, d) = ForestTask.status <$> acc ->
    fold_left record_tracker ts m !! (p, tr, d)
    = ForestTask.status <$>
        fold_left (fun acc t => if covers p tr d t then Some t else acc) ts acc).
  { induction ts as [|t ts IH]; intros m acc Hm; simpl; [assumption|].
    apply IH. rewrite record_tracker_lookup.
    destruct (covers p tr d t); [reflexivity|assumption]. }
  rewrite (Hgen trackers ∅ None) by apply lookup_empty.
  now destruct (fold_left _ trackers None).
Qed.

Lemma last_covering_snoc p tr d ts t :
  last_covering p tr d (ts ++ [t])
  = if covers p tr d t then Some t else last_covering p tr d ts.
Proof. unfold last_covering. now rewrite fold_left_app. Qed.

Lemma StronglySorted_snoc {A} (R : A -> A -> Prop) l x :
  StronglySorted R (l ++ [x]) -> StronglySorted R l /\ Forall (fun u => R u x) l.
Proof.
  induction l as [|y l IH]; simpl; intros H; [split; constructor|].
  inversion H as [|? ? Hs Hall]; subst.
  destruct (IH Hs) as [Hs' Hx]. split.
  - constructor; [assumption|].
    rewrite List.Forall_forall in Hall |- *. intros u Hu. apply Hall.
    apply in_or_app. now left.
  - constructor; [|assumption].
    rewrite List.Forall_forall in Hall. apply Hall. apply in_or_app. right. now left.
Qed.

(** In a list sorted by creation time the last covering task is a most
    recent one. *)
Lemma last_covering_sorted p tr d ts :
  StronglySorted (fun a b => ForestTask.created_on a <= ForestTask.created_on b) ts ->
  match last_covering p tr d ts with
  | Some t =>
      In t ts /\ covers p tr d t = true /\
      forall u, In u ts -> covers p tr d u = true ->
        ForestTask.created_on u <= ForestTask.created_on t
  | None => forall u, In u ts -> covers p tr d u = false
  end.
Proof.
  induction ts as [|x ts IH] using rev_ind; intros Hs.
  { simpl. intros u []. }
  apply StronglySorted_snoc in Hs as [Hs Hx]. specialize (IH Hs).
  rewrite last_covering_snoc. destruct (covers p tr d x) eqn:Hc.
  - split; [apply in_or_app; right; now left|]. split; [assumption|].
    intros u Hu _. apply in_app_or in Hu as [Hu|[<-|[]]]; [|lia].
    rewrite List.Forall_forall in Hx. now apply Hx.
  - destruct (last_covering p tr d ts) as [t|].
    + destruct IH as (Hin & Hct & Hmax). split; [apply in_or_app; now left|].
      split; [assumption|].
      intros u Hu Hcu. apply in_app_or in Hu as [Hu|[<-|[]]]; [now apply Hmax|].
      congruence.
    + intros u Hu. apply in_app_or in Hu as [Hu|[<-|[]]]; [now apply IH|assumption].
Qed.

Lemma is_member_true x l : is_member x l = true <-> In x l.
Proof.
  unfold is_member. rewrite existsb_exists. split.
  - intros (y & Hy & Heq). apply Z.eqb_eq in Heq. now subst.
  - intros Hx. exists x. split; [assumption|apply Z.eqb_refl].
Qed.

(** The cells of the participants of the study are right. *)
Lemma grid_cell participants rows p tr d :
  In p participants ->
  grid_cell_ok rows p tr d
    (results_get
       (build_results
          (order_by ForestTask.created_on
             (List.filter
                (fun r => is_member (ForestTask.participant r) participants) rows)))
       (p, tr, d)).
Proof.
  intros Hp. rewrite build_results_get.
  set (trackers := order_by ForestTask.created_on _).
  assert (Hin : forall u, In u rows -> covers p tr d u = true -> In u trackers).
  { intros u Hu Hc. apply sort_by_In. apply filter_In. split; [assumption|].
    apply is_member_true. apply covers_true in Hc as (-> & _). assumption. }
  assert (Hsub : forall u, In u trackers -> In u rows).
  { intros u Hu. apply sort_by_In in Hu. now apply filter_In in Hu as [Hu _]. }
  assert (Hlast := last_covering_sorted p tr d trackers
                     (order_by_sorted ForestTask.created_on _)).
  destruct (last_covering p tr d trackers) as [t|].
  - right. destruct Hlast as (Ht & Hct & Hmax). exists t.
    repeat split; auto.
  - left. split; [|reflexivity]. intros u Hu.
    destruct (covers p tr d u) eqn:Hc; [|reflexivity].
    specialize (Hlast u (Hin u Hu Hc)). congruence.
Qed.

(** C8.  The view computes the grid without writing a row.  The range of
    the grid runs from the day of the earliest chunk of the study's
    participants to the day of their latest chunk, or, when they have no
    chunk, from the day the study was created to the day of the request.
    Its columns are the dates of the range, first to last; its
    rows are, in order, the cross product of the study's participants and
    the fixed list of trees, each with one cell per column; and the cell of
    a participant, a tree and a date shows the status of a most recently
    created task of that participant and tree whose inclusive date range
    contains the date, or the dashes when there is no such task. *)
Theorem status_grid E study w :
  tasks (analysis_progress E study w).2 = tasks w /\
  exists page (cell_at : Z -> string -> Z -> cell),
    (analysis_progress E study w).1 = Ok page /\
    spans_the_data E study w (start_date page) (end_date page) /\
    chart_columns page = daterange (start_date page) (end_date page) /\
    (forall d, In d (chart_columns page) <-> start_date page <= d <= end_date page) /\
    chart page =
      flat_map (fun p =>
        map (fun tr => mkRow p tr (map (cell_at p tr) (chart_columns page)))
          (ForestTree_values E))
        (study_participants study) /\
    forall p tr d, In p (study_participants study) ->
      grid_cell_ok (tasks w) p tr d (cell_at p tr d).
Proof.
  unfold analysis_progress.
  cbv beta iota zeta delta [bind gets].
  set (trackers := order_by ForestTask.created_on _).
  set (cell_at := fun (p : Z) (tr : string) (d : Z) =>
                    results_get (build_results trackers) (p, tr, d)).
  fold (study_chunks study w).
  destruct (first (order_by Chunk.time_bin (study_chunks study w)))
    as [earliest|] eqn:He;
    [destruct (first (order_by_desc Chunk.time_bin (study_chunks study w)))
       as [latest|] eqn:Hl|];
    cbv beta iota zeta delta [bind ret now]; cbn [fst snd tasks set_ticks];
    (split; [reflexivity|]);
    (eexists _, cell_at; split; [reflexivity|]);
    cbn [chart_columns chart start_date end_date];
    (split; [|split; [reflexivity|split; [intros d; apply daterange_In|
       split; [reflexivity|intros p tr d Hp; apply grid_cell; exact Hp]]]]).
  - right. exists earliest, latest.
    apply first_order_by_min in He as [Hein Hmin].
    apply first_order_by_desc_max in Hl as [Hlin Hmax].
    split; [assumption|]. split; [assumption|].
    split; [|split; reflexivity].
    intros c Hc. split; [now apply Hmin|now apply Hmax].
  - left. apply first_order_by_desc_None in Hl. now split.
  - left. apply first_order_by_None in He. now split.
Qed.

(** The grid of a study with two participants: participant 7 has one
    successful jasmine task over 2021-01-01 to 2021-01-05, participant 8 has
    none; the chunks span 2020-12-31 to 2021-01-07. *)
Lemma status_grid_example :
  (analysis_progress (Demo.env Demo.quiet Demo.s3_ok Demo.main_none)
     (mkStudy 0 [7; 8]) Demo.one_success).1
  = Ok (mkPage
          [18627; 18628; 18629; 18630; 18631; 18632; 18633; 18634]
          [mkRow 7 "jasmine"
             [dashes; shown Status.success; shown Status.success;
              shown Status.success; shown Status.success; shown Status.success;
              dashes; dashes];
           mkRow 7 "willow"
             [dashes; dashes; dashes; dashes; dashes; dashes; dashes; dashes];
           mkRow 8 "jasmine"
             [dashes; dashes; dashes; dashes; dashes; dashes; dashes; dashes];
           mkRow 8 "willow"
             [dashes; dashes; dashes; dashes; dashes; dashes; dashes; dashes]]
          18627 18634).
Proof. vm_compute. reflexivity. Qed.

(** *** Coordinators side by side: what every step keeps *)

Lemma update_row_elsewhere pk f rows r :
  (forall x, ForestTask.id x = pk -> ForestTask.id (f x) = pk) ->
  ForestTask.id r <> pk ->
  In r (update_row pk f rows) <-> In r rows.
Proof.
  intros Hf Hr. rewrite update_row_In. split.
  - intros (x & Hx & ->).
    destruct (Z.eqb_spec (ForestTask.id x) pk) as [Heq|Hne]; [|assumption].
    now destruct Hr; apply Hf.
  - intros Hin. exists r. split; [assumption|].
    apply Z.eqb_neq in Hr. now rewrite Hr.
Qed.

Lemma elsewhere_lift pk rows0 {A} (m : M World A) :
  keeps tasks m -> preserves (elsewhere pk rows0) (lift m).
Proof.
  intros Hm fr [Hid Hrows]. unfold lift, elsewhere in *. specialize (Hm (world fr)).
  destruct (m (world fr)) as [r w']. simpl in *. rewrite Hm. now split.
Qed.

Lemma elsewhere_assign pk rows0 f :
  benign f -> preserves (elsewhere pk rows0) (assign f).
Proof.
  intros Hf fr [Hid Hrows]. unfold assign, modify, elsewhere. simpl.
  split; [|assumption]. now rewrite (proj1 (Hf (tracker fr))).
Qed.

Lemma copy_fields_id t fs r :
  ForestTask.id (fold_left (ForestTask.copy_field t) fs r) = ForestTask.id r.
Proof.
  revert r. induction fs as [|f fs IH]; intros r; simpl; [reflexivity|].
  rewrite IH. now destruct f.
Qed.

Lemma elsewhere_save pk rows0 E s update_fields :
  preserves (elsewhere pk rows0) (with_tracker (save E s update_fields)).
Proof.
  intros fr [Hid Hrows].
  unfold with_tracker, lift, save, bind, call, gets, modify, raise, elsewhere.
  destruct (fault E s); simpl; [now split|].
  destruct update_fields as [fs|];
    destruct (row_exists (ForestTask.id (tracker fr)) (tasks (world fr)));
    simpl; (split; [assumption|]); try assumption; intros r Hr.
  - rewrite <- Hrows by assumption. rewrite Hid.
    apply update_row_elsewhere; [|assumption].
    intros x Hx. now rewrite copy_fields_id.
  - rewrite <- Hrows by assumption. rewrite Hid.
    apply update_row_elsewhere; [|assumption]. intros x Hx. assumption.
  - rewrite <- Hrows by assumption. rewrite in_app_iff. simpl.
    split; [|auto]. intros [H|[H|[]]]; [assumption|]. subst r. contradiction.
Qed.

Lemma after_transaction_elsewhere E p w t :
  forall r, ForestTask.id r <> ForestTask.id t ->
    In r (tasks (world (after_transaction E p (mkFrame w t)).2)) <-> In r (tasks w).
Proof.
  assert (H : preserves (elsewhere (ForestTask.id t) (tasks w))
                (after_transaction E p)).
  { apply after_transaction_preserves.
    - intros A m. apply elsewhere_lift.
    - intros f. apply elsewhere_assign.
    - intros s uf _. apply elsewhere_save. }
  apply (H (mkFrame w t)). split; [reflexivity|]. intros r _. reflexivity.
Qed.

(** The row of a coordinator survives any write that leaves the rows under
    its key alone. *)
Lemma holds_row_same rows rows' t :
  (forall r, ForestTask.id r = ForestTask.id t -> (In r rows' <-> In r rows)) ->
  holds_row rows t -> holds_row rows' t.
Proof.
  intros Hsame (Hs & Hex & Hrow). split; [assumption|]. split.
  - apply row_exists_true in Hex as (r & Hr & Hid).
    apply row_exists_true. exists r. split; [|assumption]. now apply Hsame.
  - intros r Hr Hid. apply Hrow; [|assumption]. now apply Hsame.
Qed.

Lemma keeps_tasks_create_forest_celery_tasks E :
  keeps tasks (create_forest_celery_tasks E).
Proof.
  apply keeps_bind; [apply keeps_gets|]. intros pending.
  apply keeps_for_each. intros tracker. now apply keeps_enqueue_forest_task.
Qed.

Lemma keeps_tasks_analysis_progress E study :
  keeps tasks (analysis_progress E study).
Proof.
  unfold analysis_progress.
  apply keeps_bind; [apply keeps_gets|]. intros trackers.
  apply keeps_bind; [apply keeps_gets|]. intros chunks.
  apply keeps_bind; [|intros range; apply keeps_ret].
  destruct (first (order_by _ _)); [destruct (first (order_by_desc _ _))|];
    try apply keeps_ret;
    (apply keeps_bind; [now apply keeps_now|intros ?; apply keeps_ret]).
Qed.

(** The table after any request to the task log: as it was, or with the
    queued rows of one external id cancelled. *)
Lemma task_log_tasks E req w :
  tasks (task_log E req w).2 = tasks w \/
  exists forest_task_id note,
    tasks (task_log E req w).2 = (update_cancelled forest_task_id note (tasks w)).1.
Proof.
  unfold task_log.
  destruct (String.eqb (method req) "GET"); [now left|].
  destruct (session_site_admin req); [|now left].
  destruct (task_id req) as [forest_task_id|]; [|now left].
  right.
  exists forest_task_id,
    ("Canceled by " +:+ session_username req +:+ " on "
     +:+ isoformat E (date_of (clock E (ticks w)))).
  cbv beta iota zeta delta [negb bind now ret].
  change (tasks (set_ticks (S (ticks w)) w)) with (tasks w).
  destruct (update_cancelled _ _ (tasks w)) as [rows n]. cbn [fst snd].
  now destruct (0 <? n)%nat.
Qed.

(** *** Two workers on one pair *)

(** Neither part of the block writes a row before it raises, so nothing is
    rolled back when the block is left by an exception. *)
Lemma check_running_tasks E forest_task_id :
  keeps tasks (check_running E forest_task_id).
Proof.
  intros w. rewrite check_running_run.
  destruct (candidate forest_task_id w) as [c|]; [|reflexivity].
  destruct (busy c w); [|reflexivity].
  destruct (fault E at_apply_async); reflexivity.
Qed.

Lemma select_queued_raise E c w e w' :
  select_queued E c w = (Raise e, w') -> tasks w' = tasks w.
Proof.
  rewrite select_queued_run.
  destruct (first _) as [t|]; [|discriminate].
  destruct (fault E at_get_distribution); [now intros [= _ <-]|].
  destruct (fault E at_save_running); [now intros [= _ <-]|].
  destruct (row_exists _ _); [discriminate|now intros [= _ <-]].
Qed.

(** A worker that runs the block with no step of another in between is one
    of the interleavings. *)
Lemma transaction_in_two_steps E forest_task_id w checked runs :
  exists checked',
    rtc step (mkSystem w checked runs)
      (mkSystem (transaction E forest_task_id w).2 checked'
         (match (transaction E forest_task_id w).1 with
          | Ok (Some run) => run :: runs
          | _ => runs
          end)).
Proof.
  assert (Hcheck := step_check_running E forest_task_id (mkSystem w checked runs)).
  cbn [sys_world sys_checked sys_runs] in Hcheck.
  rewrite transaction_run. rewrite check_running_run in Hcheck.
  destruct (candidate forest_task_id w) as [c|].
  2:{ eexists. apply rtc_once. exact Hcheck. }
  destruct (busy c w).
  { destruct (fault E at_apply_async); eexists; apply rtc_once; exact Hcheck. }
  cbn [fst snd] in Hcheck.
  assert (Hselect := step_select_queued E c [] checked
                       (mkSystem w (c :: checked) runs) eq_refl).
  cbn [sys_world sys_checked sys_runs app] in Hselect.
  rewrite select_queued_run in Hselect.
  exists checked. eapply rtc_l; [exact Hcheck|]. apply rtc_once.
  destruct (first _) as [t|]; [|exact Hselect].
  destruct (fault E at_get_distribution); [exact Hselect|].
  destruct (fault E at_save_running); [exact Hselect|].
  destruct (row_exists _ _); exact Hselect.
Qed.

(** C1.  The claim does not hold of the code when two workers overlap.
    The table holds three queued tasks of one pair, and the messages for
    tasks 1 and 3 reach two workers.  Each worker looks the pair up for a
    running task and finds none, before either has selected.  The first
    then selects the newest queued task of the pair, task 2, and marks it
    running; the second selects the newest task still queued, task 3, and
    marks it running too.  Two tasks of the pair are running at once. *)
Theorem two_workers_mark_two_tasks :
  system_ok (mkSystem Demo.three_queued [] []) /\
  exists sys1 sys2 sys3 sys4,
    step (mkSystem Demo.three_queued [] []) sys1 /\
    sys_checked sys1 = [Demo.task 1 "a" Demo.jan1 Status.queued] /\
    step sys1 sys2 /\
    sys_checked sys2 = [Demo.task 3 "c" Demo.jan5 Status.queued;
                        Demo.task 1 "a" Demo.jan1 Status.queued] /\
    map (fun r => (ForestTask.id r, ForestTask.status r)) (tasks (sys_world sys2))
    = [(1, Status.queued); (2, Status.queued); (3, Status.queued)] /\
    step sys2 sys3 /\
    map (fun r => (ForestTask.id r, ForestTask.status r)) (tasks (sys_world sys3))
    = [(1, Status.queued); (2, Status.running); (3, Status.queued)] /\
    step sys3 sys4 /\
    map (fun r => (ForestTask.id r, ForestTask.status r)) (tasks (sys_world sys4))
    = [(1, Status.queued); (2, Status.running); (3, Status.running)] /\
    map ForestTask.id (running_for 7 "jasmine" (tasks (sys_world sys4))) = [2; 3] /\
    ~ at_most_one_running (tasks (sys_world sys4)).
Proof.
  split.
  { split; [|split; [|split]].
    - unfold unique_ids. simpl. repeat constructor; simpl; intuition discriminate.
    - intros p tr. unfold running_for. simpl.
      change (ForestTask.has_status Status.running
                (Demo.task 1 "a" Demo.jan1 Status.queued)) with false.
      change (ForestTask.has_status Status.running
                (Demo.task 2 "b" Demo.jan10 Status.queued)) with false.
      change (ForestTask.has_status Status.running
                (Demo.task 3 "c" Demo.jan5 Status.queued)) with false.
      rewrite !andb_false_r. simpl. lia.
    - constructor.
    - intros run []. }
  eexists _, _, _, _.
  split; [apply (step_check_running
                   (Demo.env Demo.quiet Demo.s3_ok Demo.main_none) 1)|].
  split; [reflexivity|].
  split; [apply (step_check_running
                   (Demo.env Demo.quiet Demo.s3_ok Demo.main_none) 3)|].
  split; [reflexivity|]. split; [reflexivity|].
  split; [apply (step_select_queued
                   (Demo.env Demo.quiet Demo.s3_ok Demo.main_none)
                   (Demo.task 1 "a" Demo.jan1 Status.queued)
                   [Demo.task 3 "c" Demo.jan5 Status.queued] []); reflexivity|].
  split; [vm_compute; reflexivity|].
  split; [apply (step_select_queued
                   (Demo.env Demo.quiet Demo.s3_ok Demo.main_none)
                   (Demo.task 3 "c" Demo.jan5 Status.queued) [] []); reflexivity|].
  split; [vm_compute; reflexivity|].
  split; [vm_compute; reflexivity|].
  intros Hone. specialize (Hone 7 "jasmine"). vm_compute in Hone. lia.
Qed.

(* ===================================================================== *)
(** ** Further properties of the code                                     *)
(* ===================================================================== *)

(** *** The dispatch options, seen by a caller *)

Lemma expires_at_minute utcnow :
  expires_at utcnow = 60 * 1000000 * (utcnow / (60 * 1000000) + 5) + 30 * 1000000.
Proof.
  unfold expires_at. cbv zeta.
  replace (utcnow + 5 * 60 * 1000000) with (utcnow + 5 * (60 * 1000000)) by lia.
  rewrite (Z.mod_eq (utcnow + 5 * (60 * 1000000)) (60 * 1000000)) by lia.
  rewrite Z.div_add by lia. lia.
Qed.

(** X2.  The expiry of a dispatch depends only on the minute in which the
    clock was read: two readings within one minute give the same expiry,
    and the expiry always falls on second 30 of a minute. *)
Theorem expiry_falls_on_second_30 utcnow utcnow' :
  utcnow / (60 * 1000000) = utcnow' / (60 * 1000000) ->
  expires_at utcnow = expires_at utcnow' /\
  expires_at utcnow mod (60 * 1000000) = 30 * 1000000.
Proof.
  intros Hmin. rewrite !expires_at_minute, Hmin. split; [reflexivity|].
  replace (60 * 1000000 * (utcnow' / (60 * 1000000) + 5) + 30 * 1000000)
    with (30 * 1000000 + (utcnow' / (60 * 1000000) + 5) * (60 * 1000000)) by lia.
  rewrite Z.mod_add by lia. reflexivity.
Qed.

Lemma expiry_falls_on_second_30_witness :
  expires_at 1612512001000000 = expires_at 1612512059999999 /\
  expires_at 1612512001000000 mod (60 * 1000000) = 30 * 1000000.
Proof. apply expiry_falls_on_second_30. reflexivity. Defined.

(** X1.  [enqueue_forest_task] puts the caller's keyword arguments over its
    own: unless the broker fails, one message is submitted; it carries every
    key the caller passed with the caller's value, also over a policy key
    such as the expiry; a policy key the caller left out has the policy's
    value; and the message has no other key. *)
Theorem caller_options_override_policy E kwargs w :
  fault E at_apply_async = None ->
  exists msg,
    enqueue_forest_task E kwargs w
    = (Ok tt, set_broker (broker w ++ [msg]) (set_ticks (S (ticks w)) w)) /\
    (forall k v, kwargs !! k = Some v -> msg !! k = Some v) /\
    (forall k, kwargs !! k = None ->
       msg !! k =
       if String.eqb k "expires" then Some (PyDatetime (expires_at (clock E (ticks w))))
       else if String.eqb k "max_retries" then Some (PyInt 0)
       else if String.eqb k "retry" then Some (PyBool false)
       else if String.eqb k "task_publish_retry" then Some (PyBool false)
       else if String.eqb k "task_track_started" then Some (PyBool true)
       else None).
Proof.
  intros Hq. eexists. split; [|split].
  - unfold enqueue_forest_task, safe_apply_async, call, bind, now, modify.
    rewrite Hq. reflexivity.
  - intros k v Hk. now apply lookup_union_Some_l.
  - intros k Hk. rewrite lookup_union_r by assumption.
    destruct (String.eqb_spec k "expires") as [->|H1]; [apply lookup_insert_eq|].
    rewrite lookup_insert_ne by congruence.
    destruct (String.eqb_spec k "max_retries") as [->|H2]; [apply lookup_insert_eq|].
    rewrite lookup_insert_ne by congruence.
    destruct (String.eqb_spec k "retry") as [->|H3]; [apply lookup_insert_eq|].
    rewrite lookup_insert_ne by congruence.
    destruct (String.eqb_spec k "task_publish_retry") as [->|H4];
      [apply lookup_insert_eq|].
    rewrite lookup_insert_ne by congruence.
    destruct (String.eqb_spec k "task_track_started") as [->|H5];
      [apply lookup_insert_eq|].
    rewrite lookup_insert_ne by congruence. apply lookup_empty.
Qed.

Lemma caller_options_override_policy_witness :
  exists msg,
    enqueue_forest_task (Demo.env Demo.quiet Demo.s3_ok Demo.main_none)
      (<["expires" := PyDatetime 0]> (args_of 2)) Demo.three_queued
    = (Ok tt, set_broker (broker Demo.three_queued ++ [msg])
                (set_ticks (S (ticks Demo.three_queued)) Demo.three_queued)) /\
    msg !! "expires" = Some (PyDatetime 0) /\
    msg !! "max_retries" = Some (PyInt 0).
Proof.
  destruct (caller_options_override_policy
              (Demo.env Demo.quiet Demo.s3_ok Demo.main_none)
              (<["expires" := PyDatetime 0]> (args_of 2)) Demo.three_queued
              eq_refl) as (msg & Hrun & Hcaller & Hpolicy).
  exists msg. split; [exact Hrun|]. split.
  - apply Hcaller. apply lookup_insert_eq.
  - rewrite (Hpolicy "max_retries"); [reflexivity|].
    rewrite lookup_insert_ne by discriminate.
    apply lookup_singleton_ne. discriminate.
Defined.

(** *** The admission scan when the broker fails *)

Lemma existsb_filter_nil {A} (f : A -> bool) l :
  existsb f l = false <-> List.filter f l = [].
Proof.
  induction l as [|x l IH]; simpl; [tauto|].
  destruct (f x); simpl; [split; discriminate|exact IH].
Qed.

(** X3.  The scan does not survive a broker failure: with the broker down and
    at least one queued row, the first submission raises, the exception
    leaves the scan (the handler around the loop does not suppress errors,
    as the source says), no message is recorded and the other queued rows
    are not tried; with no queued row the scan returns without touching the
    broker or the clock. *)
Theorem scan_stops_at_broker_failure E e w :
  fault E at_apply_async = Some e ->
  create_forest_celery_tasks E w =
  if existsb (ForestTask.has_status Status.queued) (tasks w)
  then (Raise e, set_ticks (S (ticks w)) w)
  else (Ok tt, w).
Proof.
  intros Hq. unfold create_forest_celery_tasks, bind, gets.
  destruct (existsb _ (tasks w)) eqn:Hex.
  - destruct (List.filter _ (tasks w)) as [|r rows] eqn:Hf.
    + apply existsb_filter_nil in Hf. congruence.
    + cbn [for_each]. unfold bind. rewrite enqueue_forest_task_run, Hq. reflexivity.
  - apply existsb_filter_nil in Hex. rewrite Hex. reflexivity.
Qed.

Lemma scan_stops_at_broker_failure_witness :
  create_forest_celery_tasks
    (Demo.env (Demo.failing at_apply_async (Exn "OperationalError" "broker down"))
       Demo.s3_ok Demo.main_none) Demo.three_queued
  = (Raise (Exn "OperationalError" "broker down"),
     set_ticks 1 Demo.three_queued).
Proof.
  rewrite (scan_stops_at_broker_failure _ (Exn "OperationalError" "broker down"));
    reflexivity.
Defined.

(** *** Reading back what was cached *)

Lemma persisted_app pk a w entries :
  persisted pk a (set_blobs (blobs w ++ entries) w)
  = (persisted pk a w
     ++ map snd (List.filter (fun b => Z.eqb b.1.1 pk && bool_decide (b.1.2 = a))
                   entries))%list.
Proof. unfold persisted. simpl. now rewrite List.filter_app, map_app. Qed.

(** X4.  What [save_cached_files] stores can be read back under the task's
    own key and nowhere else: when no upload fails, the call returns, the
    content persisted for each artifact of the task is what was there before
    followed by the content of the artifact's file, if that file exists, and
    the artifacts of every other task are as they were. *)
Theorem cached_artifacts_read_back E t w :
  fault E (at_upload all_bv_set) = None ->
  fault E (at_upload all_memory_dict) = None ->
  exists w',
    save_cached_files E t w = (Ok tt, w') /\
    persisted (ForestTask.id t) all_bv_set w'
    = (persisted (ForestTask.id t) all_bv_set w
       ++ option_list (files w !! all_bv_set_path E t))%list /\
    persisted (ForestTask.id t) all_memory_dict w'
    = (persisted (ForestTask.id t) all_memory_dict w
       ++ option_list (files w !! all_memory_dict_path E t))%list /\
    forall pk a, pk <> ForestTask.id t -> persisted pk a w' = persisted pk a w.
Proof.
  intros Hbv Hmem.
  assert (Hrun : save_cached_files E t w
                 = (Ok tt, set_blobs (blobs w ++ cached_in E (files w) t) w)).
  { unfold save_cached_files, save_if_exists, save_artifact_bytes, cached_in,
      bind, gets, call, modify, ret.
    rewrite Hbv, Hmem. destruct w as [ts cr fs br bl tk].
    unfold set_blobs. cbn [tasks chunk_registry files broker blobs ticks].
    destruct (fs !! all_bv_set_path E t) as [c1|];
      cbn [tasks chunk_registry files broker blobs ticks];
      destruct (fs !! all_memory_dict_path E t) as [c2|];
      cbn [tasks chunk_registry files broker blobs ticks app];
      rewrite ?app_nil_r, <- ?app_assoc; reflexivity. }
  eexists. split; [exact Hrun|].
  rewrite !persisted_app. unfold cached_in.
  split; [|split].
  - destruct (files w !! all_bv_set_path E t) as [c1|];
      destruct (files w !! all_memory_dict_path E t) as [c2|]; simpl;
      rewrite ?Z.eqb_refl; reflexivity.
  - destruct (files w !! all_bv_set_path E t) as [c1|];
      destruct (files w !! all_memory_dict_path E t) as [c2|]; simpl;
      rewrite ?Z.eqb_refl; reflexivity.
  - intros pk a Hpk. rewrite persisted_app.
    assert (Hne : Z.eqb (ForestTask.id t) pk = false)
      by (apply Z.eqb_neq; congruence).
    destruct (files w !! all_bv_set_path E t) as [c1|];
      destruct (files w !! all_memory_dict_path E t) as [c2|]; simpl;
      rewrite ?Hne; simpl; now rewrite app_nil_r.
Qed.

Lemma cached_artifacts_read_back_witness :
  exists w',
    save_cached_files (Demo.env Demo.quiet Demo.s3_ok Demo.main_none)
      (Demo.task 2 "b" Demo.jan10 Status.running)
      (Demo.world_of [] [] {["/tmp/b/output/all_BV_set.pkl" := "bv"]})
    = (Ok tt, w') /\
    persisted 2 all_bv_set w' = ["bv"] /\
    persisted 2 all_memory_dict w' = [].
Proof.
  destruct (cached_artifacts_read_back
              (Demo.env Demo.quiet Demo.s3_ok Demo.main_none)
              (Demo.task 2 "b" Demo.jan10 Status.running)
              (Demo.world_of [] [] {["/tmp/b/output/all_BV_set.pkl" := "bv"]})
              eq_refl eq_refl) as (w' & Hrun & Hbv & Hmem & _).
  exists w'. split; [exact Hrun|]. split.
  - etransitivity; [exact Hbv|]. vm_compute. reflexivity.
  - etransitivity; [exact Hmem|]. vm_compute. reflexivity.
Defined.

(** *** The download, when it succeeds *)




(** *** The download, when a chunk fails *)

Lemma for_each_app {S A} (l1 l2 : list A) (body : A -> M S unit) s :
  for_each (l1 ++ l2) body s =
  match for_each l1 body s with
  | (Ok _, s1) => for_each l2 body s1
  | (Raise e, s1) => (Raise e, s1)
  end.
Proof.
  revert s. induction l1 as [|x l1 IH]; intros s; simpl; [reflexivity|].
  unfold bind. destruct (body x s) as [[[]|e] s1]; [apply IH|reflexivity].
Qed.



(** *** One row, rewritten along the life cycle *)

Lemma same_task_refl t : same_task t t.
Proof. repeat split. Qed.

Lemma same_task_trans a b c : same_task a b -> same_task b c -> same_task a c.
Proof. unfold same_task. intuition congruence. Qed.

Lemma moves_forward_trans a b c :
  moves_forward a b -> moves_forward b c -> moves_forward a c.
Proof.
  unfold moves_forward, taken.
  destruct a, b, c; intuition (try discriminate; auto).
Qed.

Lemma copy_field_same_task t r f : same_task r (ForestTask.copy_field t r f).
Proof. destruct f; repeat split. Qed.

Lemma copy_field_status t r f :
  ForestTask.status (ForestTask.copy_field t r f) = ForestTask.status r \/
  ForestTask.status (ForestTask.copy_field t r f) = ForestTask.status t.
Proof. destruct f; simpl; auto. Qed.

Lemma Forall2_ids (Q : ForestTask.t -> Prop) pk rows0 rows :
  Forall2 (fun r r' =>
             ForestTask.id r' = ForestTask.id r /\
             if Z.eqb (ForestTask.id r) pk then Q r' else r' = r) rows0 rows ->
  map ForestTask.id rows = map ForestTask.id rows0.
Proof.
  induction 1 as [|r r' l l' [Hid _] _ IH]; simpl; [reflexivity|].
  now rewrite Hid, IH.
Qed.

Lemma Forall2_row_exists (Q : ForestTask.t -> Prop) pk pk' rows0 rows :
  Forall2 (fun r r' =>
             ForestTask.id r' = ForestTask.id r /\
             if Z.eqb (ForestTask.id r) pk then Q r' else r' = r) rows0 rows ->
  row_exists pk' rows = row_exists pk' rows0.
Proof.
  unfold row_exists.
  induction 1 as [|r r' l l' [Hid _] _ IH]; simpl; [reflexivity|].
  now rewrite Hid, IH.
Qed.

Lemma Forall2_update_row (Q : ForestTask.t -> Prop) pk F rows0 rows :
  (forall r', ForestTask.id r' = pk -> Q r' ->
     ForestTask.id (F r') = pk /\ Q (F r')) ->
  Forall2 (fun r r' =>
             ForestTask.id r' = ForestTask.id r /\
             if Z.eqb (ForestTask.id r) pk then Q r' else r' = r) rows0 rows ->
  Forall2 (fun r r' =>
             ForestTask.id r' = ForestTask.id r /\
             if Z.eqb (ForestTask.id r) pk then Q r' else r' = r)
    rows0 (update_row pk F rows).
Proof.
  intros HF. induction 1 as [|r r' l l' [Hid Hr] _ IH]; simpl; constructor;
    [|exact IH].
  rewrite Hid. destruct (Z.eqb_spec (ForestTask.id r) pk) as [Heq|Hne].
  - destruct (HF r') as [Hid' HQ]; [congruence|assumption|]. split; congruence.
  - split; assumption.
Qed.

Section Settling.

Context (E : Env) (Q : ForestTask.t -> Prop) (pk : Z) (rows0 : list ForestTask.t).
Hypothesis Q_assign : forall f t, settling f -> Q t -> Q (f t).
Hypothesis Q_copy : forall t r f, Q t -> Q r -> Q (ForestTask.copy_field t r f).
Hypothesis pk_exists : row_exists pk rows0 = true.

Lemma rewritten_lift {A} (m : M World A) :
  keeps tasks m -> preserves (rewritten Q pk rows0) (lift m).
Proof.
  intros Hm fr Hfr. unfold lift, rewritten in *. specialize (Hm (world fr)).
  destruct (m (world fr)) as [r w']. simpl in *. now rewrite Hm.
Qed.

Lemma rewritten_with_tracker {A} (k : ForestTask.t -> M World A) :
  (forall t, keeps tasks (k t)) -> preserves (rewritten Q pk rows0) (with_tracker k).
Proof. intros Hk fr Hfr. unfold with_tracker. now apply rewritten_lift. Qed.

Lemma rewritten_assign f :
  settling f -> preserves (rewritten Q pk rows0) (assign f).
Proof.
  intros Hf fr (Hid & HQ & Hrows). unfold assign, modify, rewritten. simpl.
  split; [|split; [now apply Q_assign|assumption]].
  destruct (Hf (tracker fr)) as [(Hsame & _) _]. congruence.
Qed.

Lemma rewritten_save s update_fields :
  preserves (rewritten Q pk rows0) (with_tracker (save E s update_fields)).
Proof.
  intros fr (Hid & HQ & Hrows).
  assert (Hex : row_exists (ForestTask.id (tracker fr)) (tasks (world fr)) = true).
  { rewrite Hid, (Forall2_row_exists Q pk pk rows0 _ Hrows). exact pk_exists. }
  unfold with_tracker, lift, save, bind, call, gets, modify, raise, rewritten.
  destruct (fault E s); simpl; [now repeat split|].
  rewrite Hex. destruct update_fields as [fs|]; simpl;
    (split; [assumption|]); (split; [assumption|]); rewrite Hid;
    apply Forall2_update_row; try assumption.
  - intros r' Hr' HQr. rewrite copy_fields_id. split; [assumption|].
    clear Hr'. revert r' HQr. induction fs as [|f fs IH]; intros r' HQr; simpl;
      [assumption|].
    apply IH. now apply Q_copy.
  - intros r' _ _. now split.
Qed.

Lemma try_body_rewritten chunks :
  preserves (rewritten Q pk rows0) (try_body E chunks).
Proof.
  unfold try_body.
  repeat (first
    [ apply rewritten_save
    | apply rewritten_with_tracker; intros ?;
      first [ now apply keeps_create_local_data_files
            | apply keeps_of_res
            | now apply keeps_save_cached_files ]
    | apply rewritten_lift;
      first [ now apply keeps_now
            | now apply keeps_run_forest_function
            | apply keeps_call ]
    | apply rewritten_assign; intros ?; split; [repeat split|now left]
    | apply preserves_bind; [|intros ?] ]).
Qed.

Lemma after_transaction_rewritten participant :
  preserves (rewritten Q pk rows0) (after_transaction E participant).
Proof.
  unfold after_transaction.
  repeat (first
    [ apply rewritten_save
    | apply preserves_try; [apply try_body_rewritten|intros ?|]
    | apply rewritten_with_tracker; intros ?; now apply keeps_clean_up_files
    | apply rewritten_lift;
      first [ now apply keeps_now | apply keeps_gets | apply keeps_call ]
    | apply rewritten_assign; intros ?;
      split; [repeat split|simpl; auto]
    | apply preserves_bind; [|intros ?] ]).
Qed.

End Settling.

Lemma Forall2_same {A} (R : A -> A -> Prop) l :
  (forall x, In x l -> R x x) -> Forall2 R l l.
Proof.
  induction l as [|x l IH]; intros H; constructor.
  - apply H. now left.
  - apply IH. intros y Hy. apply H. now right.
Qed.

Lemma Forall2_impl_In {A B} (R R' : A -> B -> Prop) l l' :
  (forall x y, In x l -> R x y -> R' x y) -> Forall2 R l l' -> Forall2 R' l l'.
Proof.
  intros H HF. induction HF as [|x y l l' Hxy _ IH]; constructor.
  - apply H; [now left|assumption].
  - apply IH. intros a b Ha. apply H. now right.
Qed.

Lemma Forall2_In_l {A B} (R : A -> B -> Prop) l l' x :
  Forall2 R l l' -> In x l -> exists y, In y l' /\ R x y.
Proof.
  induction 1 as [|a b l l' Hab _ IH]; intros Hx; [destruct Hx|].
  destruct Hx as [<-|Hx].
  - exists b. split; [now left|assumption].
  - destruct (IH Hx) as (y & Hy & Hxy). exists y. split; [now right|assumption].
Qed.

(** The table after the transaction that marked [t], against the table
    before. *)
Lemma started_rewritten (Q : ForestTask.t -> Prop) E w t :
  unique_ids (tasks w) -> In t (tasks w) ->
  Q (mark_running E (ticks w) t) ->
  rewritten Q (ForestTask.id t) (tasks w)
    (mkFrame (started E w t) (mark_running E (ticks w) t)).
Proof.
  intros Hu Hin HQ. split; [reflexivity|]. split; [assumption|].
  unfold started, update_row. cbn [world tasks set_tasks].
  assert (Hall : forall r, In r (tasks w) -> In r (tasks w)) by auto.
  revert Hall. generalize (tasks w) at 1 3 4 as rows.
  induction rows as [|r rows IH]; intros Hall; simpl; constructor.
  - destruct (Z.eqb_spec (ForestTask.id r) (ForestTask.id t)) as [Heq|Hne].
    + assert (r = t) as ->
        by (apply (unique_ids_eq (tasks w)); auto; apply Hall; now left).
      split; [reflexivity|exact HQ].
    + now split.
  - apply IH. intros x Hx. apply Hall. now right.
Qed.

Lemma mark_running_same_task E n t : same_task t (mark_running E n t).
Proof. repeat split. Qed.

(** A whole run against the table it started from. *)
Lemma celery_run_forest_rewritten (Q : ForestTask.t -> Prop) E forest_task_id w :
  (forall f t, settling f -> Q t -> Q (f t)) ->
  (forall t r f, Q t -> Q r -> Q (ForestTask.copy_field t r f)) ->
  (forall t, selected forest_task_id w = Some t -> Q (mark_running E (ticks w) t)) ->
  unique_ids (tasks w) ->
  Forall2 (fun r r' => r' = r \/ (selected forest_task_id w = Some r /\ Q r'))
    (tasks w) (tasks (celery_run_forest E forest_task_id w).2).
Proof.
  intros Q_assign Q_copy Q_mark Hu.
  assert (Hsame : forall w', tasks w' = tasks w ->
            Forall2 (fun r r' => r' = r \/ (selected forest_task_id w = Some r /\ Q r'))
              (tasks w) (tasks w')).
  { intros w' ->. apply Forall2_same. intros r _. now left. }
  unfold celery_run_forest, bind. rewrite transaction_run.
  destruct (candidate forest_task_id w) as [c|] eqn:Hc; [|now apply Hsame].
  destruct (busy c w) eqn:Hbusy.
  { destruct (fault E at_apply_async); now apply Hsame. }
  destruct (first _) as [t|] eqn:Hsel; [|now apply Hsame].
  assert (Hpick : selected forest_task_id w = Some t)
    by (unfold selected; now rewrite Hc, Hbusy).
  destruct (fault E at_get_distribution); [now apply Hsame|].
  destruct (fault E at_save_running); [now apply Hsame|].
  destruct (selected_is_queued_sibling _ _ _ Hsel) as (Hin & _).
  assert (Hex : row_exists (ForestTask.id t) (tasks w) = true)
    by (apply row_exists_true; eauto).
  rewrite Hex. cbn [fst snd]. unfold run_frame.
  assert (H := after_transaction_rewritten E Q (ForestTask.id t) (tasks w)
                 Q_assign Q_copy Hex (ForestTask.participant c)
                 (mkFrame (started E w t) (mark_running E (ticks w) t))
                 (started_rewritten Q E w t Hu Hin (Q_mark t Hpick))).
  unfold started in H.
  destruct (after_transaction E _ _) as [r fr]. cbn [fst snd] in *.
  destruct H as (_ & _ & Hrows).
  eapply Forall2_impl_In; [|exact Hrows].
  intros x y Hx [_ Hxy]. cbv beta in Hxy.
  destruct (Z.eqb_spec (ForestTask.id x) (ForestTask.id t)) as [Heq|Hne];
    [|now left].
  right. split; [|assumption].
  now rewrite (unique_ids_eq (tasks w) x t Hu Hx Hin Heq).
Qed.

(** X6.  A run of the coordinator rewrites at most one row, and only along
    the life cycle.  On a table with unique keys the table after the run,
    however the run ends, has the same rows in the same order; every row
    but the one the transaction selected is untouched; and the selected
    row, which was queued, keeps its keys, its pair, its date range and its
    creation time and is now running, successful or in error. *)
Theorem run_rewrites_one_row E forest_task_id w :
  unique_ids (tasks w) ->
  Forall2
    (fun r r' =>
       r' = r \/
       (selected forest_task_id w = Some r /\
        ForestTask.status r = Status.queued /\
        same_task r r' /\ taken (ForestTask.status r')))
    (tasks w) (tasks (celery_run_forest E forest_task_id w).2).
Proof.
  intros Hu.
  set (Q := fun x : ForestTask.t =>
              (forall t, selected forest_task_id w = Some t -> same_task t x) /\
              taken (ForestTask.status x)).
  assert (H : Forall2
                (fun r r' => r' = r \/ (selected forest_task_id w = Some r /\ Q r'))
                (tasks w) (tasks (celery_run_forest E forest_task_id w).2)).
  { apply celery_run_forest_rewritten; [| | |assumption].
    - intros f t Hf [Hsame Hst]. destruct (Hf t) as [Hsf Hs]. split.
      + intros t0 Ht0. apply (same_task_trans _ t); auto.
      + unfold taken in *. destruct Hs as [Hs|[Hs|Hs]]; rewrite Hs; auto.
    - intros t r f [_ Ht] [Hsame Hr]. split.
      + intros t0 Ht0. apply (same_task_trans _ r); auto.
        apply copy_field_same_task.
      + destruct (copy_field_status t r f) as [Hs|Hs]; rewrite Hs; assumption.
    - intros t Ht. split.
      + intros t0 Ht0. assert (t0 = t) as -> by congruence.
        apply mark_running_same_task.
      + now left. }
  eapply Forall2_impl; [exact H|].
  intros r r' [->|[Hsel [Hsame Hst]]]; [now left|]. right.
  split; [assumption|]. split; [|split; [now apply Hsame|assumption]].
  apply selected_inv in Hsel as (c & _ & _ & Hsel).
  now destruct (selected_is_queued_sibling _ _ _ Hsel) as (_ & _ & _ & Hq & _).
Qed.

Lemma run_rewrites_one_row_witness :
  Forall2
    (fun r r' =>
       r' = r \/
       (selected 1 Demo.three_queued = Some r /\
        ForestTask.status r = Status.queued /\
        same_task r r' /\ taken (ForestTask.status r')))
    (tasks Demo.three_queued)
    (tasks (celery_run_forest (Demo.env Demo.quiet Demo.s3_ok Demo.main_none) 1
              Demo.three_queued).2).
Proof.
  apply run_rewrites_one_row.
  unfold unique_ids. simpl. repeat constructor; simpl; intuition discriminate.
Defined.

(** *** The life cycle under any interleaving *)

Lemma update_cancelled_forward forest_task_id note rows r :
  In r rows ->
  exists r', In r' (update_cancelled forest_task_id note rows).1 /\
             ForestTask.id r' = ForestTask.id r /\
             moves_forward (ForestTask.status r) (ForestTask.status r').
Proof.
  intros Hr. unfold update_cancelled. cbn [fst].
  eexists. split; [apply in_map; exact Hr|].
  destruct (cancellable forest_task_id r) eqn:Hc.
  - apply cancellable_true in Hc as [_ Hq]. split; [reflexivity|].
    right. now left.
  - split; [reflexivity|now left].
Qed.

Lemma system_ok_wf sys : system_ok sys -> system_wf sys.
Proof. intros (Hu & _ & Hnd & Hruns). now split. Qed.

Lemma update_cancelled_wf forest_task_id note sys :
  system_wf sys ->
  system_wf
    (mkSystem
       (set_tasks (update_cancelled forest_task_id note (tasks (sys_world sys))).1
          (sys_world sys))
       (sys_checked sys) (sys_runs sys)).
Proof.
  intros (Hu & Hnd & Hruns).
  set (h := fun r => if cancellable forest_task_id r
                     then ForestTask.set_stacktrace (Some note)
                            (ForestTask.set_status Status.cancelled r)
                     else r).
  assert (Hrows : (update_cancelled forest_task_id note (tasks (sys_world sys))).1
                  = map h (tasks (sys_world sys))) by reflexivity.
  assert (Hid : forall r, ForestTask.id (h r) = ForestTask.id r).
  { intros r. unfold h. now destruct (cancellable forest_task_id r). }
  assert (Hrun : forall r, ForestTask.status r = Status.running -> h r = r).
  { intros r Hr. unfold h, cancellable, ForestTask.has_status. rewrite Hr.
    simpl. now rewrite andb_false_r. }
  unfold system_wf. cbn [sys_world sys_runs tasks set_tasks]. rewrite Hrows.
  split; [|split; [assumption|]].
  - unfold unique_ids. rewrite map_map.
    rewrite (map_ext _ ForestTask.id) by exact Hid. assumption.
  - intros run Hin. destruct (Hruns run Hin) as (Hs & Hex & Hrow).
    split; [assumption|]. split.
    + apply row_exists_true in Hex as (r & Hr & Hidr).
      apply row_exists_true. exists r. split; [|assumption].
      apply in_map_iff. exists r. split; [|assumption].
      apply Hrun. now apply (Hrow r Hr Hidr).
    + intros r' Hr' Hid'. apply in_map_iff in Hr' as (r & <- & Hr).
      rewrite Hid in Hid'. rewrite (Hrun r); [now apply Hrow|].
      now apply (Hrow r Hr Hid').
Qed.

(** The rest of a run keeps the keys of the table. *)
Lemma after_transaction_ids E p w t :
  row_exists (ForestTask.id t) (tasks w) = true ->
  map ForestTask.id (tasks (world (after_transaction E p (mkFrame w t)).2))
  = map ForestTask.id (tasks w).
Proof.
  intros Hex.
  assert (Hfr : rewritten (fun _ => True) (ForestTask.id t) (tasks w) (mkFrame w t)).
  { split; [reflexivity|]. split; [exact I|].
    apply Forall2_same. intros x _. split; [reflexivity|].
    now destruct (Z.eqb (ForestTask.id x) (ForestTask.id t)). }
  apply (after_transaction_rewritten E _ _ _) with (participant := p) in Hfr;
    [|trivial|trivial|assumption].
  destruct Hfr as (_ & _ & Hrows).
  apply (Forall2_ids _ _ _ _ Hrows).
Qed.

(** Every step keeps the keys unique and the coordinators on their rows. *)
Lemma step_system_wf sys sys' : system_wf sys -> step sys sys' -> system_wf sys'.
Proof.
  intros Hok Hstep.
  assert (Hsame : forall w' checked,
            tasks w' = tasks (sys_world sys) ->
            system_wf (mkSystem w' checked (sys_runs sys))).
  { intros w' checked Hw'. unfold system_wf in *. cbn [sys_world sys_runs].
    now rewrite Hw'. }
  destruct Hstep.
  - (* the admission scan *)
    apply Hsame. apply keeps_tasks_create_forest_celery_tasks.
  - (* the task log *)
    destruct (task_log_tasks E req (sys_world sys)) as [Heq|(i & note & Hup)];
      [now apply Hsame|].
    assert (H := update_cancelled_wf i note sys Hok).
    unfold system_wf in *. cbn [sys_world sys_runs tasks set_tasks] in *.
    now rewrite Hup.
  - (* the progress page *)
    apply Hsame. apply keeps_tasks_analysis_progress.
  - (* a new queued task *)
    destruct Hok as (Hu & Hnd & Hruns).
    unfold system_wf. cbn [sys_world sys_runs tasks set_tasks].
    split; [|split; [assumption|]].
    + unfold unique_ids in *. rewrite map_app. simpl.
      apply List.NoDup_app; [assumption| |].
      * constructor; [intros []|constructor].
      * intros x Hx [<-|[]]. contradiction.
    + intros run Hin. apply (holds_row_same (tasks (sys_world sys)));
        [|now apply Hruns].
      intros r0 Hid. rewrite in_app_iff. simpl. split; [|auto].
      intros [Hr0|[<-|[]]]; [assumption|].
      exfalso. apply H0. destruct (Hruns run Hin) as (_ & Hex & _).
      apply row_exists_true in Hex as (x & Hx & Hidx).
      rewrite Hid, <- Hidx. now apply in_map.
  - (* the look-up for a running task *)
    apply Hsame. rewrite check_running_run.
    destruct (candidate forest_task_id (sys_world sys)) as [c|]; [|reflexivity].
    destruct (busy c (sys_world sys)); [|reflexivity].
    destruct (fault E at_apply_async); reflexivity.
  - (* the selection *)
    destruct Hok as (Hu & Hnd & Hruns).
    rewrite select_queued_run.
    destruct (first _) as [t|] eqn:Hsel; [|now apply Hsame].
    destruct (fault E at_get_distribution); [now apply Hsame|].
    destruct (fault E at_save_running); [now apply Hsame|].
    destruct (row_exists _ _) eqn:Hex; [|now apply Hsame].
    cbn [fst snd].
    destruct (selected_is_queued_sibling _ _ _ Hsel) as (Hin & _ & _ & Hq & _).
    assert (Hfresh : forall run, In run (sys_runs sys) ->
                       ForestTask.id run.1 <> ForestTask.id t).
    { intros run Hrun Heq. destruct (Hruns run Hrun) as (_ & _ & Hrow).
      destruct (Hrow t Hin (eq_sym Heq)) as (_ & _ & Hs). congruence. }
    unfold system_wf. cbn [sys_world sys_runs tasks set_tasks set_ticks].
    split; [|split; [|intros run [<-|Hrun]]].
    + unfold unique_ids. rewrite update_row_ids; [assumption|].
      intros r Hr. now rewrite copy_fields_id.
    + simpl. constructor; [|assumption].
      intros Hdup. apply in_map_iff in Hdup as (run & Heq & Hrun).
      now apply (Hfresh run Hrun).
    + cbn [fst]. split; [reflexivity|]. split.
      * rewrite row_exists_update_row; [exact Hex|].
        intros r Hr. now rewrite copy_fields_id.
      * intros r Hr Hid. apply update_row_In in Hr as (r0 & Hr0 & ->).
        change (ForestTask.id (mark_running E (ticks (sys_world sys)) t))
          with (ForestTask.id t) in Hid.
        destruct (Z.eqb_spec (ForestTask.id r0) (ForestTask.id t)) as [Heq|Hne];
          [|contradiction].
        rewrite (unique_ids_eq _ r0 t Hu Hr0 Hin Heq). repeat split.
    + apply (holds_row_same (tasks (sys_world sys))); [|now apply Hruns].
      intros r Hid. apply update_row_elsewhere.
      * intros x Hx. now rewrite copy_fields_id.
      * rewrite Hid. now apply Hfresh.
  - (* the rest of a run *)
    destruct Hok as (Hu & Hnd & Hruns).
    rewrite H in Hnd, Hruns.
    assert (Hmine := Hruns (t, p) ltac:(apply in_or_app; right; now left)).
    cbn [fst] in Hmine. destruct Hmine as (_ & Hex & _).
    assert (Hids := after_transaction_ids E p (sys_world sys) t Hex).
    rewrite map_app in Hnd. simpl in Hnd.
    assert (Hnd' := NoDup_remove_1 _ _ _ Hnd).
    assert (Hnotin := NoDup_remove_2 _ _ _ Hnd).
    unfold system_wf. cbn [sys_world sys_runs].
    split; [unfold unique_ids; now rewrite Hids|]. split.
    { now rewrite map_app. }
    intros run Hrun.
    assert (Hne : ForestTask.id run.1 <> ForestTask.id t).
    { intros Heq. apply Hnotin. rewrite <- Heq, <- map_app.
      now apply (in_map (fun run : ForestTask.t * Z => ForestTask.id run.1)). }
    apply (holds_row_same (tasks (sys_world sys))).
    + intros r Hid. apply after_transaction_elsewhere. now rewrite Hid.
    + apply Hruns. apply in_app_or in Hrun as [Hrun|Hrun];
        apply in_or_app; [now left|right; now right].
Qed.

Lemma step_forward sys sys' r :
  system_wf sys -> step sys sys' ->
  In r (tasks (sys_world sys)) ->
  exists r', In r' (tasks (sys_world sys')) /\
             ForestTask.id r' = ForestTask.id r /\
             moves_forward (ForestTask.status r) (ForestTask.status r').
Proof.
  intros Hok Hstep Hr.
  assert (Hsame : forall w', tasks w' = tasks (sys_world sys) ->
            exists r', In r' (tasks w') /\ ForestTask.id r' = ForestTask.id r /\
                       moves_forward (ForestTask.status r) (ForestTask.status r')).
  { intros w' Hw'. exists r. rewrite Hw'. split; [assumption|].
    split; [reflexivity|now left]. }
  destruct Hok as (Hu & Hnd & Hruns).
  destruct Hstep; cbn [sys_world].
  - apply Hsame. apply keeps_tasks_create_forest_celery_tasks.
  - destruct (task_log_tasks E req (sys_world sys)) as [Heq|(i & note & Hup)];
      [now apply Hsame|].
    rewrite Hup. now apply update_cancelled_forward.
  - apply Hsame. apply keeps_tasks_analysis_progress.
  - exists r. cbn [tasks set_tasks]. split; [apply in_or_app; now left|].
    split; [reflexivity|now left].
  - apply Hsame. rewrite check_running_run.
    destruct (candidate forest_task_id (sys_world sys)) as [c|]; [|reflexivity].
    destruct (busy c (sys_world sys)); [|reflexivity].
    destruct (fault E at_apply_async); reflexivity.
  - rewrite select_queued_run.
    destruct (first _) as [t|] eqn:Hsel; [|now apply Hsame].
    destruct (fault E at_get_distribution); [now apply Hsame|].
    destruct (fault E at_save_running); [now apply Hsame|].
    destruct (row_exists _ _); [|now apply Hsame].
    cbn [fst snd tasks set_tasks set_ticks].
    destruct (selected_is_queued_sibling _ _ _ Hsel) as (Hin & _ & _ & Hq & _).
    eexists. split; [apply in_map; exact Hr|].
    destruct (Z.eqb_spec (ForestTask.id r) (ForestTask.id t)) as [Heq|Hne].
    + rewrite copy_fields_id. split; [reflexivity|].
      rewrite (unique_ids_eq _ r t Hu Hr Hin Heq). right. now left.
    + split; [reflexivity|now left].
  - rewrite H in Hruns.
    assert (Hmine := Hruns (t, p) ltac:(apply in_or_app; right; now left)).
    cbn [fst] in Hmine. destruct Hmine as (Hs & Hex & Hrow).
    assert (Hfr : rewritten (fun x => taken (ForestTask.status x)) (ForestTask.id t)
                    (tasks (sys_world sys)) (mkFrame (sys_world sys) t)).
    { split; [reflexivity|]. split; [now left|].
      apply Forall2_same. intros x Hx. split; [reflexivity|].
      destruct (Z.eqb_spec (ForestTask.id x) (ForestTask.id t)) as [Heq|];
        [|reflexivity].
      left. now apply (Hrow x Hx Heq). }
    apply (after_transaction_rewritten E _ _ _) with (participant := p) in Hfr;
      [| | |assumption].
    + destruct Hfr as (_ & _ & Hrows).
      destruct (Forall2_In_l _ _ _ r Hrows Hr) as (r' & Hr' & Hid & Hrr).
      exists r'. split; [assumption|]. split; [assumption|].
      destruct (Z.eqb_spec (ForestTask.id r) (ForestTask.id t)) as [Heq|Hne].
      * right. right. split; [|assumption]. now apply (Hrow r Hr Heq).
      * left. now rewrite Hrr.
    + intros f x Hf Hx. destruct (Hf x) as [_ Hst]. unfold taken in *.
      destruct Hst as [Hst|[Hst|Hst]]; rewrite Hst; auto.
    + intros x y f Hx Hy.
      destruct (copy_field_status x y f) as [Hst|Hst]; rewrite Hst; assumption.
Qed.

(** X7.  The status of a task only moves forward, whatever the workers, the
    scans and the pages do and in whatever order.  From a well-formed system,
    after any number of steps every row of the table is still there under
    its key, and its status is the one it had, or it had been queued, or it
    had been running and is now running, successful or in error.  So a task
    that succeeded, failed or was cancelled keeps that status for good. *)
Theorem status_only_moves_forward sys sys' r :
  system_ok sys ->
  rtc step sys sys' ->
  In r (tasks (sys_world sys)) ->
  exists r', In r' (tasks (sys_world sys')) /\
             ForestTask.id r' = ForestTask.id r /\
             moves_forward (ForestTask.status r) (ForestTask.status r').
Proof.
  intros Hok Hsteps. apply system_ok_wf in Hok. revert r.
  induction Hsteps as [sys|sys sys1 sys2 Hstep _ IH]; intros r Hr.
  - exists r. split; [assumption|]. split; [reflexivity|now left].
  - destruct (step_forward sys sys1 r Hok Hstep Hr) as (r1 & Hr1 & Hid1 & Hf1).
    destruct (IH (step_system_wf _ _ Hok Hstep) r1 Hr1) as (r2 & Hr2 & Hid2 & Hf2).
    exists r2. split; [assumption|]. split; [congruence|].
    now apply (moves_forward_trans _ (ForestTask.status r1)).
Qed.

Lemma status_only_moves_forward_witness :
  system_ok (mkSystem Demo.three_queued [] []) /\
  exists r',
    In r' (tasks (select_queued (Demo.env Demo.quiet Demo.s3_ok Demo.main_none)
                    (Demo.task 1 "a" Demo.jan1 Status.queued)
                    (check_running (Demo.env Demo.quiet Demo.s3_ok Demo.main_none)
                       1 Demo.three_queued).2).2) /\
    ForestTask.id r' = 2 /\
    moves_forward Status.queued (ForestTask.status r').
Proof.
  assert (Hok : system_ok (mkSystem Demo.three_queued [] [])).
  { split; [|split; [|split]].
    - unfold unique_ids. simpl. repeat constructor; simpl; intuition discriminate.
    - intros p tr. unfold running_for. simpl.
      change (ForestTask.has_status Status.running
                (Demo.task 1 "a" Demo.jan1 Status.queued)) with false.
      change (ForestTask.has_status Status.running
                (Demo.task 2 "b" Demo.jan10 Status.queued)) with false.
      change (ForestTask.has_status Status.running
                (Demo.task 3 "c" Demo.jan5 Status.queued)) with false.
      rewrite !andb_false_r. simpl. lia.
    - constructor.
    - intros run []. }
  split; [exact Hok|].
  assert (Hsteps : exists sys',
    rtc step (mkSystem Demo.three_queued [] []) sys' /\
    sys_world sys'
    = (select_queued (Demo.env Demo.quiet Demo.s3_ok Demo.main_none)
         (Demo.task 1 "a" Demo.jan1 Status.queued)
         (check_running (Demo.env Demo.quiet Demo.s3_ok Demo.main_none)
            1 Demo.three_queued).2).2).
  { eexists. split.
    - eapply rtc_l;
        [apply (step_check_running
                  (Demo.env Demo.quiet Demo.s3_ok Demo.main_none) 1)|].
      apply rtc_once.
      apply (step_select_queued (Demo.env Demo.quiet Demo.s3_ok Demo.main_none)
               (Demo.task 1 "a" Demo.jan1 Status.queued) [] []).
      reflexivity.
    - reflexivity. }
  destruct Hsteps as (sys' & Hsteps & Hworld).
  rewrite <- Hworld.
  apply (status_only_moves_forward (mkSystem Demo.three_queued [] []) sys'
           (Demo.task 2 "b" Demo.jan10 Status.queued) Hok Hsteps).
  right. now left.
Defined.

(** *** Dispatches of one pair *)

Lemma siblings_of_pair c1 c2 w :
  ForestTask.participant c1 = ForestTask.participant c2 ->
  ForestTask.forest_tree c1 = ForestTask.forest_tree c2 ->
  siblings c1 w = siblings c2 w.
Proof. intros Hp Ht. unfold siblings. now rewrite Hp, Ht. Qed.

(** X18.  When no task of a pair is running, it does not matter which task
    of the pair a message names: the dispatches of two tasks of the same
    participant and tree have the same outcome and leave the same world,
    because the row to run is chosen among the queued rows of the pair and
    not taken from the message. *)
Theorem dispatches_of_a_pair_are_interchangeable E id1 id2 c1 c2 w :
  candidate id1 w = Some c1 ->
  candidate id2 w = Some c2 ->
  ForestTask.participant c1 = ForestTask.participant c2 ->
  ForestTask.forest_tree c1 = ForestTask.forest_tree c2 ->
  busy c1 w = false ->
  celery_run_forest E id1 w = celery_run_forest E id2 w.
Proof.
  intros H1 H2 Hp Ht Hbusy.
  assert (Hbusy2 : busy c2 w = false).
  { unfold busy in *. now rewrite <- (siblings_of_pair c1 c2 w Hp Ht). }
  unfold celery_run_forest, bind. rewrite !transaction_run, H1, H2, Hbusy, Hbusy2.
  unfold queued_siblings. rewrite (siblings_of_pair c1 c2 w Hp Ht), Hp.
  reflexivity.
Qed.

Lemma dispatches_of_a_pair_are_interchangeable_witness :
  celery_run_forest (Demo.env Demo.quiet Demo.s3_ok Demo.main_none) 1
    Demo.three_queued
  = celery_run_forest (Demo.env Demo.quiet Demo.s3_ok Demo.main_none) 3
      Demo.three_queued.
Proof.
  apply (dispatches_of_a_pair_are_interchangeable _ 1 3
           (Demo.task 1 "a" Demo.jan1 Status.queued)
           (Demo.task 3 "c" Demo.jan5 Status.queued)); reflexivity.
Defined.

(** *** Draining the queue of a pair *)

Lemma filter_filter {A} (f g : A -> bool) l :
  List.filter f (List.filter g l) = List.filter (fun x => g x && f x) l.
Proof.
  induction l as [|x l IH]; simpl; [reflexivity|].
  destruct (g x); simpl; [destruct (f x); simpl; now rewrite IH|exact IH].
Qed.

Lemma queued_siblings_of_pair c w :
  queued_siblings c w
  = queued_for_pair (ForestTask.participant c) (ForestTask.forest_tree c) (tasks w).
Proof. unfold queued_siblings, siblings, queued_for_pair. apply filter_filter. Qed.

Lemma not_busy c w :
  running_for (ForestTask.participant c) (ForestTask.forest_tree c) (tasks w) = [] ->
  busy c w = false.
Proof.
  intros H. unfold busy, siblings. apply not_true_is_false. intros Hb.
  apply existsb_exists in Hb as (r & Hr & Hs). apply filter_In in Hr as [Hr Hp].
  assert (Hin : In r (running_for (ForestTask.participant c)
                        (ForestTask.forest_tree c) (tasks w))).
  { apply filter_In. split; [assumption|]. now rewrite Hp, Hs. }
  rewrite H in Hin. destruct Hin.
Qed.

Lemma row_of_unique rows0 w r :
  tasks w = rows0 -> unique_ids rows0 -> In r rows0 ->
  row_of (ForestTask.id r) w = Some r.
Proof.
  intros <- Hu Hr. unfold row_of.
  destruct (List.find _ (tasks w)) as [x|] eqn:Hf.
  - apply find_some in Hf as [Hx Hid]. apply Z.eqb_eq in Hid.
    f_equal. now apply (unique_ids_eq (tasks w)).
  - apply find_none with (x := r) in Hf; [|assumption].
    now rewrite Z.eqb_refl in Hf.
Qed.

Lemma settled_from_ids t rows rows' :
  Forall2 (settled_from t) rows rows' ->
  map ForestTask.id rows' = map ForestTask.id rows.
Proof.
  induction 1 as [|r r' l l' Hr _ IH]; simpl; [reflexivity|].
  rewrite IH. f_equal.
  destruct Hr as [[_ ->]|(-> & Hsame & _)]; [reflexivity|].
  symmetry. apply Hsame.
Qed.

Lemma settled_from_rest t rows rows' :
  ~ In t rows -> Forall2 (settled_from t) rows rows' -> rows' = rows.
Proof.
  intros Hnot. induction 1 as [|r r' l l' Hr _ IH]; [reflexivity|].
  destruct Hr as [[_ ->]|(-> & _)].
  - f_equal. apply IH. intros Hin. apply Hnot. now right.
  - exfalso. apply Hnot. now left.
Qed.

Lemma settled_from_queued p tr t rows rows' :
  unique_ids rows -> In t rows ->
  ForestTask.for_pair p tr t = true -> ForestTask.status t = Status.queued ->
  Forall2 (settled_from t) rows rows' ->
  length (queued_for_pair p tr rows') = pred (length (queued_for_pair p tr rows)) /\
  running_for p tr rows' = running_for p tr rows.
Proof.
  intros Hu Hin Hp Hq HF. revert Hu Hin.
  induction HF as [|r r' l l' Hr HF IH]; intros Hu Hin; [destruct Hin|].
  unfold unique_ids in Hu. simpl in Hu. apply List.NoDup_cons_iff in Hu as [Hnotin Hu].
  unfold queued_for_pair, running_for in *. cbn [List.filter].
  destruct Hr as [[Hne ->]|(-> & Hsame & Hst)].
  - destruct Hin as [Heq|Hin]; [congruence|].
    destruct (IH Hu Hin) as [IHq IHr]. rewrite IHr.
    assert (Hpos : (0 < length (List.filter
                      (fun r0 => ForestTask.for_pair p tr r0
                                 && ForestTask.has_status Status.queued r0) l))%nat).
    { assert (Ht : In t (List.filter
                      (fun r0 => ForestTask.for_pair p tr r0
                                 && ForestTask.has_status Status.queued r0) l)).
      { apply filter_In. split; [assumption|].
        rewrite Hp. now apply has_status_true. }
      destruct (List.filter _ l); [destruct Ht|simpl; lia]. }
    split; [|reflexivity].
    destruct (ForestTask.for_pair p tr r && ForestTask.has_status Status.queued r);
      simpl; lia.
  - assert (Hrest : l' = l).
    { apply (settled_from_rest t); [|assumption].
      intros Hin'. apply Hnotin. now apply in_map. }
    subst l'.
    assert (Hq' : ForestTask.has_status Status.queued r' = false).
    { unfold ForestTask.has_status. destruct Hst as [-> | ->]; reflexivity. }
    assert (Hr' : ForestTask.has_status Status.running r' = false).
    { unfold ForestTask.has_status. destruct Hst as [-> | ->]; reflexivity. }
    assert (Hqt : ForestTask.has_status Status.queued t = true)
      by now apply has_status_true.
    assert (Hrt : ForestTask.has_status Status.running t = false)
      by (unfold ForestTask.has_status; now rewrite Hq).
    rewrite Hq', Hr', Hp, Hqt, Hrt, !andb_false_r. simpl. split; reflexivity.
Qed.

Lemma settled_from_candidate t rows rows' pk c :
  Forall2 (settled_from t) rows rows' ->
  first (List.filter (fun r => Z.eqb (ForestTask.id r) pk) rows) = Some c ->
  exists c', first (List.filter (fun r => Z.eqb (ForestTask.id r) pk) rows') = Some c' /\
             ForestTask.participant c' = ForestTask.participant c /\
             ForestTask.forest_tree c' = ForestTask.forest_tree c.
Proof.
  induction 1 as [|r r' l l' Hr _ IH]; simpl; [discriminate|].
  assert (Hid : ForestTask.id r' = ForestTask.id r).
  { destruct Hr as [[_ ->]|(-> & Hsame & _)]; [reflexivity|].
    symmetry. apply Hsame. }
  rewrite Hid. destruct (Z.eqb (ForestTask.id r) pk); [|exact IH].
  simpl. intros [= <-]. exists r'. split; [reflexivity|].
  destruct Hr as [[_ ->]|(-> & Hsame & _)]; [now split|].
  destruct Hsame as (_ & _ & Hp & Ht & _). now split.
Qed.

Lemma Forall2_impl_In2 {A B} (R R' : A -> B -> Prop) l l' :
  (forall x y, In x l -> In y l' -> R x y -> R' x y) ->
  Forall2 R l l' -> Forall2 R' l l'.
Proof.
  intros H HF. induction HF as [|x y l l' Hxy _ IH]; constructor.
  - apply H; [now left|now left|assumption].
  - apply IH. intros a b Ha Hb. apply H; now right.
Qed.

(** One dispatch for a pair without a running task, in an environment in
    which no collaborator fails outside the [try] statement and the
    [except] clause takes what the download raises: the run ends
    normally, and either there was nothing queued for the pair and the
    table is as it was, or one queued row of the pair has been settled. *)
Lemma run_settles_one E forest_task_id w c :
  unique_ids (tasks w) -> reaches_try E -> settles E -> catchable E ->
  candidate forest_task_id w = Some c ->
  running_for (ForestTask.participant c) (ForestTask.forest_tree c) (tasks w) = [] ->
  exists w',
    celery_run_forest E forest_task_id w = (Ok tt, w') /\
    ((tasks w' = tasks w /\
      queued_for_pair (ForestTask.participant c) (ForestTask.forest_tree c)
        (tasks w) = []) \/
     exists t, In t (tasks w) /\
       ForestTask.for_pair (ForestTask.participant c) (ForestTask.forest_tree c) t
       = true /\
       ForestTask.status t = Status.queued /\
       Forall2 (settled_from t) (tasks w) (tasks w')).
Proof.
  intros Hu Hreach Hsettle Hcatch Hc Hfree.
  assert (Hbusy := not_busy c w Hfree).
  destruct (first (order_by_desc ForestTask.data_date_start (queued_siblings c w)))
    as [t|] eqn:Hsel.
  2:{ exists w. split.
      - unfold celery_run_forest, bind. now rewrite transaction_run, Hc, Hbusy, Hsel.
      - left. split; [reflexivity|]. rewrite <- queued_siblings_of_pair.
        now apply first_order_by_desc_None in Hsel. }
  assert (Hpick : selected forest_task_id w = Some t)
    by (unfold selected; now rewrite Hc, Hbusy).
  destruct (selected_is_queued_sibling _ _ _ Hsel) as (Hin & Hp & Ht & Hq & _).
  destruct (run_settles E forest_task_id w t Hpick Hreach Hsettle
              (try_body_caught E _ _ Hcatch))
    as (w' & Hrun & Hrow & _).
  exists w'. split; [exact Hrun|]. right. exists t.
  split; [assumption|]. split; [now apply for_pair_true|]. split; [assumption|].
  set (Q := fun x : ForestTask.t =>
              same_task t x /\ taken (ForestTask.status x)).
  assert (HF : Forall2
                 (fun r r' => r' = r \/ (selected forest_task_id w = Some r /\ Q r'))
                 (tasks w) (tasks (celery_run_forest E forest_task_id w).2)).
  { apply celery_run_forest_rewritten; [| | |assumption].
    - intros f x Hf [Hsame Hst]. destruct (Hf x) as [Hsf Hs]. split.
      + now apply (same_task_trans _ x).
      + unfold taken in *. destruct Hs as [Hs|[Hs|Hs]]; rewrite Hs; auto.
    - intros x r f [_ Hx] [Hsame Hr]. split.
      + apply (same_task_trans _ r); [assumption|apply copy_field_same_task].
      + destruct (copy_field_status x r f) as [Hs|Hs]; rewrite Hs; assumption.
    - intros t' Ht'. assert (t' = t) as -> by congruence. split.
      + apply mark_running_same_task.
      + now left. }
  rewrite Hrun in HF. cbn [snd] in HF.
  assert (HF' : Forall2 (fun r r' => r' = r \/ (r = t /\ Q r'))
                  (tasks w) (tasks w')).
  { eapply Forall2_impl; [exact HF|]. intros r r' [->|[Hr HQ]]; [now left|].
    right. split; [congruence|assumption]. }
  clear HF.
  assert (Hids : map ForestTask.id (tasks w') = map ForestTask.id (tasks w)).
  { clear -HF'. induction HF' as [|r r' l l' Hr _ IH]; simpl; [reflexivity|].
    rewrite IH. f_equal. destruct Hr as [->|[-> [Hsame _]]]; [reflexivity|].
    symmetry. apply Hsame. }
  assert (Hu' : unique_ids (tasks w')) by (unfold unique_ids; now rewrite Hids).
  assert (Hfinal := final_object_fields E (chunks_of (ForestTask.participant t) w)
                      (entry E w t)).
  cbv zeta in Hfinal. destruct Hfinal as (_ & _ & _ & _ & _ & _ & Hst & _).
  eapply Forall2_impl_In2; [|exact HF'].
  intros x y Hx Hy Hxy. cbv beta in Hxy.
  destruct (Z.eq_dec (ForestTask.id x) (ForestTask.id t)) as [Heq|Hne].
  - assert (x = t) as -> by now apply (unique_ids_eq (tasks w)).
    assert (Hidy : ForestTask.id y = ForestTask.id t).
    { destruct Hxy as [->|[_ [Hsame _]]]; [reflexivity|]. symmetry. apply Hsame. }
    assert (Hyrow := row_of_unique (tasks w') w' y eq_refl Hu' Hy).
    rewrite Hidy, Hrow in Hyrow. injection Hyrow as Hy'.
    assert (Hsy : ForestTask.status y = Status.success
                  \/ ForestTask.status y = Status.error).
    { rewrite <- Hy', Hst. destruct (try_body E _ _).1; auto. }
    right. split; [reflexivity|]. split; [|assumption].
    destruct Hxy as [->|[_ [Hsame _]]]; [|assumption].
    rewrite Hq in Hsy. destruct Hsy; discriminate.
  - left. assert (x <> t) by congruence. split; [assumption|].
    destruct Hxy as [->|[-> _]]; [reflexivity|contradiction].
Qed.

(** X19.  A worker that handles the messages of one pair one after the
    other drains the queue of the pair.  On a table with unique keys and no
    running task of the pair, in an environment in which no collaborator
    fails outside the [try] statement and nothing but exceptions that
    derive from [Exception] stops a download, the dispatches of any tasks
    of the pair all return normally; each of them settles one queued task
    of the pair (in success or in error) as long as there is one; no task
    of the pair is left running; and no row is added or removed. *)
Theorem dispatches_drain_the_queue E ids p tr w :
  unique_ids (tasks w) ->
  reaches_try E ->
  settles E ->
  catchable E ->
  running_for p tr (tasks w) = [] ->
  (forall pk, In pk ids ->
     exists c, candidate pk w = Some c /\
               ForestTask.participant c = p /\ ForestTask.forest_tree c = tr) ->
  exists w',
    for_each ids (celery_run_forest E) w = (Ok tt, w') /\
    length (queued_for_pair p tr (tasks w'))
    = (length (queued_for_pair p tr (tasks w)) - length ids)%nat /\
    running_for p tr (tasks w') = [] /\
    map ForestTask.id (tasks w') = map ForestTask.id (tasks w).
Proof.
  intros Hu Hreach Hsettle Hcatch. revert w Hu.
  induction ids as [|pk ids IH]; intros w Hu Hfree Hcand.
  { exists w. split; [reflexivity|]. split; [simpl; lia|]. now split. }
  destruct (Hcand pk (or_introl eq_refl)) as (c & Hc & <- & <-).
  destruct (run_settles_one E pk w c Hu Hreach Hsettle Hcatch Hc Hfree)
    as (w1 & Hrun & Hcase).
  assert (Hstep : unique_ids (tasks w1) /\
                  running_for (ForestTask.participant c) (ForestTask.forest_tree c)
                    (tasks w1) = [] /\
                  length (queued_for_pair (ForestTask.participant c)
                            (ForestTask.forest_tree c) (tasks w1))
                  = pred (length (queued_for_pair (ForestTask.participant c)
                                    (ForestTask.forest_tree c) (tasks w))) /\
                  map ForestTask.id (tasks w1) = map ForestTask.id (tasks w) /\
                  forall pk', In pk' ids ->
                    exists c', candidate pk' w1 = Some c' /\
                      ForestTask.participant c' = ForestTask.participant c /\
                      ForestTask.forest_tree c' = ForestTask.forest_tree c).
  { destruct Hcase as [[Hsame Hnone]|(t & Hin & Hp & Hq & HF)].
    - rewrite Hsame, Hnone. repeat split; try assumption.
      intros pk' Hpk'. unfold candidate. rewrite Hsame.
      apply Hcand. now right.
    - destruct (settled_from_queued _ _ t _ _ Hu Hin Hp Hq HF) as [Hlen Hrunning].
      assert (Hids := settled_from_ids t _ _ HF).
      split; [unfold unique_ids; now rewrite Hids|].
      split; [now rewrite Hrunning|]. split; [assumption|]. split; [assumption|].
      intros pk' Hpk'. destruct (Hcand pk' (or_intror Hpk')) as (c' & Hc' & Hp' & Ht').
      destruct (settled_from_candidate t _ _ pk' c' HF Hc') as (c'' & Hc'' & Hp'' & Ht'').
      exists c''. split; [exact Hc''|]. split; congruence. }
  destruct Hstep as (Hu1 & Hfree1 & Hlen1 & Hids1 & Hcand1).
  destruct (IH w1 Hu1 Hfree1 Hcand1) as (w' & Hrest & Hlen & Hfree' & Hids').
  exists w'. cbn [for_each]. unfold bind. rewrite Hrun.
  split; [exact Hrest|]. split; [simpl; lia|]. split; [assumption|congruence].
Qed.

Lemma dispatches_drain_the_queue_witness :
  exists w',
    for_each [1; 2; 3]
      (celery_run_forest (Demo.env Demo.quiet Demo.s3_ok Demo.main_none))
      Demo.three_queued = (Ok tt, w') /\
    length (queued_for_pair 7 "jasmine" (tasks w'))
    = (length (queued_for_pair 7 "jasmine" (tasks Demo.three_queued))
       - length [1; 2; 3])%nat /\
    running_for 7 "jasmine" (tasks w') = [] /\
    map ForestTask.id (tasks w') = map ForestTask.id (tasks Demo.three_queued).
Proof.
  apply dispatches_drain_the_queue.
  - unfold unique_ids. simpl. repeat constructor; simpl; intuition discriminate.
  - repeat split.
  - repeat split.
  - split; intros ? ? ?; discriminate || (intros ?; discriminate).
  - reflexivity.
  - intros pk [<-|[<-|[<-|[]]]]; eexists; (split; [reflexivity|now split]).
Defined.

(** *** A pair with a running task *)

Lemma is_busy c w :
  running_for (ForestTask.participant c) (ForestTask.forest_tree c) (tasks w) <> [] ->
  busy c w = true.
Proof.
  intros H. unfold busy, siblings.
  destruct (running_for _ _ (tasks w)) as [|r rs] eqn:Hr; [contradiction|].
  assert (Hin : In r (running_for (ForestTask.participant c)
                        (ForestTask.forest_tree c) (tasks w)))
    by (rewrite Hr; now left).
  apply filter_In in Hin as [Hin Hb]. apply andb_true_iff in Hb as [Hp Hs].
  apply existsb_exists. exists r. split; [|assumption].
  apply filter_In. now split.
Qed.

(** X20.  A running task blocks its pair, and the messages of the pair only
    reproduce themselves.  While some task of a pair is running and the
    broker works, the dispatches of any tasks of the pair, one after the
    other, all return normally, write no row, and each submits one new
    message for the very task it was dispatched for, so the number of
    messages in flight for the pair does not go down. *)
Theorem running_task_blocks_its_pair E ids p tr w :
  fault E at_apply_async = None ->
  running_for p tr (tasks w) <> [] ->
  (forall pk, In pk ids ->
     exists c, candidate pk w = Some c /\
               ForestTask.participant c = p /\ ForestTask.forest_tree c = tr) ->
  exists w' msgs,
    for_each ids (celery_run_forest E) w = (Ok tt, w') /\
    tasks w' = tasks w /\
    broker w' = (broker w ++ msgs)%list /\
    Forall2 (fun pk msg => exists k, dispatch_of E pk k msg) ids msgs.
Proof.
  intros Hq. revert w. induction ids as [|pk ids IH]; intros w Hrun Hcand.
  { exists w, []. rewrite app_nil_r. repeat split. constructor. }
  destruct (Hcand pk (or_introl eq_refl)) as (c & Hc & Hp & Ht).
  assert (Hbusy : busy c w = true) by (apply is_busy; now rewrite Hp, Ht).
  destruct (running_sibling_redispatches E pk w c Hc Hbusy) as [_ Hone].
  specialize (Hone Hq).
  set (w1 := set_broker
               (broker w ++ [dispatch_message (ForestTask.id c) (clock E (ticks w))])
               (set_ticks (S (ticks w)) w)) in *.
  destruct (IH w1) as (w' & msgs & Hrest & Htasks & Hbroker & Hmsgs).
  - exact Hrun.
  - intros pk' Hpk'. apply (Hcand pk'). now right.
  - exists w', (dispatch_message (ForestTask.id c) (clock E (ticks w)) :: msgs).
    cbn [for_each]. unfold bind. rewrite Hone.
    split; [exact Hrest|]. split; [exact Htasks|]. split.
    + rewrite Hbroker. unfold w1. cbn [broker set_broker].
      now rewrite <- app_assoc.
    + constructor; [|exact Hmsgs]. exists (ticks w).
      apply candidate_Some in Hc as [_ <-]. apply dispatch_message_ok.
Qed.

Lemma running_task_blocks_its_pair_witness :
  exists w' msgs,
    for_each [2; 2]
      (celery_run_forest (Demo.env Demo.quiet Demo.s3_ok Demo.main_none))
      Demo.one_running = (Ok tt, w') /\
    tasks w' = tasks Demo.one_running /\
    broker w' = (broker Demo.one_running ++ msgs)%list /\
    Forall2 (fun pk msg =>
               exists k, dispatch_of (Demo.env Demo.quiet Demo.s3_ok Demo.main_none)
                           pk k msg) [2; 2] msgs.
Proof.
  apply (running_task_blocks_its_pair _ [2; 2] 7 "jasmine").
  - reflexivity.
  - discriminate.
  - intros pk [<-|[<-|[]]]; eexists; (split; [reflexivity|now split]).
Defined.

(** *** The range of the progress grid *)

Lemma date_of_le a b : a <= b -> date_of a <= date_of b.
Proof.
  intros H. unfold date_of, microseconds_per_day.
  apply Z.div_le_mono; lia.
Qed.

(** X9.  When the participants of the study have chunks, the progress page
    reads no clock and its grid spans the data: the day of every chunk of
    a participant of the study lies between the first and the last date of
    the page and is one of its columns. *)
Theorem progress_grid_spans_the_data E study w c :
  In c (chunk_registry w) ->
  In (Chunk.participant c) (study_participants study) ->
  exists page,
    analysis_progress E study w = (Ok page, w) /\
    start_date page <= date_of (Chunk.time_bin c) <= end_date page /\
    In (date_of (Chunk.time_bin c)) (chart_columns page).
Proof.
  intros Hc Hp. unfold analysis_progress.
  cbv beta iota zeta delta [bind gets].
  set (chunks := List.filter _ (chunk_registry w)).
  assert (Hin : In c chunks).
  { apply filter_In. split; [assumption|]. now apply is_member_true. }
  destruct (first (order_by Chunk.time_bin chunks)) as [earliest|] eqn:He.
  2:{ exfalso. unfold first in He.
      assert (Hlen := sort_by_length
                (fun a b => Z.leb (Chunk.time_bin a) (Chunk.time_bin b)) chunks).
      unfold order_by in He. destruct (sort_by _ chunks); [|discriminate].
      destruct chunks; [destruct Hin|discriminate]. }
  destruct (first (order_by_desc Chunk.time_bin chunks)) as [latest|] eqn:Hl.
  2:{ exfalso. apply first_order_by_desc_None in Hl. rewrite Hl in Hin.
      destruct Hin. }
  apply first_order_by_min in He as [_ Hmin].
  apply first_order_by_desc_max in Hl as [_ Hmax].
  cbv beta iota zeta delta [ret]. cbn [fst snd].
  eexists. split; [reflexivity|].
  cbn [start_date end_date chart_columns].
  assert (Hr : date_of (Chunk.time_bin earliest) <= date_of (Chunk.time_bin c)
               <= date_of (Chunk.time_bin latest)).
  { split; apply date_of_le; [now apply Hmin|now apply Hmax]. }
  split; [exact Hr|]. now apply daterange_In.
Qed.

Lemma progress_grid_spans_the_data_witness :
  exists page,
    analysis_progress (Demo.env Demo.quiet Demo.s3_ok Demo.main_none)
      (mkStudy 0 [7; 8]) Demo.one_success = (Ok page, Demo.one_success) /\
    start_date page <= 18634 <= end_date page /\
    In 18634 (chart_columns page).
Proof.
  apply (progress_grid_spans_the_data
           (Demo.env Demo.quiet Demo.s3_ok Demo.main_none) (mkStudy 0 [7; 8])
           Demo.one_success
           (Chunk.Build 8 "study" "8/gps/1.csv" (Some 1) 1609977600000000)).
  - right. now left.
  - right. now left.
Defined.

(** *** The metadata conflict *)

Lemma two_distinct {A} `{EqDecision A} (l : list A) :
  (1 < length (remove_dups l))%nat <->
  exists x y, In x l /\ In y l /\ x <> y.
Proof.
  assert (Hnd := NoDup_remove_dups l).
  assert (Hin : forall x, In x (remove_dups l) <-> In x l).
  { intros x. rewrite <- !list_elem_of_In. apply elem_of_remove_dups. }
  destruct (remove_dups l) as [|a [|b s]]; simpl.
  - split; [lia|]. intros (x & y & Hx & _). now apply Hin in Hx.
  - split; [lia|]. intros (x & y & Hx & Hy & Hne).
    apply Hin in Hx as [<-|[]]. apply Hin in Hy as [<-|[]]. congruence.
  - split; [|lia]. intros _. exists a, b.
    split; [apply Hin; now left|]. split; [apply Hin; right; now left|].
    apply NoDup_cons in Hnd as [Hnotin _]. intros ->. apply Hnotin. now left.
Qed.

Lemma tree_values_In (metadata : gmap (Z * string * Z) (option Z)) tree m :
  In m (omap (fun km : Z * string * Z * option Z =>
                if String.eqb km.1.1.2 tree then km.2 else None)
          (map_to_list metadata)) <->
  exists p d, metadata !! (p, tree, d) = Some (Some m).
Proof.
  rewrite <- list_elem_of_In, list_elem_of_omap. split.
  - intros ([[[p tr] d] v] & Hkm & Hv). simpl in Hv.
    destruct (String.eqb_spec tr tree) as [->|]; [|discriminate]. subst v.
    apply elem_of_map_to_list in Hkm. eauto.
  - intros (p & d & Hm). exists (p, tree, d, Some m). split.
    + now apply elem_of_map_to_list.
    + simpl. now rewrite String.eqb_refl.
Qed.

(** The flag, read off the dict. *)
Lemma metadata_conflict_true (metadata : gmap (Z * string * Z) (option Z)) :
  metadata_conflict metadata = true <->
  exists tree p1 d1 m1 p2 d2 m2,
    metadata !! (p1, tree, d1) = Some (Some m1) /\
    metadata !! (p2, tree, d2) = Some (Some m2) /\
    m1 <> m2.
Proof.
  unfold metadata_conflict, metadata_values. rewrite existsb_exists. split.
  - intros (tree & _ & Hlen). apply Nat.ltb_lt in Hlen.
    apply two_distinct in Hlen as (m1 & m2 & H1 & H2 & Hne).
    apply tree_values_In in H1 as (p1 & d1 & Hm1).
    apply tree_values_In in H2 as (p2 & d2 & Hm2).
    exists tree, p1, d1, m1, p2, d2, m2. auto.
  - intros (tree & p1 & d1 & m1 & p2 & d2 & m2 & H1 & H2 & Hne).
    exists tree. split.
    + rewrite <- list_elem_of_In, elem_of_remove_dups, list_elem_of_In.
      apply in_map_iff. exists (p1, tree, d1, Some m1). split; [reflexivity|].
      apply list_elem_of_In. now apply elem_of_map_to_list.
    + apply Nat.ltb_lt. apply two_distinct. exists m1, m2.
      split; [apply tree_values_In; eauto|].
      split; [apply tree_values_In; eauto|assumption].
Qed.

Section MetadataFacts.

Variable metadata_id : ForestTask.t -> option Z.

(** One tracker writes its metadata at the cells it covers and leaves the
    others. *)
Lemma record_metadata_lookup metadata t p tr d :
  record_metadata metadata_id metadata t !! (p, tr, d)
  = if covers p tr d t then Some (metadata_of metadata_id t)
    else metadata !! (p, tr, d).
Proof.
  unfold record_metadata.
  assert (Hgen : forall dates (m : gmap (Z * string * Z) (option Z)),
    fold_left (fun metadata date =>
        <[(ForestTask.participant t, ForestTask.forest_tree t, date)
          := metadata_of metadata_id t]> metadata) dates m !! (p, tr, d)
    = if Z.eqb (ForestTask.participant t) p
         && String.eqb (ForestTask.forest_tree t) tr
         && existsb (Z.eqb d) dates
      then Some (metadata_of metadata_id t) else m !! (p, tr, d)).
  { induction dates as [|date dates IH]; intros m; simpl.
    - now rewrite andb_false_r.
    - rewrite IH.
      destruct (Z.eqb_spec (ForestTask.participant t) p) as [Hp|Hp];
        destruct (String.eqb_spec (ForestTask.forest_tree t) tr) as [Htr|Htr];
        simpl; try (rewrite lookup_insert_ne by congruence; reflexivity).
      destruct (existsb (Z.eqb d) dates); simpl; [now rewrite orb_true_r|].
      rewrite orb_false_r.
      destruct (Z.eqb_spec d date) as [->|Hd].
      + subst. apply lookup_insert_eq.
      + rewrite lookup_insert_ne by congruence. reflexivity. }
  rewrite Hgen. unfold covers.
  destruct (Z.eqb _ p && String.eqb _ tr); simpl; [|reflexivity].
  destruct (existsb (Z.eqb d) _) eqn:Hex.
  - apply existsb_exists in Hex as (x & Hx & Hdx). apply Z.eqb_eq in Hdx. subst x.
    apply daterange_In in Hx.
    destruct (Z.leb_spec (ForestTask.data_date_start t) d);
      destruct (Z.leb_spec d (ForestTask.data_date_end t)); simpl; try reflexivity; lia.
  - destruct (Z.leb_spec (ForestTask.data_date_start t) d);
      destruct (Z.leb_spec d (ForestTask.data_date_end t)); simpl; try reflexivity.
    exfalso. assert (Hin : In d (daterange (ForestTask.data_date_start t)
                                   (ForestTask.data_date_end t)))
      by (apply daterange_In; lia).
    assert (existsb (Z.eqb d) (daterange (ForestTask.data_date_start t)
                                 (ForestTask.data_date_end t)) = true); [|congruence].
    apply existsb_exists. exists d. split; [assumption|apply Z.eqb_refl].
Qed.

(** The entry of a cell is that of the last covering tracker in the order
    of the loop. *)
Lemma build_metadata_lookup trackers p tr d :
  build_metadata metadata_id trackers !! (p, tr, d)
  = metadata_of metadata_id <$> last_covering p tr d trackers.
Proof.
  unfold build_metadata, last_covering.
  assert (Hgen : forall ts (m : gmap (Z * string * Z) (option Z)) acc,
    m !! (p, tr, d) = metadata_of metadata_id <$> acc ->
    fold_left (record_metadata metadata_id) ts m !! (p, tr, d)
    = metadata_of metadata_id <$>
        fold_left (fun acc t => if covers p tr d t then Some t else acc) ts acc).
  { induction ts as [|t ts IH]; intros m acc Hm; simpl; [assumption|].
    apply IH. rewrite record_metadata_lookup.
    destruct (covers p tr d t); [reflexivity|assumption]. }
  apply Hgen. apply lookup_empty.
Qed.

(** X10.  The progress page flags a metadata conflict exactly when two
    cells of one tree are each covered last, in the order of the page's loop
    over the tasks of the study (oldest first), by a successful task, and
    the two tasks point to different metadata.  A later task over a cell
    that did not succeed clears the cell, whatever the earlier tasks were,
    and a task without metadata never counts. *)
Theorem metadata_conflict_means_two_current_runs study w :
  analysis_progress_metadata_conflict metadata_id study w = true <->
  exists tree p1 d1 t1 m1 p2 d2 t2 m2,
    last_covering p1 tree d1 (progress_trackers study w) = Some t1 /\
    ForestTask.status t1 = Status.success /\ metadata_id t1 = Some m1 /\
    last_covering p2 tree d2 (progress_trackers study w) = Some t2 /\
    ForestTask.status t2 = Status.success /\ metadata_id t2 = Some m2 /\
    m1 <> m2.
Proof.
  unfold analysis_progress_metadata_conflict.
  generalize (progress_trackers study w) as trackers. intros trackers.
  rewrite metadata_conflict_true.
  assert (Hcell : forall p tree d m,
    build_metadata metadata_id trackers !! (p, tree, d) = Some (Some m) <->
    exists t, last_covering p tree d trackers = Some t /\
              ForestTask.status t = Status.success /\ metadata_id t = Some m).
  { intros p tree d m. rewrite build_metadata_lookup. unfold metadata_of.
    destruct (last_covering p tree d trackers) as [t|]; simpl; split.
    - intros [= H]. exists t. split; [reflexivity|].
      destruct (Status.eqb (ForestTask.status t) Status.success) eqn:Hs;
        [|discriminate].
      apply Status_eqb_eq in Hs. auto.
    - intros (t' & [= <-] & Hs & Hm). now rewrite Hs, Hm.
    - discriminate.
    - intros (t' & H & _). discriminate. }
  split.
  - intros (tree & p1 & d1 & m1 & p2 & d2 & m2 & H1 & H2 & Hne).
    apply Hcell in H1 as (t1 & ? & ? & ?). apply Hcell in H2 as (t2 & ? & ? & ?).
    exists tree, p1, d1, t1, m1, p2, d2, t2, m2. auto 10.
  - intros (tree & p1 & d1 & t1 & m1 & p2 & d2 & t2 & m2 &
            L1 & S1 & M1 & L2 & S2 & M2 & Hne).
    exists tree, p1, d1, m1, p2, d2, m2.
    split; [apply Hcell; eauto|]. split; [apply Hcell; eauto|assumption].
Qed.

End MetadataFacts.

(** *** Queueing tasks *)

Lemma next_id_above rows r : In r rows -> ForestTask.id r < next_id rows.
Proof.
  unfold next_id. induction rows as [|x rows IH]; simpl; intros Hr; [destruct Hr|].
  destruct Hr as [<-|Hr]; [lia|]. specialize (IH Hr). lia.
Qed.

Lemma unique_ids_snoc rows r :
  unique_ids rows -> ForestTask.id r = next_id rows -> unique_ids (rows ++ [r]).
Proof.
  unfold unique_ids. intros Hu Hid. rewrite map_app. simpl.
  apply List.NoDup_app; [assumption| |].
  - constructor; [intros []|constructor].
  - intros x Hx [<-|[]]. apply in_map_iff in Hx as (r0 & Hr0 & Hin).
    apply next_id_above in Hin. lia.
Qed.

Lemma with_new_rows_nil w : with_new_rows [] w = w.
Proof.
  unfold with_new_rows. simpl. rewrite app_nil_r, Nat.add_0_r. now destruct w.
Qed.

Lemma with_new_rows_app new1 new2 w :
  with_new_rows new2 (with_new_rows new1 w) = with_new_rows (new1 ++ new2) w.
Proof.
  unfold with_new_rows, set_tasks, set_ticks. simpl.
  now rewrite <- app_assoc, length_app, Nat.add_assoc.
Qed.

Section CreationFacts.

Context (E : Env) (strptime_date : string -> res Z)
  (new_external_id : Z -> string) (participant_table : list (Z * string)).

Lemma insert_tracker_run pid tree start stop w :
  insert_tracker E new_external_id pid tree start stop w
  = (Ok tt,
     with_new_rows
       [ForestTask.Build (next_id (tasks w)) (new_external_id (next_id (tasks w)))
          pid tree start stop (clock E (ticks w)) Status.queued
          "" None None None None None ""] w).
Proof.
  unfold insert_tracker, bind, now, modify, with_new_rows.
  destruct w as [ts cr fs br bl tk]. unfold set_tasks, set_ticks.
  cbn [tasks chunk_registry files broker blobs ticks length].
  now rewrite Nat.add_1_r.
Qed.

(** The rows one pass of the inner loop inserts. *)
Lemma trees_loop pid uid start stop trs w :
  get_participant participant_table uid = Ok pid ->
  exists new,
    for_each trs (fun tree =>
      participant <- of_res (get_participant participant_table uid) ;;
      insert_tracker E new_external_id participant tree start stop) w
    = (Ok tt, with_new_rows new w) /\
    Forall2 (queued_for start stop) (map (pair pid) trs) new /\
    (unique_ids (tasks w) -> unique_ids (tasks w ++ new)).
Proof.
  intros Hget.
  set (body := fun tree : string => _).
  assert (Hbody : forall tree w0,
            body tree w0 = insert_tracker E new_external_id pid tree start stop w0).
  { intros tree w0. unfold body, bind, of_res. now rewrite Hget. }
  clearbody body.
  revert w. induction trs as [|tree trs IH]; intros w.
  - exists []. rewrite with_new_rows_nil, app_nil_r.
    split; [reflexivity|]. split; [constructor|auto].
  - cbn [for_each]. unfold bind at 1. rewrite Hbody, insert_tracker_run.
    set (r := ForestTask.Build _ _ pid tree start stop _ _ _ _ _ _ _ _ _).
    destruct (IH (with_new_rows [r] w)) as (new & Hrun & Hnew & Hu).
    exists (r :: new). split; [|split].
    + rewrite Hrun, with_new_rows_app. reflexivity.
    + simpl. constructor; [repeat split|assumption].
    + intros Hw. cbn [tasks with_new_rows set_tasks] in Hu.
      rewrite <- app_assoc in Hu. apply Hu.
      apply unique_ids_snoc; [assumption|reflexivity].
Qed.

(** The rows the two loops insert when every patient id is found. *)
Lemma pairs_loop pids uids start stop trs w :
  Forall2 (fun uid pid => get_participant participant_table uid = Ok pid)
    uids pids ->
  exists new,
    for_each uids (fun participant_id =>
      for_each trs (fun tree =>
        participant <- of_res (get_participant participant_table
                                 participant_id) ;;
        insert_tracker E new_external_id participant tree start stop)) w
    = (Ok tt, with_new_rows new w) /\
    Forall2 (queued_for start stop) (list_prod pids trs) new /\
    (unique_ids (tasks w) -> unique_ids (tasks w ++ new)).
Proof.
  intros Hall. revert w.
  induction Hall as [|uid pid uids pids Hget _ IH]; intros w.
  - exists []. rewrite with_new_rows_nil, app_nil_r.
    split; [reflexivity|]. split; [constructor|auto].
  - destruct (trees_loop pid uid start stop trs w Hget) as (new1 & H1 & R1 & U1).
    destruct (IH (with_new_rows new1 w)) as (new2 & H2 & R2 & U2).
    exists (new1 ++ new2)%list. cbn [for_each]. unfold bind at 1. rewrite H1, H2.
    rewrite with_new_rows_app. split; [reflexivity|]. split.
    + simpl. now apply Forall2_app.
    + intros Hw. cbn [tasks with_new_rows set_tasks] in U2.
      rewrite <- app_assoc in U2. auto.
Qed.

End CreationFacts.

Lemma Forall2_In_r {A B} (R : A -> B -> Prop) l l' y :
  Forall2 R l l' -> In y l' -> exists x, In x l /\ R x y.
Proof.
  induction 1 as [|a b l l' Hab _ IH]; intros Hy; [destruct Hy|].
  destruct Hy as [<-|Hy].
  - exists a. split; [now left|assumption].
  - destruct (IH Hy) as (x & Hx & Hxy). exists x. split; [now right|assumption].
Qed.

Section CreationTheorems.

Context (E : Env) (strptime_date : string -> res Z)
  (new_external_id : Z -> string) (participant_table : list (Z * string)).

(** The request up to the loops: the world the loops start from has the
    table, the broker and the files of the world of the request. *)
Lemma create_tasks_post study req start stop w :
  create_site_admin req = true ->
  String.eqb (create_method req) "GET" = false ->
  parse_date strptime_date (date_start req) = Ok start ->
  parse_date strptime_date (date_end req) = Ok stop ->
  exists w0,
    tasks w0 = tasks w /\ broker w0 = broker w /\
    create_tasks E strptime_date new_external_id participant_table
      (Some study) req w
    = (for_each (user_ids req) (fun participant_id =>
         for_each (trees req) (fun tree =>
           participant <- of_res (get_participant participant_table
                                    participant_id) ;;
           insert_tracker E new_external_id participant tree start stop)) ;;;
       ret (Redirect "Forest tasks successfully queued!" "success")) w0.
Proof.
  intros Hadmin Hpost Hstart Hstop. unfold create_tasks.
  rewrite Hadmin, Hpost. cbn [negb].
  cbv beta iota zeta delta [bind gets of_res].
  destruct (first (order_by Chunk.time_bin _)) as [earliest|];
    [destruct (first (order_by_desc Chunk.time_bin _)) as [latest|]|];
    cbv beta iota zeta delta [bind ret now of_res];
    rewrite Hstart, Hstop; eexists; (split; [|split; [|reflexivity]]);
    reflexivity.
Qed.

(** X11.  A site admin's request to queue tasks, with two dates that parse
    and patient ids that each name one participant, ends in the redirect
    and adds one row per patient id and tree, in the order of the form
    (all trees of the first patient id first) after the rows that were
    there: each new row is queued, is for that participant and tree, and
    carries the date range of the form.  The participants are looked up in
    the whole table, not among those of the study, and neither the trees
    nor the order of the two dates are checked.  Keys stay unique. *)
Theorem create_tasks_queues_every_pair study req start stop pids w :
  create_site_admin req = true ->
  String.eqb (create_method req) "GET" = false ->
  parse_date strptime_date (date_start req) = Ok start ->
  parse_date strptime_date (date_end req) = Ok stop ->
  Forall2 (fun uid pid => get_participant participant_table uid = Ok pid)
    (user_ids req) pids ->
  exists w' new,
    create_tasks E strptime_date new_external_id participant_table
      (Some study) req w
    = (Ok (Redirect "Forest tasks successfully queued!" "success"), w') /\
    tasks w' = (tasks w ++ new)%list /\
    Forall2 (queued_for start stop) (list_prod pids (trees req)) new /\
    (unique_ids (tasks w) -> unique_ids (tasks w')).
Proof.
  intros Hadmin Hpost Hstart Hstop Hpids.
  destruct (create_tasks_post study req start stop w Hadmin Hpost Hstart Hstop)
    as (w0 & Ht0 & _ & ->).
  destruct (pairs_loop E new_external_id participant_table pids (user_ids req)
              start stop (trees req) w0 Hpids) as (new & Hrun & Hnew & Hu).
  exists (with_new_rows new w0), new. unfold bind at 1. rewrite Hrun.
  split; [reflexivity|]. cbn [tasks with_new_rows set_tasks]. rewrite Ht0 in *.
  auto.
Qed.

(** X12.  The request is not atomic.  When a patient id of the form names no
    participant (or more than one), the lookup raises at the first tree of
    that patient id and the exception leaves the view, yet the rows already
    inserted for the patient ids before it stay in the table. *)
Theorem create_tasks_keeps_rows_of_a_failed_request
    study req start stop known pids uid rest tree trs e w :
  create_site_admin req = true ->
  String.eqb (create_method req) "GET" = false ->
  parse_date strptime_date (date_start req) = Ok start ->
  parse_date strptime_date (date_end req) = Ok stop ->
  user_ids req = (known ++ uid :: rest)%list ->
  trees req = tree :: trs ->
  Forall2 (fun uid pid => get_participant participant_table uid = Ok pid)
    known pids ->
  get_participant participant_table uid = Raise e ->
  exists w' new,
    create_tasks E strptime_date new_external_id participant_table
      (Some study) req w
    = (Raise e, w') /\
    tasks w' = (tasks w ++ new)%list /\
    Forall2 (queued_for start stop) (list_prod pids (trees req)) new.
Proof.
  intros Hadmin Hpost Hstart Hstop Huids Htrees Hpids Hfail.
  destruct (create_tasks_post study req start stop w Hadmin Hpost Hstart Hstop)
    as (w0 & Ht0 & _ & ->).
  destruct (pairs_loop E new_external_id participant_table pids known
              start stop (trees req) w0 Hpids) as (new & Hrun & Hnew & _).
  exists (with_new_rows new w0), new. unfold bind at 1.
  rewrite Huids, for_each_app, Hrun. cbn [for_each]. rewrite Htrees.
  cbn [for_each]. unfold bind, of_res. rewrite Hfail.
  split; [reflexivity|]. cbn [tasks with_new_rows set_tasks]. rewrite Ht0.
  rewrite <- Htrees. auto.
Qed.

(** X13.  Queueing and admission compose: after a successful request to
    queue tasks, the next admission scan of a working broker submits, for
    every row the request added, a message that carries the key of that
    row and the dispatch policy. *)
Theorem created_tasks_are_dispatched study req start stop pids w :
  create_site_admin req = true ->
  String.eqb (create_method req) "GET" = false ->
  parse_date strptime_date (date_start req) = Ok start ->
  parse_date strptime_date (date_end req) = Ok stop ->
  Forall2 (fun uid pid => get_participant participant_table uid = Ok pid)
    (user_ids req) pids ->
  fault E at_apply_async = None ->
  let w1 := (create_tasks E strptime_date new_external_id participant_table
               (Some study) req w).2 in
  let w2 := (create_forest_celery_tasks E w1).2 in
  exists new,
    tasks w1 = (tasks w ++ new)%list /\
    length new = (length pids * length (trees req))%nat /\
    forall r, In r new ->
      exists msg k, In msg (broker w2) /\ dispatch_of E (ForestTask.id r) k msg.
Proof.
  intros Hadmin Hpost Hstart Hstop Hpids Hq.
  destruct (create_tasks_post study req start stop w Hadmin Hpost Hstart Hstop)
    as (w0 & Ht0 & _ & Hcreate).
  destruct (pairs_loop E new_external_id participant_table pids (user_ids req)
              start stop (trees req) w0 Hpids) as (new & Hrun & Hnew & _).
  assert (Hw1 : create_tasks E strptime_date new_external_id participant_table
                  (Some study) req w
                = (Ok (Redirect "Forest tasks successfully queued!" "success"),
                   with_new_rows new w0)).
  { rewrite Hcreate. unfold bind at 1. now rewrite Hrun. }
  cbv zeta. rewrite Hw1. cbn [fst snd].
  exists new. split; [cbn [tasks with_new_rows set_tasks]; now rewrite Ht0|].
  split.
  { rewrite <- (Forall2_length _ _ _ Hnew). apply length_prod. }
  intros r Hr.
  unfold create_forest_celery_tasks, bind, gets.
  rewrite (scan_run E _ _ Hq). cbn [snd broker set_broker].
  set (pending := List.filter _ _).
  assert (Hin : In r pending).
  { apply filter_In. split.
    - cbn [tasks with_new_rows set_tasks]. apply in_or_app. now right.
    - apply has_status_true.
      destruct (Forall2_In_r _ _ _ r Hnew Hr) as (pt & _ & Hpt).
      apply Hpt. }
  destruct (Forall2_In_l _ _ _ r (scan_messages_ok E (ticks (with_new_rows new w0)) pending)
              Hin) as (msg & Hmsg & k & Hk).
  exists msg, k. split; [apply in_or_app; now right|assumption].
Qed.

End CreationTheorems.

Lemma create_tasks_queues_every_pair_witness :
  exists w' new,
    create_tasks (Demo.env Demo.quiet Demo.s3_ok Demo.main_none)
      DemoForm.strptime_date DemoForm.new_external_id DemoForm.participant_table
      (Some (mkStudy 0 [7; 8])) DemoForm.both DemoForm.empty
    = (Ok (Redirect "Forest tasks successfully queued!" "success"), w') /\
    tasks w' = (tasks DemoForm.empty ++ new)%list /\
    Forall2 (queued_for 18628 18637)
      (list_prod [7; 8] (trees DemoForm.both)) new /\
    (unique_ids (tasks DemoForm.empty) -> unique_ids (tasks w')).
Proof.
  apply create_tasks_queues_every_pair; try reflexivity.
  repeat constructor.
Defined.

Lemma create_tasks_keeps_rows_of_a_failed_request_witness :
  exists w' new,
    create_tasks (Demo.env Demo.quiet Demo.s3_ok Demo.main_none)
      DemoForm.strptime_date DemoForm.new_external_id DemoForm.participant_table
      (Some (mkStudy 0 [7; 8])) DemoForm.unknown_second DemoForm.empty
    = (Raise (Exn "DoesNotExist" "Participant matching query does not exist."),
       w') /\
    tasks w' = (tasks DemoForm.empty ++ new)%list /\
    Forall2 (queued_for 18628 18637)
      (list_prod [7] (trees DemoForm.unknown_second)) new.
Proof.
  apply (create_tasks_keeps_rows_of_a_failed_request
           (Demo.env Demo.quiet Demo.s3_ok Demo.main_none)
           DemoForm.strptime_date DemoForm.new_external_id
           DemoForm.participant_table (mkStudy 0 [7; 8]) DemoForm.unknown_second
           18628 18637 ["p7"] [7] "nobody" [] "jasmine" ["willow"]);
    try reflexivity.
  repeat constructor.
Defined.

Lemma created_tasks_are_dispatched_witness :
  let E := Demo.env Demo.quiet Demo.s3_ok Demo.main_none in
  let w1 := (create_tasks E DemoForm.strptime_date DemoForm.new_external_id
               DemoForm.participant_table (Some (mkStudy 0 [7; 8]))
               DemoForm.both DemoForm.empty).2 in
  let w2 := (create_forest_celery_tasks E w1).2 in
  exists new,
    tasks w1 = (tasks DemoForm.empty ++ new)%list /\
    length new = (length [7; 8] * length (trees DemoForm.both))%nat /\
    forall r, In r new ->
      exists msg k, In msg (broker w2) /\ dispatch_of E (ForestTask.id r) k msg.
Proof.
  apply (created_tasks_are_dispatched
           (Demo.env Demo.quiet Demo.s3_ok Demo.main_none)
           DemoForm.strptime_date DemoForm.new_external_id
           DemoForm.participant_table (mkStudy 0 [7; 8]) DemoForm.both
           18628 18637 [7; 8] DemoForm.empty); try reflexivity.
  repeat constructor.
Defined.

(** *** The subnets *)

Lemma remove_dups_one {A} `{EqDecision A} (l : list A) :
  length (remove_dups l) = 1%nat <->
  exists x, In x l /\ forall y, In y l -> y = x.
Proof.
  assert (Hin : forall x, In x (remove_dups l) <-> In x l).
  { intros x. rewrite <- !list_elem_of_In. apply elem_of_remove_dups. }
  assert (Hnd := NoDup_remove_dups l).
  destruct (remove_dups l) as [|a [|b s]]; simpl.
  - split; [discriminate|]. intros (x & Hx & _). now apply Hin in Hx.
  - split; [|reflexivity]. intros _. exists a. split; [apply Hin; now left|].
    intros y Hy. apply Hin in Hy as [<-|[]]. reflexivity.
  - split; [discriminate|]. intros (x & _ & Hall). exfalso.
    apply NoDup_cons in Hnd as [Hnotin _]. apply Hnotin.
    rewrite (Hall a), <- (Hall b); [now left|apply Hin; right; now left
                                   |apply Hin; now left].
Qed.

(** X14.  Left to itself, the script picks a subnet exactly when the region
    lists at least one subnet and all the subnets listed lie in one VPC, and
    then it picks the first subnet listed, alone.  In every other case,
    also when the region lists no subnet at all, it exits with status 1. *)
Theorem subnet_chosen_only_within_one_vpc subnets :
  match JobQueue.choose_subnets None subnets with
  | Ok chosen =>
      exists s rest, subnets = s :: rest /\ chosen = [s.1] /\
                     forall x, In x rest -> x.2 = s.2
  | Raise e =>
      e = JobQueue.SystemExit_1 /\
      ~ exists s rest, subnets = s :: rest /\ forall x, In x rest -> x.2 = s.2
  end.
Proof.
  unfold JobQueue.choose_subnets.
  destruct (Nat.eqb_spec (length (remove_dups (map snd subnets))) 1) as [H1|H1];
    simpl.
  - apply remove_dups_one in H1 as (v & Hv & Hall).
    destruct subnets as [|s rest]; [destruct Hv|].
    exists s, rest. split; [reflexivity|]. split; [reflexivity|].
    intros x Hx. rewrite (Hall x.2), (Hall s.2); [reflexivity|now left|].
    right. now apply in_map.
  - split; [reflexivity|]. intros (s & rest & -> & Hall). apply H1.
    apply remove_dups_one. exists s.2. split; [now left|].
    intros y [<-|Hy]; [reflexivity|].
    apply in_map_iff in Hy as (x & <- & Hx). now apply Hall.
Qed.

(** *** The wait for the compute environment *)

Lemma wait_pending describe_status fuel polls :
  JobQueue.pending (describe_status polls) ->
  JobQueue.wait_for_compute_environment describe_status (S fuel) polls
  = JobQueue.wait_for_compute_environment describe_status fuel (S polls).
Proof. intros [H|H]; simpl; now rewrite H. Qed.

Lemma wait_settled describe_status fuel polls :
  ~ JobQueue.pending (describe_status polls) ->
  JobQueue.wait_for_compute_environment describe_status (S fuel) polls
  = Some (JobQueue.verdict (describe_status polls) polls).
Proof.
  unfold JobQueue.pending, JobQueue.verdict. intros H. simpl.
  destruct (describe_status polls) as [status|]; [|reflexivity].
  destruct (String.eqb status "VALID"); [reflexivity|].
  destruct (String.eqb_spec status "CREATING") as [->|]; [now destruct H; left|].
  destruct (String.eqb_spec status "UPDATING") as [->|]; [now destruct H; right|].
  reflexivity.
Qed.

(** X15.  The wait ends at the first answer that is neither CREATING nor
    UPDATING, after one sleep for each answer before it: by [break] when
    that answer is VALID, with a RuntimeError when it is any other status,
    and with an IndexError when it lists no environment.  Enough rounds are
    one more than the number of answers before it. *)
Theorem wait_ends_at_first_settled_answer describe_status n fuel :
  (forall k, (k < n)%nat -> JobQueue.pending (describe_status k)) ->
  ~ JobQueue.pending (describe_status n) ->
  (n < fuel)%nat ->
  JobQueue.wait_for_compute_environment describe_status fuel 0
  = Some (JobQueue.verdict (describe_status n) n).
Proof.
  intros Hbefore Hn Hfuel.
  assert (Hgen : forall d polls fuel0,
            (polls + d = n)%nat -> (d < fuel0)%nat ->
            JobQueue.wait_for_compute_environment describe_status fuel0 polls
            = Some (JobQueue.verdict (describe_status n) n)).
  { induction d as [|d IH]; intros polls fuel0 Hd Hf;
      (destruct fuel0 as [|fuel0]; [lia|]).
    - replace polls with n by lia. now apply wait_settled.
    - rewrite wait_pending by (apply Hbefore; lia). apply IH; lia. }
  apply (Hgen n); lia.
Qed.

Lemma wait_ends_at_first_settled_answer_witness :
  JobQueue.wait_for_compute_environment
    (fun k => if (k <? 2)%nat then Some "CREATING" else Some "VALID") 5 0
  = Some (Ok 2%nat).
Proof.
  apply (wait_ends_at_first_settled_answer
           (fun k => if (k <? 2)%nat then Some "CREATING" else Some "VALID") 2 5).
  - intros k Hk. left. destruct k as [|[|k]]; [reflexivity|reflexivity|lia].
  - intros [H|H]; discriminate H.
  - lia.
Defined.

(** X16.  The wait has no time limit: as long as every answer is CREATING or
    UPDATING the loop goes round, however many rounds it is given. *)
Theorem wait_never_gives_up describe_status fuel :
  (forall k, JobQueue.pending (describe_status k)) ->
  JobQueue.wait_for_compute_environment describe_status fuel 0 = None.
Proof.
  intros Hall. generalize 0%nat as polls.
  induction fuel as [|fuel IH]; intros polls; [reflexivity|].
  rewrite wait_pending by apply Hall. apply IH.
Qed.

Lemma wait_never_gives_up_witness :
  JobQueue.wait_for_compute_environment (fun _ => Some "UPDATING") 1000 0 = None.
Proof.
  apply wait_never_gives_up. intros k. now right.
Defined.

(** *** The names of the job definition *)

Lemma string_length_append (s1 s2 : string) :
  String.length (s1 +:+ s2) = (String.length s1 + String.length s2)%nat.
Proof. induction s1 as [|c s1 IH]; simpl; [reflexivity|now rewrite IH]. Qed.

Lemma attempt_ne_base base_name i : JobQueue.attempt base_name i <> base_name.
Proof.
  unfold JobQueue.attempt. intros H.
  assert (Hlen := f_equal String.length H).
  rewrite !string_length_append in Hlen. simpl in Hlen. lia.
Qed.

Section Names.

Variable register_job_definition : nat -> string -> bool.
Variable base_name : string.

(** The loop from round [n] on, started with the names of the rounds before
    it registered and refused. *)
Lemma job_definition_loop_from d n st out :
  (n + d = 100)%nat ->
  JobQueue.registered st = map (JobQueue.attempt base_name) (seq 0 n) ->
  (n = 1%nat -> JobQueue.job_definition_name st = JobQueue.attempt base_name 0) ->
  (forall k, (k < n)%nat ->
     register_job_definition k (JobQueue.attempt base_name k) = false) ->
  JobQueue.job_definition_loop register_job_definition base_name (seq n d) st
  = out ->
  exists k, (n <= k <= 100)%nat /\
    JobQueue.registered out.1
    = map (JobQueue.attempt base_name) (seq 0 (if out.2 then S k else k)) /\
    (forall j, (j < k)%nat ->
       register_job_definition j (JobQueue.attempt base_name j) = false) /\
    if out.2
    then (k < 100)%nat /\
         register_job_definition k (JobQueue.attempt base_name k) = true /\
         JobQueue.job_definition_name out.1 = JobQueue.attempt base_name k
    else k = 100%nat.
Proof.
  revert n st. induction d as [|d IH]; intros n st Hd Hreg Hname Hrefused Hout.
  - simpl in Hout. subst out. exists n. rewrite Nat.add_0_r in Hd. subst n.
    cbn [fst snd]. auto.
  - cbn [seq JobQueue.job_definition_loop] in Hout.
    set (st1 := if negb (n =? 1)%nat then _ else st) in Hout.
    assert (Hst1 : JobQueue.job_definition_name st1 = JobQueue.attempt base_name n
                   /\ JobQueue.registered st1 = JobQueue.registered st).
    { unfold st1, JobQueue.attempt. destruct (Nat.eqb_spec n 1) as [->|Hne]; simpl.
      - split; [now apply Hname|reflexivity].
      - split; reflexivity. }
    destruct Hst1 as [Hn1 Hr1]. clearbody st1. cbv zeta in Hout.
    rewrite Hn1, Hr1, Hreg, length_map, length_seq in Hout.
    destruct (register_job_definition n (JobQueue.attempt base_name n)) eqn:Hcall.
    + subst out. exists n.
      cbn [fst snd JobQueue.registered JobQueue.job_definition_name].
      split; [lia|]. split.
      * now rewrite seq_S, map_app.
      * split; [assumption|]. split; [lia|]. auto.
    + apply IH in Hout.
      * destruct Hout as (k & Hk & H). exists k. split; [lia|exact H].
      * lia.
      * cbn [JobQueue.registered]. now rewrite seq_S, map_app.
      * intros [= ->]. reflexivity.
      * intros k Hk. destruct (Nat.eq_dec k n) as [->|]; [assumption|].
        apply Hrefused. lia.
Qed.

End Names.

(** X17.  The names the script tries for the job definition.  Round i
    registers the base name followed by an underscore and i, except that
    round 1 registers the name of round 0 again: so the base name itself is
    never tried, nor is the name with 1, and the name with 0 is tried twice
    when it is refused.  The loop stops at the first call that returns and
    the variable then holds the name registered; when all 100 calls raise,
    the script ends without an error and with no job definition. *)
Theorem job_definition_names_tried register_job_definition base_name :
  let out := JobQueue.register_job_definitions register_job_definition
               base_name in
  exists k, (k <= 100)%nat /\
    JobQueue.registered out.1
    = map (JobQueue.attempt base_name) (seq 0 (if out.2 then S k else k)) /\
    (forall j, (j < k)%nat ->
       register_job_definition j (JobQueue.attempt base_name j) = false) /\
    (if out.2
     then (k < 100)%nat /\
          register_job_definition k (JobQueue.attempt base_name k) = true /\
          JobQueue.job_definition_name out.1 = JobQueue.attempt base_name k
     else k = 100%nat) /\
    JobQueue.attempt base_name 1 = JobQueue.attempt base_name 0 /\
    forall name, In name (JobQueue.registered out.1) ->
      name <> base_name /\ name <> base_name +:+ "_1".
Proof.
  cbv zeta. unfold JobQueue.register_job_definitions.
  destruct (job_definition_loop_from register_job_definition base_name 100 0
              (JobQueue.mkNames base_name [] []) _
              eq_refl eq_refl ltac:(discriminate) ltac:(lia) eq_refl)
    as (k & Hk & Hreg & Hrefused & Hout).
  exists k. split; [lia|]. split; [assumption|].
  split; [assumption|]. split; [assumption|]. split; [reflexivity|].
  intros name Hname. rewrite Hreg in Hname.
  apply in_map_iff in Hname as (i & <- & _). split; [apply attempt_ne_base|].
  unfold JobQueue.attempt. intros H.
  apply (inj (String.app base_name)) in H.
  apply (inj (String.app "_")) in H.
  change "1" with (pretty 1%nat) in H. apply (inj pretty) in H.
  destruct (Nat.eqb_spec i 1); [discriminate|contradiction].
Qed.
